(** * PCR thermocycler simulator: plant, PID and fuzzy controllers, orchestrator

    Shallow embedding of [thermal_model.py], [pid_controller.py],
    [fuzzy_controller.py] and [pcr_simulator.py].

    Numbers.  The code is embedded twice.  In the first embedding
    Python floats are exact rationals in canonical form ([Qc]):
    addition, multiplication and comparison are the exact ones, and
    equality of values is Leibniz equality; rounding error, infinities
    and NaN are outside it.  It covers the four files.  In the second
    embedding (the modules whose names end in [64]) floats are IEEE 754
    binary64 numbers, every operation rounded as Python rounds it.  It
    covers the plant, the PID controller and the stepping loop, where
    the rounded arithmetic parts from the exact one in what is stated
    below: the anti-windup identity and the simulation clock.  Python
    integers are [Z], array positions are [nat].

    Errors.  A division whose divisor is zero raises in Python
    ([ZeroDivisionError]); an array written or read out of range raises
    [IndexError]; allocating an array of negative size raises
    [ValueError].  Functions that can raise return an [outcome]. *)

From Stdlib Require Import QArith Qcanon Qround Lqa ZArith Lia Floats.
From stdpp Require Import base numbers list option.

Set Warnings "-inexact-float".

Local Open Scope Qc_scope.

(** ** Python-level primitives *)

Module Py.

(** What can go wrong: the three Python exceptions the code can meet,
    and [Undefined] for the [inf] or [nan] that a numpy division by
    zero produces instead of raising. *)
Inductive exn : Set :=
| ZeroDivisionError
| ValueError
| IndexError
| Undefined.

(** Result of running a piece of code: a value, a raised exception, or
    a loop that used up the iterations it was given. *)
Inductive outcome (A : Type) : Type :=
| Ok (a : A)
| Raise (e : exn)
| OutOfFuel.
Arguments Ok {A} a.
Arguments Raise {A} e.
Arguments OutOfFuel {A}.

#[global] Instance exn_eq_dec : EqDecision exn.
Proof. solve_decision. Defined.

#[global] Instance outcome_eq_dec {A : Type} `{EqDecision A} :
  EqDecision (outcome A).
Proof. solve_decision. Defined.

Definition bind {A B : Type} (m : outcome A) (k : A -> outcome B)
  : outcome B :=
  match m with
  | Ok a => k a
  | Raise e => Raise e
  | OutOfFuel => OutOfFuel
  end.

(** A float literal. *)
Definition real (q : Q) : Qc := Q2Qc q.

(** [max(a, b)]: the first argument unless the second is larger. *)
Definition max (a b : Qc) : Qc := if decide (a < b) then b else a.

(** [min(a, b)]: the first argument unless the second is smaller. *)
Definition min (a b : Qc) : Qc := if decide (b < a) then b else a.

(** [clamp(u, lo, hi)], which the code writes [max(lo, min(u, hi))]. *)
Definition clamp (u lo hi : Qc) : Qc := max lo (min u hi).

(** [x / y] on floats. *)
Definition div (x y : Qc) : outcome Qc :=
  if decide (y = 0) then Raise ZeroDivisionError else Ok (x / y).

(** The largest integer not above [x]. *)
Definition floor (x : Qc) : Z := Qfloor x.

(** [round(x)]: the nearest integer, a tie going to the even one. *)
Definition round (x : Qc) : Z :=
  let f := floor x in
  let r := x - Qc_of_Z f in
  if decide (r < real 0.5) then f
  else if decide (real 0.5 < r) then (f + 1)%Z
  else if Z.even f then f else (f + 1)%Z.

(** [int(x)]: truncation towards zero. *)
Definition int (x : Qc) : Z :=
  if decide (x < 0) then Qceiling x else floor x.

(** [sum(xs)]: left to right, starting from 0. *)
Definition sum (xs : list Qc) : Qc := foldl Qcplus 0 xs.

(** [[f(x) for x in xs]] for an [f] that can raise. *)
Fixpoint for_each {A B : Type} (f : A -> outcome B) (xs : list A)
  : outcome (list B) :=
  match xs with
  | [] => Ok []
  | x :: rest =>
      match f x with
      | Ok y =>
          match for_each f rest with
          | Ok ys => Ok (y :: ys)
          | Raise e => Raise e
          | OutOfFuel => OutOfFuel
          end
      | Raise e => Raise e
      | OutOfFuel => OutOfFuel
      end
  end.

End Py.

Import Py.

Notation "'let*' x ':=' m 'in' k" :=
  (Py.bind m (fun x => k))
  (at level 10, x pattern, m at level 100, k at level 200).

(** ** thermal_model.py *)

Module ThermalModel.

Record t : Type := mk {
  heat_capacity : Qc;
  heating_power : Qc;
  cooling_power : Qc;
  heat_loss_coef : Qc;
  ambient_temp : Qc;
  sample_volume : Qc;
  sample_density : Qc;
  sample_specific_heat : Qc;
  temperature : Qc;
  sample_heat_capacity : Qc;
  total_heat_capacity : Qc
}.

#[global] Instance thermal_eq_dec : EqDecision t.
Proof. solve_decision. Defined.

(** [__init__] *)
Definition init (heat_capacity heating_power cooling_power heat_loss_coef
                 ambient_temp sample_volume sample_density
                 sample_specific_heat initial_temp : Qc) : t :=
  let sample_mass := sample_volume * sample_density in
  {| heat_capacity := heat_capacity;
     heating_power := heating_power;
     cooling_power := cooling_power;
     heat_loss_coef := heat_loss_coef;
     ambient_temp := ambient_temp;
     sample_volume := sample_volume;
     sample_density := sample_density;
     sample_specific_heat := sample_specific_heat;
     temperature := initial_temp;
     sample_heat_capacity := sample_mass * sample_specific_heat;
     total_heat_capacity := heat_capacity |}.

(** The constructor's default arguments. *)
Definition default : t :=
  init (real 500) (real 250) (real 150) (real 1.5) (real 22)
       (real (5 # 1000000)) (real 1000) (real 4100) (real 22).

Definition set_temperature (self : t) (v : Qc) : t :=
  {| heat_capacity := heat_capacity self;
     heating_power := heating_power self;
     cooling_power := cooling_power self;
     heat_loss_coef := heat_loss_coef self;
     ambient_temp := ambient_temp self;
     sample_volume := sample_volume self;
     sample_density := sample_density self;
     sample_specific_heat := sample_specific_heat self;
     temperature := v;
     sample_heat_capacity := sample_heat_capacity self;
     total_heat_capacity := total_heat_capacity self |}.

Definition calculate_heat_flow (self : t) (control_output : Qc) : Qc :=
  let applied_power :=
    if decide (0 < control_output)
    then Py.min control_output (heating_power self)
    else Py.max control_output (- cooling_power self) in
  let heat_loss :=
    heat_loss_coef self * (temperature self - ambient_temp self) in
  let net_heat_flow := applied_power - heat_loss in
  net_heat_flow.

Definition get_derivative (self : t) (control_output : Qc) : outcome Qc :=
  let net_heat_flow := calculate_heat_flow self control_output in
  let* dT_dt := Py.div net_heat_flow (total_heat_capacity self) in
  Ok dT_dt.

(** [update]: the model after the step, and the returned temperature. *)
Definition update (self : t) (control_output dt : Qc) : outcome (t * Qc) :=
  let* dT_dt := get_derivative self control_output in
  let self := set_temperature self (temperature self + dT_dt * dt) in
  Ok (self, temperature self).

(** [reset(initial_temp=None)] *)
Definition reset (self : t) (initial_temp : option Qc) : t :=
  let initial_temp :=
    match initial_temp with
    | None => ambient_temp self
    | Some v => v
    end in
  set_temperature self initial_temp.

End ThermalModel.


(** ** pid_controller.py *)

Module PIDController.

Record t : Type := mk {
  kp : Qc;
  ti : Qc;
  td : Qc;
  output_min : Qc;
  output_max : Qc;
  integral : Qc;
  prev_error : Qc;
  prev_derivative : Qc;
  p_term : Qc;
  i_term : Qc;
  d_term : Qc
}.

#[global] Instance pid_eq_dec : EqDecision t.
Proof. solve_decision. Defined.

(** [__init__] *)
Definition init (kp ti td output_min output_max : Qc) : t :=
  {| kp := kp; ti := ti; td := td;
     output_min := output_min; output_max := output_max;
     integral := 0; prev_error := 0; prev_derivative := 0;
     p_term := 0; i_term := 0; d_term := 0 |}.

Definition default : t :=
  init (real 80) (real 1) (real 20) (real (-150)) (real 250).

(** The internal state is replaced, the configuration kept. *)
Definition with_state (self : t)
    (integral prev_error prev_derivative p_term i_term d_term : Qc) : t :=
  {| kp := kp self; ti := ti self; td := td self;
     output_min := output_min self; output_max := output_max self;
     integral := integral; prev_error := prev_error;
     prev_derivative := prev_derivative;
     p_term := p_term; i_term := i_term; d_term := d_term |}.

(** First half of [update]: error, P, I and D terms.  The state after
    it still has the old [prev_error]. *)
Definition compute_terms (self : t) (setpoint measurement dt : Qc)
  : outcome t :=
  let error := setpoint - measurement in
  let p_term := error in
  let integral := integral self + error * dt in
  let* i_term :=
    if decide (0 < ti self) then Py.div integral (ti self) else Ok 0 in
  let* (d_term, prev_derivative) :=
    if decide (0 < dt) then
      let* derivative := Py.div (error - prev_error self) dt in
      let alpha := real 0.5 in
      let filtered_derivative :=
        alpha * derivative + (1 - alpha) * prev_derivative self in
      Ok (td self * filtered_derivative, filtered_derivative)
    else Ok (0, prev_derivative self) in
  Ok (with_state self integral (prev_error self) prev_derivative
                 p_term i_term d_term).

(** [output = self.kp * (self.p_term + self.i_term + self.d_term)] *)
Definition raw_output (self : t) : Qc :=
  kp self * (p_term self + i_term self + d_term self).

(** [max(self.output_min, min(output, self.output_max))] *)
Definition clamp_output (self : t) (output : Qc) : Qc :=
  Py.max (output_min self) (Py.min output (output_max self)).

(** The guard of the anti-windup branch. *)
Definition saturated (self : t) (output output_clamped : Qc) : bool :=
  bool_decide (output <> output_clamped) && bool_decide (0 < ti self).

(** The body of the anti-windup branch. *)
Definition back_calculate (self : t) (output_clamped : Qc) : outcome t :=
  let* q := Py.div output_clamped (kp self) in
  let max_i_term := q - p_term self - d_term self in
  Ok (with_state self (max_i_term * ti self) (prev_error self)
                 (prev_derivative self) (p_term self) max_i_term
                 (d_term self)).

Definition set_prev_error (self : t) (error : Qc) : t :=
  with_state self (integral self) error (prev_derivative self)
             (p_term self) (i_term self) (d_term self).

(** [update]: the controller after the call, and the returned output. *)
Definition update (self : t) (setpoint measurement dt : Qc)
  : outcome (t * Qc) :=
  let error := setpoint - measurement in
  let* self := compute_terms self setpoint measurement dt in
  let output := raw_output self in
  let output_clamped := clamp_output self output in
  let* self :=
    if saturated self output output_clamped
    then back_calculate self output_clamped
    else Ok self in
  let self := set_prev_error self error in
  Ok (self, output_clamped).

Definition reset (self : t) : t := with_state self 0 0 0 0 0 0.

Definition get_components (self : t) : Qc * Qc * Qc :=
  (p_term self, i_term self, d_term self).

Definition set_output_limits (self : t) (output_min output_max : Qc) : t :=
  {| kp := kp self; ti := ti self; td := td self;
     output_min := output_min; output_max := output_max;
     integral := integral self; prev_error := prev_error self;
     prev_derivative := prev_derivative self;
     p_term := p_term self; i_term := i_term self;
     d_term := d_term self |}.

End PIDController.

(** ** numpy *)

Module Np.

(** [np.arange(start, stop, step)] on floats:
    [ceil((stop - start) / step)] points [start + i * step]. *)
Definition arange (start stop step : Qc) : outcome (list Qc) :=
  let* len := Py.div (stop - start) step in
  let n := Z.to_nat (Qceiling len) in
  Ok (fmap (fun i : nat => start + Qc_of_Z (Z.of_nat i) * step) (seq 0 n)).

(** [np.zeros(n)] *)
Definition zeros (n : Z) : outcome (list Qc) :=
  if decide (n < 0)%Z then Raise ValueError
  else Ok (replicate (Z.to_nat n) 0).

Definition zeros_like (a : list Qc) : list Qc := replicate (length a) 0.

(** [np.maximum(a, b)], element by element. *)
Definition maximum (a b : list Qc) : list Qc := zip_with Py.max a b.

(** [a * b], element by element; a one-element array is broadcast. *)
Definition mul (a b : list Qc) : outcome (list Qc) :=
  if decide (length a = length b) then Ok (zip_with Qcmult a b)
  else match a, b with
       | [x], _ => Ok (fmap (Qcmult x) b)
       | _, [y] => Ok (fmap (fun x => x * y) a)
       | _, _ => Raise ValueError
       end.

Definition sum (a : list Qc) : Qc := Py.sum a.

(** [x / y] on numpy scalars: no exception, a result that is not a
    number when the divisor is zero. *)
Definition div (x y : Qc) : outcome Qc :=
  if decide (y = 0) then Raise Undefined else Ok (x / y).

(** [arr[i] = v] *)
Definition setitem (arr : list Qc) (i : nat) (v : Qc)
  : outcome (list Qc) :=
  if decide (i < length arr)%nat then Ok (<[i := v]> arr)
  else Raise IndexError.

(** [arr[i]]: a negative [i] counts from the end. *)
Definition getitem (arr : list Qc) (i : Z) : outcome Qc :=
  let j := if decide (i < 0)%Z then (i + Z.of_nat (length arr))%Z else i in
  if decide (j < 0)%Z then Raise IndexError
  else match arr !! Z.to_nat j with
       | Some v => Ok v
       | None => Raise IndexError
       end.

(** [arr[indices]] for an integer array [indices]. *)
Fixpoint take_indices (arr : list Qc) (indices : list Z)
  : outcome (list Qc) :=
  match indices with
  | [] => Ok []
  | i :: rest =>
      let* v := getitem arr i in
      let* vs := take_indices arr rest in
      Ok (v :: vs)
  end.

(** [np.linspace(start, stop, num, dtype=int)]: [num] evenly spaced
    samples [start + i * step] with [step = (stop - start) / (num - 1)],
    the last one set to [stop], each truncated to an integer. *)
Definition linspace_int (start stop : Qc) (num : nat) : list Z :=
  let div := Qc_of_Z (Z.of_nat num - 1) in
  let delta := stop - start in
  let y :=
    if decide (0 < div) then
      let step := delta / div in
      fmap (fun i : nat => Qc_of_Z (Z.of_nat i) * step + start) (seq 0 num)
    else
      fmap (fun i : nat => Qc_of_Z (Z.of_nat i) * delta + start)
          (seq 0 num) in
  let y :=
    if decide (1 < num)%nat then <[pred num := stop]> y else y in
  fmap Py.int y.

End Np.


(** ** fuzzy_controller.py *)

Module FuzzyController.

(** Keys of the error and output dictionaries:
    ["NB"], ["NS"], ["Z"], ["PS"], ["PB"]. *)
Inductive label : Set := NB | NS | Ze | PS | PB.

(** Keys of the change-of-error dictionary: ["N"], ["Z"], ["P"]. *)
Inductive ce_label : Set := Neg | Zero | Pos.

#[global] Instance label_eq_dec : EqDecision label.
Proof. solve_decision. Defined.

#[global] Instance ce_label_eq_dec : EqDecision ce_label.
Proof. solve_decision. Defined.

Record t : Type := mk {
  output_min : Qc;
  output_max : Qc;
  u_universe : list Qc;
  prev_error : Qc
}.

#[global] Instance fuzzy_eq_dec : EqDecision t.
Proof. solve_decision. Defined.

(** [__init__] *)
Definition init (output_min output_max
                 universe_min universe_max universe_step : Qc)
  : outcome t :=
  let* u := Np.arange universe_min universe_max universe_step in
  Ok {| output_min := output_min; output_max := output_max;
        u_universe := u; prev_error := 0 |}.

(** The universe of the default arguments: 200 points from -1 by 0.01. *)
Definition default_universe : list Qc :=
  fmap (fun i : nat => real (-1) + Qc_of_Z (Z.of_nat i) * real 0.01)
      (seq 0 200).

Definition default : t :=
  {| output_min := real (-150); output_max := real 250;
     u_universe := default_universe; prev_error := 0 |}.

Definition reset (self : t) : t :=
  {| output_min := output_min self; output_max := output_max self;
     u_universe := u_universe self; prev_error := 0 |}.

Definition get_components (self : t) : Qc * Qc * Qc := (0, 0, 0).

Definition trapmf (x a b c d : Qc) : outcome Qc :=
  if decide (x <= a \/ d <= x) then Ok 0
  else if decide (b <= x /\ x <= c) then Ok 1
  else if decide (a < x /\ x < b) then Py.div (x - a) (b - a)
  else Py.div (d - x) (d - c).

Definition fuzzify_error (e : Qc) : outcome (label -> Qc) :=
  let* nb := trapmf e (real (-100)) (real (-100)) (real (-60)) (real (-40)) in
  let* ns := trapmf e (real (-60)) (real (-30)) (real (-15)) (real 0) in
  let* z := trapmf e (real (-10)) (real (-2)) (real 2) (real 10) in
  let* ps := trapmf e (real 0) (real 15) (real 30) (real 60) in
  let* pb := trapmf e (real 40) (real 60) (real 100) (real 100) in
  Ok (fun l => match l with
               | NB => nb | NS => ns | Ze => z | PS => ps | PB => pb
               end).

Definition fuzzify_ce (ce : Qc) : outcome (ce_label -> Qc) :=
  let* n := trapmf ce (real (-100)) (real (-80)) (real (-40)) (real 0) in
  let* z := trapmf ce (real (-10)) (real (-1)) (real 1) (real 10) in
  let* p := trapmf ce (real 0) (real 40) (real 80) (real 100) in
  Ok (fun l => match l with Neg => n | Zero => z | Pos => p end).

Definition output_sets (u : Qc) : outcome (label -> Qc) :=
  let* nb := trapmf u (real (-1)) (real (-1)) (real (-0.8)) (real (-0.5)) in
  let* ns := trapmf u (real (-0.8)) (real (-0.5)) (real (-0.2)) (real 0) in
  let* z :=
    trapmf u (real (-0.11)) (real (-0.01)) (real 0.01) (real 0.11) in
  let* ps := trapmf u (real 0) (real 0.2) (real 0.5) (real 0.8) in
  let* pb := trapmf u (real 0.5) (real 0.8) (real 1) (real 1) in
  Ok (fun l => match l with
               | NB => nb | NS => ns | Ze => z | PS => ps | PB => pb
               end).

Definition rules : list (label * ce_label * label) :=
  [ (PB, Pos, PB); (PB, Zero, PB); (PB, Neg, PS);
    (PS, Pos, PB); (PS, Zero, PS); (PS, Neg, Ze);
    (Ze, Pos, PS); (Ze, Zero, Ze); (Ze, Neg, NS);
    (NS, Pos, Ze); (NS, Zero, NS); (NS, Neg, NB);
    (NB, Pos, NS); (NB, Zero, NB); (NB, Neg, NB) ].

(** The [for] loop of [infer] over the rules still to visit. *)
Fixpoint infer_loop (self : t) (e_sets : label -> Qc)
    (ce_sets : ce_label -> Qc) (todo : list (label * ce_label * label))
    (aggregated : list Qc) : outcome (list Qc) :=
  match todo with
  | [] => Ok aggregated
  | (e_label, ce_label, u_label) :: todo =>
      let activation := Py.min (e_sets e_label) (ce_sets ce_label) in
      if decide (activation = 0)
      then infer_loop self e_sets ce_sets todo aggregated
      else
        let* u_mf :=
          Py.for_each
            (fun u => let* o := output_sets u in
                      Ok (Py.min activation (o u_label)))
            (u_universe self) in
        infer_loop self e_sets ce_sets todo (Np.maximum aggregated u_mf)
  end.

Definition infer (self : t) (e_sets : label -> Qc)
    (ce_sets : ce_label -> Qc) : outcome (list Qc) :=
  let aggregated := Np.zeros_like (u_universe self) in
  infer_loop self e_sets ce_sets rules aggregated.

Definition defuzzify (self : t) (aggregated : list Qc) : outcome Qc :=
  if decide (Np.sum aggregated = 0) then Ok 0
  else
    let* weighted := Np.mul (u_universe self) aggregated in
    Np.div (Np.sum weighted) (Np.sum aggregated).

Definition update (self : t) (setpoint measurement dt : Qc)
  : outcome (t * Qc) :=
  let error := setpoint - measurement in
  let* ce :=
    if decide (0 < dt) then Py.div (error - prev_error self) dt
    else Ok 0 in
  let* e_sets := fuzzify_error error in
  let* ce_sets := fuzzify_ce ce in
  let* aggregated := infer self e_sets ce_sets in
  let* u_norm := defuzzify self aggregated in
  let u := u_norm * output_max self in
  let u := Py.max (output_min self) (Py.min u (output_max self)) in
  Ok ({| output_min := output_min self; output_max := output_max self;
         u_universe := u_universe self; prev_error := error |}, u).

End FuzzyController.


(** ** config.py *)

Module Config.

(** PID controller parameters. *)
Definition PID_KP : Qc := real 80.
Definition PID_TI : Qc := real 1.
Definition PID_TD : Qc := real 20.

(** Standard PCR protocol: (temperature, duration) of each stage. *)
Definition PCR_INITIAL_DENATURATION : Qc * Qc := (real 95, real 180).
Definition PCR_CYCLES : Z := 35.
Definition PCR_DENATURATION : Qc * Qc := (real 95, real 30).
Definition PCR_ANNEALING : Qc * Qc := (real 58, real 30).
Definition PCR_EXTENSION : Qc * Qc := (real 72, real 60).
Definition PCR_FINAL_EXTENSION : Qc * Qc := (real 72, real 300).
Definition PCR_HOLD : Qc * Qc := (real 10, real 60).

(** Simulation parameters. *)
Definition TIME_STEP : Qc := real 0.1.
Definition DOWNSAMPLE_THRESHOLD : Z := 5000.

End Config.

(** ** pcr_simulator.py *)

(** What the simulator asks of its controller: [reset()],
    [update(setpoint, measurement, dt)] and [get_components()]. *)
Class Controller (C : Type) : Type := {
  reset : C -> C;
  update : C -> Qc -> Qc -> Qc -> outcome (C * Qc);
  get_components : C -> Qc * Qc * Qc
}.

#[global] Instance PID_Controller : Controller PIDController.t := {|
  reset := PIDController.reset;
  update := PIDController.update;
  get_components := PIDController.get_components
|}.

#[global] Instance Fuzzy_Controller : Controller FuzzyController.t := {|
  reset := FuzzyController.reset;
  update := FuzzyController.update;
  get_components := FuzzyController.get_components
|}.

Module PCRSimulator.

(** The arguments shared by [_build_protocol] and [simulate]. *)
Record args : Type := mk_args {
  initial_temp : Qc;
  initial_duration : Qc;
  denat_temp : Qc;
  denat_duration : Qc;
  anneal_temp : Qc;
  anneal_duration : Qc;
  extension_temp : Qc;
  extension_duration : Qc;
  num_cycles : Z;
  final_temp : Qc;
  final_duration : Qc;
  hold_temp : Qc;
  hold_duration : Qc
}.

(** The eight arrays of a run, and the dictionary [simulate] returns. *)
Record series : Type := mk_series {
  time : list Qc;
  temperature : list Qc;
  setpoint : list Qc;
  control : list Qc;
  error : list Qc;
  p_term : list Qc;
  i_term : list Qc;
  d_term : list Qc
}.

#[global] Instance series_eq_dec : EqDecision series.
Proof. solve_decision. Defined.

(** The keys of the returned dictionary. *)
Inductive key : Set :=
| Time | Temperature | Setpoint | Control | Error | P_term | I_term | D_term.

Definition get (k : key) (r : series) : list Qc :=
  match k with
  | Time => time r
  | Temperature => temperature r
  | Setpoint => setpoint r
  | Control => control r
  | Error => error r
  | P_term => p_term r
  | I_term => i_term r
  | D_term => d_term r
  end.

(** range(n) as the list of its [max 0 n] iterations. *)
Definition range (n : Z) : list nat := seq 0 (Z.to_nat n).

Definition _build_protocol (a : args) : list (Qc * Qc) :=
  let protocol := [] in
  let protocol := protocol ++ [(initial_temp a, initial_duration a)] in
  let protocol :=
    foldl (fun protocol _ =>
             let protocol :=
               protocol ++ [(denat_temp a, denat_duration a)] in
             let protocol :=
               protocol ++ [(anneal_temp a, anneal_duration a)] in
             let protocol :=
               protocol ++ [(extension_temp a, extension_duration a)] in
             protocol)
          protocol (range (num_cycles a)) in
  let protocol := protocol ++ [(final_temp a, final_duration a)] in
  let protocol := protocol ++ [(hold_temp a, hold_duration a)] in
  protocol.

Definition _downsample (data : list Qc) (max_points : nat)
  : outcome (list Qc) :=
  if decide (length data <= max_points)%nat then Ok data
  else
    let indices :=
      Np.linspace_int 0 (Qc_of_Z (Z.of_nat (length data) - 1))
                      max_points in
    Np.take_indices data indices.

Section WithController.

Context {C : Type} `{Controller C}.

Record t : Type := mk {
  thermal_model : ThermalModel.t;
  pid_controller : C;
  time_step : Qc
}.

(** The variables of the stepping loop. *)
Record loop_state : Type := mk_loop {
  sim : t;
  arrays : series;
  current_time : Qc;
  step : nat
}.

(** One pass through the body of the [while] loop. *)
Definition loop_body (stage_temp : Qc) (st : loop_state)
  : outcome loop_state :=
  let self := sim st in
  let current_temp := ThermalModel.temperature (thermal_model self) in
  let* (ctrl, control_output) :=
    update (pid_controller self) stage_temp current_temp
           (time_step self) in
  let* (plant, new_temp) :=
    ThermalModel.update (thermal_model self) control_output
                        (time_step self) in
  let a := arrays st in
  let* time_array := Np.setitem (time a) (step st) (current_time st) in
  let* temp_array := Np.setitem (temperature a) (step st) current_temp in
  let* setpoint_array := Np.setitem (setpoint a) (step st) stage_temp in
  let* control_array :=
    Np.setitem (control a) (step st) control_output in
  let* error_array :=
    Np.setitem (error a) (step st) (stage_temp - current_temp) in
  let '(p, i, d) := get_components ctrl in
  let* p_array := Np.setitem (p_term a) (step st) p in
  let* i_array := Np.setitem (i_term a) (step st) i in
  let* d_array := Np.setitem (d_term a) (step st) d in
  Ok {| sim := {| thermal_model := plant; pid_controller := ctrl;
                  time_step := time_step self |};
        arrays := {| time := time_array; temperature := temp_array;
                     setpoint := setpoint_array;
                     control := control_array; error := error_array;
                     p_term := p_array; i_term := i_array;
                     d_term := d_array |};
        current_time := current_time st + time_step self;
        step := S (step st) |}.

(** [while current_time < stage_end_time and step < num_steps],
    given [fuel] iterations. *)
Fixpoint stage_loop (fuel : nat) (num_steps : Z)
    (stage_temp stage_end_time : Qc) (st : loop_state)
  : outcome loop_state :=
  if decide (current_time st < stage_end_time
             /\ (Z.of_nat (step st) < num_steps)%Z)
  then
    match fuel with
    | O => OutOfFuel
    | S fuel =>
        let* st := loop_body stage_temp st in
        stage_loop fuel num_steps stage_temp stage_end_time st
    end
  else Ok st.

(** [for stage_temp, stage_duration in protocol] *)
Fixpoint run_stages (fuel : nat) (num_steps : Z)
    (protocol : list (Qc * Qc)) (st : loop_state)
  : outcome loop_state :=
  match protocol with
  | [] => Ok st
  | (stage_temp, stage_duration) :: protocol =>
      let stage_end_time := current_time st + stage_duration in
      let* st := stage_loop fuel num_steps stage_temp stage_end_time st in
      run_stages fuel num_steps protocol st
  end.

(** The loop variables when the first stage starts: plant and
    controller reset, time and step at zero, every array [zeros]. *)
Definition start (self : t) (zeros : list Qc) : loop_state :=
  {| sim :=
       {| thermal_model := ThermalModel.reset (thermal_model self) None;
          pid_controller := reset (pid_controller self);
          time_step := time_step self |};
     arrays := {| time := zeros; temperature := zeros;
                  setpoint := zeros; control := zeros;
                  error := zeros; p_term := zeros;
                  i_term := zeros; d_term := zeros |};
     current_time := 0;
     step := O |}.

(** [array[:step]] for each of the eight arrays. *)
Definition trim (st : loop_state) : series :=
  let a := arrays st in
  let n := step st in
  {| time := take n (time a); temperature := take n (temperature a);
     setpoint := take n (setpoint a); control := take n (control a);
     error := take n (error a); p_term := take n (p_term a);
     i_term := take n (i_term a); d_term := take n (d_term a) |}.

(** [int(total_time / self.time_step) + 1] *)
Definition num_steps_of (self : t) (a : args) : outcome Z :=
  let protocol := _build_protocol a in
  let total_time := Py.sum (snd <$> protocol) in
  let* ratio := Py.div total_time (time_step self) in
  Ok (Py.int ratio + 1)%Z.

(** [simulate] up to and including the trimming of the arrays: the
    simulator after the run, and the raw series.  Every stage loop
    gets [num_steps] iterations, which the guard [step < num_steps]
    never lets it exceed. *)
Definition simulate_raw (self : t) (a : args) : outcome (t * series) :=
  let protocol := _build_protocol a in
  let* num_steps := num_steps_of self a in
  let* zeros := Np.zeros num_steps in
  let st := start self zeros in
  let* st := run_stages (Z.to_nat num_steps) num_steps protocol st in
  Ok (sim st, trim st).

(** [iterations n st st']: [n] passes through the loop body lead
    from [st] to [st']. *)
Inductive iterations : nat -> loop_state -> loop_state -> Prop :=
| iterations_O (st : loop_state) : iterations O st st
| iterations_S (n : nat) (stage_temp : Qc) (st st1 st2 : loop_state) :
    loop_body stage_temp st = Ok st1 ->
    iterations n st1 st2 ->
    iterations (S n) st st2.

(** What holds of the loop variables between two passes, for arrays
    of [N] cells, time step [dt] and the plant [plant0] the run
    started from. *)
Record loop_inv (N : nat) (dt : Qc) (plant0 : ThermalModel.t)
    (st : loop_state) : Prop := {
  inv_len : forall k, length (get k (arrays st)) = N;
  inv_step : (step st <= N)%nat;
  inv_dt : time_step (sim st) = dt;
  inv_now : current_time st = Qc_of_Z (Z.of_nat (step st)) * dt;
  inv_plant :
    thermal_model (sim st)
    = ThermalModel.set_temperature plant0
        (ThermalModel.temperature (thermal_model (sim st)));
  inv_time : forall k, (k < step st)%nat ->
    time (arrays st) !! k = Some (Qc_of_Z (Z.of_nat k) * dt);
  inv_error : forall k, (k < step st)%nat ->
    exists T sp,
      temperature (arrays st) !! k = Some T
      /\ setpoint (arrays st) !! k = Some sp
      /\ error (arrays st) !! k = Some (sp - T);
  inv_chain : forall k, (k < step st)%nat ->
    exists T u T',
      temperature (arrays st) !! k = Some T
      /\ control (arrays st) !! k = Some u
      /\ ThermalModel.update (ThermalModel.set_temperature plant0 T) u dt
         = Ok (ThermalModel.set_temperature plant0 T', T')
      /\ (if decide (S k < step st)%nat
          then temperature (arrays st) !! S k = Some T'
          else ThermalModel.temperature (thermal_model (sim st)) = T');
  inv_first :
    if decide (0 < step st)%nat
    then temperature (arrays st) !! O
         = Some (ThermalModel.temperature plant0)
    else ThermalModel.temperature (thermal_model (sim st))
         = ThermalModel.temperature plant0
}.

(** [stage_passes num_steps sp stage_end n st st']: the [while] loop
    of one stage takes [n] passes from [st] to [st'], each with the
    guard true, and stops with the guard false. *)
Inductive stage_passes (num_steps : Z) (stage_temp stage_end_time : Qc)
  : nat -> loop_state -> loop_state -> Prop :=
| stage_done (st : loop_state) :
    ~ (current_time st < stage_end_time
       /\ (Z.of_nat (step st) < num_steps)%Z) ->
    stage_passes num_steps stage_temp stage_end_time O st st
| stage_pass (n : nat) (st st1 st2 : loop_state) :
    current_time st < stage_end_time
    /\ (Z.of_nat (step st) < num_steps)%Z ->
    loop_body stage_temp st = Ok st1 ->
    stage_passes num_steps stage_temp stage_end_time n st1 st2 ->
    stage_passes num_steps stage_temp stage_end_time (S n) st st2.

(** [protocol_passes num_steps protocol n st st']: the stages of
    [protocol], each ending [stage_duration] after the time it starts
    at, take [n] passes in all from [st] to [st']. *)
Inductive protocol_passes (num_steps : Z)
  : list (Qc * Qc) -> nat -> loop_state -> loop_state -> Prop :=
| protocol_done (st : loop_state) : protocol_passes num_steps [] O st st
| protocol_stage (stage_temp stage_duration : Qc)
    (protocol : list (Qc * Qc)) (n m : nat)
    (st st1 st2 : loop_state) :
    stage_passes num_steps stage_temp (current_time st + stage_duration)
                 n st st1 ->
    protocol_passes num_steps protocol m st1 st2 ->
    protocol_passes num_steps ((stage_temp, stage_duration) :: protocol)
                    (n + m) st st2.

(** The downsampling pass at the end of [simulate]. *)
Definition downsample_all (r : series) : outcome series :=
  if decide (Config.DOWNSAMPLE_THRESHOLD < Z.of_nat (length (time r)))%Z
  then
    let m := Z.to_nat Config.DOWNSAMPLE_THRESHOLD in
    let* time_array := _downsample (time r) m in
    let* temp_array := _downsample (temperature r) m in
    let* setpoint_array := _downsample (setpoint r) m in
    let* control_array := _downsample (control r) m in
    let* error_array := _downsample (error r) m in
    let* p_array := _downsample (p_term r) m in
    let* i_array := _downsample (i_term r) m in
    let* d_array := _downsample (d_term r) m in
    Ok {| time := time_array; temperature := temp_array;
          setpoint := setpoint_array; control := control_array;
          error := error_array; p_term := p_array;
          i_term := i_array; d_term := d_array |}
  else Ok r.

Definition simulate (self : t) (a : args) : outcome (t * series) :=
  let* (self, raw) := simulate_raw self a in
  let* r := downsample_all raw in
  Ok (self, r).

End WithController.

Arguments t C : clear implicits.
Arguments loop_state C : clear implicits.
Arguments iterations {C _} n st st'.
Arguments stage_passes {C _} num_steps stage_temp stage_end_time n st st'.
Arguments protocol_passes {C _} num_steps protocol n st st'.

End PCRSimulator.


(** ** Runs and indices the properties speak of *)

Module Runs.
Import PCRSimulator.

(** [PCRSimulator(ThermalModel(), PIDController())]: every constructor
    argument at its default. *)
Definition default_sim : PCRSimulator.t PIDController.t :=
  {| thermal_model := ThermalModel.default;
     pid_controller := PIDController.default;
     time_step := Config.TIME_STEP |}.

(** The standard protocol of [config.py]. *)
Definition default_args : args :=
  {| initial_temp := Config.PCR_INITIAL_DENATURATION.1;
     initial_duration := Config.PCR_INITIAL_DENATURATION.2;
     denat_temp := Config.PCR_DENATURATION.1;
     denat_duration := Config.PCR_DENATURATION.2;
     anneal_temp := Config.PCR_ANNEALING.1;
     anneal_duration := Config.PCR_ANNEALING.2;
     extension_temp := Config.PCR_EXTENSION.1;
     extension_duration := Config.PCR_EXTENSION.2;
     num_cycles := Config.PCR_CYCLES;
     final_temp := Config.PCR_FINAL_EXTENSION.1;
     final_duration := Config.PCR_FINAL_EXTENSION.2;
     hold_temp := Config.PCR_HOLD.1;
     hold_duration := Config.PCR_HOLD.2 |}.

(** A short protocol without cycles, stepped by one second. *)
Definition short_sim : PCRSimulator.t PIDController.t :=
  {| thermal_model := ThermalModel.default;
     pid_controller := PIDController.default;
     time_step := real 1 |}.

Definition short_args : args :=
  {| initial_temp := real 95; initial_duration := real 2;
     denat_temp := real 95; denat_duration := real 30;
     anneal_temp := real 58; anneal_duration := real 30;
     extension_temp := real 72; extension_duration := real 60;
     num_cycles := 0;
     final_temp := real 72; final_duration := real 1;
     hold_temp := real 10; hold_duration := real 1 |}.

(** The raw index behind downsampled index [k] of a series of length
    [L]: [floor(k * (L - 1) / 4999)]. *)
Definition floor_index (L k : nat) : nat :=
  Z.to_nat (Py.floor (Qc_of_Z (Z.of_nat k * (Z.of_nat L - 1))
                      / Qc_of_Z (Config.DOWNSAMPLE_THRESHOLD - 1))).

(** The raw index the specification names:
    [round(k * (L - 1) / 4999)]. *)
Definition round_index (L k : nat) : nat :=
  Z.to_nat (Py.round (Qc_of_Z (Z.of_nat k * (Z.of_nat L - 1))
                      / Qc_of_Z (Config.DOWNSAMPLE_THRESHOLD - 1))).

(** The number of whole time steps in each stage of a protocol. *)
Definition stage_steps (dt : Qc) (protocol : list (Qc * Qc))
  : list (Qc * nat) :=
  (fun stage : Qc * Qc =>
     (stage.1, Z.to_nat (Py.floor (stage.2 / dt)))) <$> protocol.

(** The protocol whose stages last the given numbers of time steps. *)
Definition of_steps (dt : Qc) (stages : list (Qc * nat))
  : list (Qc * Qc) :=
  (fun stage : Qc * nat =>
     (stage.1, Qc_of_Z (Z.of_nat stage.2) * dt)) <$> stages.

(** A controller with zero gain and the default limits, in the middle
    of a run. *)
Definition zero_gain_example : PIDController.t :=
  PIDController.with_state (PIDController.init 0 (real 1) (real 20) (real (-150)) (real 250))
             (real 12) (real 3) (real 0.5) (real 3) (real 12) (real 10).

(** The state a default controller is left in by an update whose error
    is 200. *)
Definition after_error_200 : FuzzyController.t :=
  {| FuzzyController.output_min := real (-150);
     FuzzyController.output_max := real 250;
     FuzzyController.u_universe := FuzzyController.default_universe;
     FuzzyController.prev_error := real 200 |}.

(** The three stages of one cycle. *)
Definition cycle (a : args) : list (Qc * Qc) :=
  [ (denat_temp a, denat_duration a);
    (anneal_temp a, anneal_duration a);
    (extension_temp a, extension_duration a) ].

(** Two cycles of 95 degrees for 30 s, 58 degrees for 30 s and
    72 degrees for 60 s. *)
Definition two_cycles : args :=
  {| initial_temp := real 95; initial_duration := real 180;
     denat_temp := real 95; denat_duration := real 30;
     anneal_temp := real 58; anneal_duration := real 30;
     extension_temp := real 72; extension_duration := real 60;
     num_cycles := 2;
     final_temp := real 72; final_duration := real 300;
     hold_temp := real 10; hold_duration := real 60 |}.

End Runs.


(** ** Configuration and state *)

Module Setup.

(** Two plants that differ at most in their temperature. *)
Definition same_plant (p1 p2 : ThermalModel.t) : Prop :=
  exists T, p1 = ThermalModel.set_temperature p2 T.

(** Two PID controllers with the same gains and limits. *)
Definition pid_same_config (c1 c2 : PIDController.t) : Prop :=
  PIDController.kp c1 = PIDController.kp c2
  /\ PIDController.ti c1 = PIDController.ti c2
  /\ PIDController.td c1 = PIDController.td c2
  /\ PIDController.output_min c1 = PIDController.output_min c2
  /\ PIDController.output_max c1 = PIDController.output_max c2.

(** Two fuzzy controllers with the same limits and universe. *)
Definition fuzzy_same_config (c1 c2 : FuzzyController.t) : Prop :=
  FuzzyController.output_min c1 = FuzzyController.output_min c2
  /\ FuzzyController.output_max c1 = FuzzyController.output_max c2
  /\ FuzzyController.u_universe c1 = FuzzyController.u_universe c2.

(** Two simulators that differ at most in the state of their plant
    and of their controller. *)
Definition same_setup {C : Type} (same_config : C -> C -> Prop)
    (s1 s2 : PCRSimulator.t C) : Prop :=
  same_plant (PCRSimulator.thermal_model s1)
             (PCRSimulator.thermal_model s2)
  /\ same_config (PCRSimulator.pid_controller s1)
                 (PCRSimulator.pid_controller s2)
  /\ PCRSimulator.time_step s1 = PCRSimulator.time_step s2.

End Setup.

(** ** What the passes of the stepping loop record *)

Module Plan.

(** One block per stage: the temperature of stage [i], [counts[i]]
    times. *)
Definition blocks (counts : list nat) (temps : list Qc) : list Qc :=
  concat (zip_with replicate counts temps).

(** [rec_ok] holds of what each of the first [n] passes recorded:
    setpoint, temperature, control output and the three components. *)
Definition samples_ok (rec_ok : Qc -> Qc -> Qc -> Qc * Qc * Qc -> Prop)
    (n : nat) (r : PCRSimulator.series) : Prop :=
  forall k, (k < n)%nat ->
    exists sp T u p i d,
      PCRSimulator.setpoint r !! k = Some sp
      /\ PCRSimulator.temperature r !! k = Some T
      /\ PCRSimulator.control r !! k = Some u
      /\ PCRSimulator.p_term r !! k = Some p
      /\ PCRSimulator.i_term r !! k = Some i
      /\ PCRSimulator.d_term r !! k = Some d
      /\ rec_ok sp T u (p, i, d).

End Plan.

(** ** Example objects *)

Module Cases.

(** A fuzzy controller whose lower limit is four times its upper
    limit in size. *)
Definition wide_fuzzy : FuzzyController.t :=
  {| FuzzyController.output_min := real (-1000);
     FuzzyController.output_max := real 250;
     FuzzyController.u_universe := FuzzyController.default_universe;
     FuzzyController.prev_error := 0 |}.

(** The standard protocol with a negative number of cycles. *)
Definition negative_cycles : PCRSimulator.args :=
  {| PCRSimulator.initial_temp := real 95;
     PCRSimulator.initial_duration := real 180;
     PCRSimulator.denat_temp := real 95;
     PCRSimulator.denat_duration := real 30;
     PCRSimulator.anneal_temp := real 58;
     PCRSimulator.anneal_duration := real 30;
     PCRSimulator.extension_temp := real 72;
     PCRSimulator.extension_duration := real 60;
     PCRSimulator.num_cycles := (-3);
     PCRSimulator.final_temp := real 72;
     PCRSimulator.final_duration := real 300;
     PCRSimulator.hold_temp := real 10;
     PCRSimulator.hold_duration := real 60 |}.

(** The default simulator with a time step of zero, and with a
    negative one. *)
Definition stopped_clock : PCRSimulator.t PIDController.t :=
  {| PCRSimulator.thermal_model := ThermalModel.default;
     PCRSimulator.pid_controller := PIDController.default;
     PCRSimulator.time_step := 0 |}.

Definition backward_clock : PCRSimulator.t PIDController.t :=
  {| PCRSimulator.thermal_model := ThermalModel.default;
     PCRSimulator.pid_controller := PIDController.default;
     PCRSimulator.time_step := real (-0.1) |}.

(** [PCRSimulator(ThermalModel(), FuzzyController())]. *)
Definition fuzzy_sim : PCRSimulator.t FuzzyController.t :=
  {| PCRSimulator.thermal_model := ThermalModel.default;
     PCRSimulator.pid_controller := FuzzyController.default;
     PCRSimulator.time_step := Config.TIME_STEP |}.

(** Three stages of one and a half seconds, stepped by one second. *)
Definition uneven_sim : PCRSimulator.t PIDController.t :=
  {| PCRSimulator.thermal_model := ThermalModel.default;
     PCRSimulator.pid_controller := PIDController.default;
     PCRSimulator.time_step := real 1 |}.

Definition uneven_args : PCRSimulator.args :=
  {| PCRSimulator.initial_temp := real 95;
     PCRSimulator.initial_duration := real 1.5;
     PCRSimulator.denat_temp := real 95;
     PCRSimulator.denat_duration := real 30;
     PCRSimulator.anneal_temp := real 58;
     PCRSimulator.anneal_duration := real 30;
     PCRSimulator.extension_temp := real 72;
     PCRSimulator.extension_duration := real 60;
     PCRSimulator.num_cycles := 0;
     PCRSimulator.final_temp := real 72;
     PCRSimulator.final_duration := real 1.5;
     PCRSimulator.hold_temp := real 10;
     PCRSimulator.hold_duration := real 1.5 |}.

End Cases.

(** ** The same code on binary64 numbers

    Python's [float] is the IEEE 754 binary64 format, and so is the
    kernel's [float]: [+], [-], [*] and [/] round to nearest, ties to
    even, comparisons are the IEEE ones, and a decimal literal stands
    for the nearest binary64 number.  The modules below are the
    arithmetic of [thermal_model.py], [pid_controller.py] and of the
    stepping loop of [pcr_simulator.py] once more, rounding included. *)

Module Py64.

Inductive exn : Set :=
| ZeroDivisionError
| ValueError
| OverflowError
| IndexError.

Inductive outcome (A : Type) : Type :=
| Ok (a : A)
| Raise (e : exn)
| OutOfFuel.
Arguments Ok {A} a.
Arguments Raise {A} e.
Arguments OutOfFuel {A}.

Definition bind {A B : Type} (m : outcome A) (k : A -> outcome B)
  : outcome B :=
  match m with
  | Ok a => k a
  | Raise e => Raise e
  | OutOfFuel => OutOfFuel
  end.

(** [max(a, b)]: the first argument unless the second is larger. *)
Definition max (a b : float) : float := if (a <? b)%float then b else a.

(** [min(a, b)]: the first argument unless the second is smaller. *)
Definition min (a b : float) : float := if (b <? a)%float then b else a.

(** [x / y]: a divisor that compares equal to zero raises. *)
Definition div (x y : float) : outcome float :=
  if (y =? 0)%float then Raise ZeroDivisionError else Ok (x / y)%float.

(** [int(x)]: truncation towards zero; an infinity or a NaN raises. *)
Definition int (x : float) : outcome Z :=
  match Prim2SF x with
  | S754_zero _ => Ok 0%Z
  | S754_infinity _ => Raise OverflowError
  | S754_nan => Raise ValueError
  | S754_finite s m e =>
      let a := Z.shiftl (Z.pos m) e in
      Ok (if s then (- a)%Z else a)
  end.

(** [sum(xs)]: left to right, starting from 0, each addition
    rounded.  (From version 3.12 on CPython carries a correction term
    along; the two sums agree when no addition rounds, as with
    durations that are whole numbers.) *)
Definition sum (xs : list float) : float := foldl PrimFloat.add 0%float xs.

(** [np.zeros(n)] *)
Definition zeros (n : Z) : outcome (list float) :=
  if decide (n < 0)%Z then Raise ValueError
  else Ok (replicate (Z.to_nat n) 0%float).

(** [arr[i] = v] *)
Definition setitem (arr : list float) (i : nat) (v : float)
  : outcome (list float) :=
  if decide (i < length arr)%nat then Ok (<[i := v]> arr)
  else Raise IndexError.

End Py64.

Notation "'let+' x ':=' m 'in' k" :=
  (Py64.bind m (fun x => k))
  (at level 10, x pattern, m at level 100, k at level 200).

Module ThermalModel64.
Import Py64.
Local Open Scope float_scope.

Record t : Type := mk {
  heat_capacity : float;
  heating_power : float;
  cooling_power : float;
  heat_loss_coef : float;
  ambient_temp : float;
  sample_volume : float;
  sample_density : float;
  sample_specific_heat : float;
  temperature : float;
  sample_heat_capacity : float;
  total_heat_capacity : float
}.

(** [__init__] *)
Definition init (heat_capacity heating_power cooling_power heat_loss_coef
                 ambient_temp sample_volume sample_density
                 sample_specific_heat initial_temp : float) : t :=
  let sample_mass := sample_volume * sample_density in
  {| heat_capacity := heat_capacity;
     heating_power := heating_power;
     cooling_power := cooling_power;
     heat_loss_coef := heat_loss_coef;
     ambient_temp := ambient_temp;
     sample_volume := sample_volume;
     sample_density := sample_density;
     sample_specific_heat := sample_specific_heat;
     temperature := initial_temp;
     sample_heat_capacity := sample_mass * sample_specific_heat;
     total_heat_capacity := heat_capacity |}.

(** The constructor's default arguments. *)
Definition default : t :=
  init 500 250 150 1.5 22 5e-6 1000 4100 22.

Definition set_temperature (self : t) (v : float) : t :=
  {| heat_capacity := heat_capacity self;
     heating_power := heating_power self;
     cooling_power := cooling_power self;
     heat_loss_coef := heat_loss_coef self;
     ambient_temp := ambient_temp self;
     sample_volume := sample_volume self;
     sample_density := sample_density self;
     sample_specific_heat := sample_specific_heat self;
     temperature := v;
     sample_heat_capacity := sample_heat_capacity self;
     total_heat_capacity := total_heat_capacity self |}.

Definition calculate_heat_flow (self : t) (control_output : float) : float :=
  let applied_power :=
    if 0 <? control_output
    then Py64.min control_output (heating_power self)
    else Py64.max control_output (- cooling_power self) in
  let heat_loss :=
    heat_loss_coef self * (temperature self - ambient_temp self) in
  let net_heat_flow := applied_power - heat_loss in
  net_heat_flow.

Definition get_derivative (self : t) (control_output : float)
  : outcome float :=
  let net_heat_flow := calculate_heat_flow self control_output in
  let+ dT_dt := Py64.div net_heat_flow (total_heat_capacity self) in
  Ok dT_dt.

(** [update]: the model after the step, and the returned temperature. *)
Definition update (self : t) (control_output dt : float)
  : outcome (t * float) :=
  let+ dT_dt := get_derivative self control_output in
  let self := set_temperature self (temperature self + dT_dt * dt) in
  Ok (self, temperature self).

(** [reset(initial_temp=None)] *)
Definition reset (self : t) (initial_temp : option float) : t :=
  let initial_temp :=
    match initial_temp with
    | None => ambient_temp self
    | Some v => v
    end in
  set_temperature self initial_temp.

End ThermalModel64.

Module PIDController64.
Import Py64.
Local Open Scope float_scope.

Record t : Type := mk {
  kp : float;
  ti : float;
  td : float;
  output_min : float;
  output_max : float;
  integral : float;
  prev_error : float;
  prev_derivative : float;
  p_term : float;
  i_term : float;
  d_term : float
}.

(** [__init__] *)
Definition init (kp ti td output_min output_max : float) : t :=
  {| kp := kp; ti := ti; td := td;
     output_min := output_min; output_max := output_max;
     integral := 0; prev_error := 0; prev_derivative := 0;
     p_term := 0; i_term := 0; d_term := 0 |}.

Definition default : t := init 80 1 20 (-150) 250.

(** The internal state is replaced, the configuration kept. *)
Definition with_state (self : t)
    (integral prev_error prev_derivative p_term i_term d_term : float)
  : t :=
  {| kp := kp self; ti := ti self; td := td self;
     output_min := output_min self; output_max := output_max self;
     integral := integral; prev_error := prev_error;
     prev_derivative := prev_derivative;
     p_term := p_term; i_term := i_term; d_term := d_term |}.

(** First half of [update]: error, P, I and D terms.  The state after
    it still has the old [prev_error]. *)
Definition compute_terms (self : t) (setpoint measurement dt : float)
  : outcome t :=
  let error := setpoint - measurement in
  let p_term := error in
  let integral := integral self + error * dt in
  let+ i_term :=
    if 0 <? ti self then Py64.div integral (ti self) else Ok 0 in
  let+ (d_term, prev_derivative) :=
    if 0 <? dt then
      let+ derivative := Py64.div (error - prev_error self) dt in
      let alpha := 0.5 in
      let filtered_derivative :=
        alpha * derivative + (1 - alpha) * prev_derivative self in
      Ok (td self * filtered_derivative, filtered_derivative)
    else Ok (0, prev_derivative self) in
  Ok (with_state self integral (prev_error self) prev_derivative
                 p_term i_term d_term).

(** [output = self.kp * (self.p_term + self.i_term + self.d_term)] *)
Definition raw_output (self : t) : float :=
  kp self * (p_term self + i_term self + d_term self).

(** [max(self.output_min, min(output, self.output_max))] *)
Definition clamp_output (self : t) (output : float) : float :=
  Py64.max (output_min self) (Py64.min output (output_max self)).

(** The guard of the anti-windup branch. *)
Definition saturated (self : t) (output output_clamped : float) : bool :=
  negb (output =? output_clamped) && (0 <? ti self).

(** The body of the anti-windup branch. *)
Definition back_calculate (self : t) (output_clamped : float)
  : outcome t :=
  let+ q := Py64.div output_clamped (kp self) in
  let max_i_term := q - p_term self - d_term self in
  Ok (with_state self (max_i_term * ti self) (prev_error self)
                 (prev_derivative self) (p_term self) max_i_term
                 (d_term self)).

Definition set_prev_error (self : t) (error : float) : t :=
  with_state self (integral self) error (prev_derivative self)
             (p_term self) (i_term self) (d_term self).

(** [update]: the controller after the call, and the returned output. *)
Definition update (self : t) (setpoint measurement dt : float)
  : outcome (t * float) :=
  let error := setpoint - measurement in
  let+ self := compute_terms self setpoint measurement dt in
  let output := raw_output self in
  let output_clamped := clamp_output self output in
  let+ self :=
    if saturated self output output_clamped
    then back_calculate self output_clamped
    else Ok self in
  let self := set_prev_error self error in
  Ok (self, output_clamped).

Definition reset (self : t) : t := with_state self 0 0 0 0 0 0.

Definition get_components (self : t) : float * float * float :=
  (p_term self, i_term self, d_term self).

End PIDController64.

Module PCRSimulator64.
Import Py64.
Local Open Scope float_scope.

(** What the simulator asks of its controller. *)
Class Controller (C : Type) : Type := {
  reset : C -> C;
  update : C -> float -> float -> float -> outcome (C * float);
  get_components : C -> float * float * float
}.

#[global] Instance PID_Controller : Controller PIDController64.t := {|
  reset := PIDController64.reset;
  update := PIDController64.update;
  get_components := PIDController64.get_components
|}.

(** The arguments shared by [_build_protocol] and [simulate]. *)
Record args : Type := mk_args {
  initial_temp : float;
  initial_duration : float;
  denat_temp : float;
  denat_duration : float;
  anneal_temp : float;
  anneal_duration : float;
  extension_temp : float;
  extension_duration : float;
  num_cycles : Z;
  final_temp : float;
  final_duration : float;
  hold_temp : float;
  hold_duration : float
}.

(** The eight arrays of a run. *)
Record series : Type := mk_series {
  time : list float;
  temperature : list float;
  setpoint : list float;
  control : list float;
  error : list float;
  p_term : list float;
  i_term : list float;
  d_term : list float
}.

Definition get (k : PCRSimulator.key) (r : series) : list float :=
  match k with
  | PCRSimulator.Time => time r
  | PCRSimulator.Temperature => temperature r
  | PCRSimulator.Setpoint => setpoint r
  | PCRSimulator.Control => control r
  | PCRSimulator.Error => error r
  | PCRSimulator.P_term => p_term r
  | PCRSimulator.I_term => i_term r
  | PCRSimulator.D_term => d_term r
  end.

Definition _build_protocol (a : args) : list (float * float) :=
  let protocol := [] in
  let protocol := protocol ++ [(initial_temp a, initial_duration a)] in
  let protocol :=
    foldl (fun protocol _ =>
             let protocol :=
               protocol ++ [(denat_temp a, denat_duration a)] in
             let protocol :=
               protocol ++ [(anneal_temp a, anneal_duration a)] in
             let protocol :=
               protocol ++ [(extension_temp a, extension_duration a)] in
             protocol)
          protocol (PCRSimulator.range (num_cycles a)) in
  let protocol := protocol ++ [(final_temp a, final_duration a)] in
  let protocol := protocol ++ [(hold_temp a, hold_duration a)] in
  protocol.

Section WithController.

Context {C : Type} `{Controller C}.

Record t : Type := mk {
  thermal_model : ThermalModel64.t;
  pid_controller : C;
  time_step : float
}.

(** The variables of the stepping loop. *)
Record loop_state : Type := mk_loop {
  sim : t;
  arrays : series;
  current_time : float;
  step : nat
}.

(** One pass through the body of the [while] loop. *)
Definition loop_body (stage_temp : float) (st : loop_state)
  : outcome loop_state :=
  let self := sim st in
  let current_temp := ThermalModel64.temperature (thermal_model self) in
  let+ (ctrl, control_output) :=
    update (pid_controller self) stage_temp current_temp
           (time_step self) in
  let+ (plant, new_temp) :=
    ThermalModel64.update (thermal_model self) control_output
                          (time_step self) in
  let a := arrays st in
  let+ time_array := Py64.setitem (time a) (step st) (current_time st) in
  let+ temp_array := Py64.setitem (temperature a) (step st) current_temp in
  let+ setpoint_array := Py64.setitem (setpoint a) (step st) stage_temp in
  let+ control_array :=
    Py64.setitem (control a) (step st) control_output in
  let+ error_array :=
    Py64.setitem (error a) (step st) (stage_temp - current_temp) in
  let '(p, i, d) := get_components ctrl in
  let+ p_array := Py64.setitem (p_term a) (step st) p in
  let+ i_array := Py64.setitem (i_term a) (step st) i in
  let+ d_array := Py64.setitem (d_term a) (step st) d in
  Ok {| sim := {| thermal_model := plant; pid_controller := ctrl;
                  time_step := time_step self |};
        arrays := {| time := time_array; temperature := temp_array;
                     setpoint := setpoint_array;
                     control := control_array; error := error_array;
                     p_term := p_array; i_term := i_array;
                     d_term := d_array |};
        current_time := current_time st + time_step self;
        step := S (step st) |}.

(** [while current_time < stage_end_time and step < num_steps],
    given [fuel] iterations. *)
Fixpoint stage_loop (fuel : nat) (num_steps : Z)
    (stage_temp stage_end_time : float) (st : loop_state)
  : outcome loop_state :=
  if (current_time st <? stage_end_time)
     && bool_decide (Z.of_nat (step st) < num_steps)%Z
  then
    match fuel with
    | O => OutOfFuel
    | S fuel =>
        let+ st := loop_body stage_temp st in
        stage_loop fuel num_steps stage_temp stage_end_time st
    end
  else Ok st.

(** [for stage_temp, stage_duration in protocol] *)
Fixpoint run_stages (fuel : nat) (num_steps : Z)
    (protocol : list (float * float)) (st : loop_state)
  : outcome loop_state :=
  match protocol with
  | [] => Ok st
  | (stage_temp, stage_duration) :: protocol =>
      let stage_end_time := current_time st + stage_duration in
      let+ st := stage_loop fuel num_steps stage_temp stage_end_time st in
      run_stages fuel num_steps protocol st
  end.

(** The loop variables when the first stage starts. *)
Definition start (self : t) (zeros : list float) : loop_state :=
  {| sim :=
       {| thermal_model := ThermalModel64.reset (thermal_model self) None;
          pid_controller := reset (pid_controller self);
          time_step := time_step self |};
     arrays := {| time := zeros; temperature := zeros;
                  setpoint := zeros; control := zeros;
                  error := zeros; p_term := zeros;
                  i_term := zeros; d_term := zeros |};
     current_time := 0;
     step := O |}.

(** [array[:step]] for each of the eight arrays. *)
Definition trim (st : loop_state) : series :=
  let a := arrays st in
  let n := step st in
  {| time := take n (time a); temperature := take n (temperature a);
     setpoint := take n (setpoint a); control := take n (control a);
     error := take n (error a); p_term := take n (p_term a);
     i_term := take n (i_term a); d_term := take n (d_term a) |}.

(** [int(total_time / self.time_step) + 1] *)
Definition num_steps_of (self : t) (a : args) : outcome Z :=
  let protocol := _build_protocol a in
  let total_time := Py64.sum (snd <$> protocol) in
  let+ ratio := Py64.div total_time (time_step self) in
  let+ n := Py64.int ratio in
  Ok (n + 1)%Z.

(** [simulate] up to and including the trimming of the arrays. *)
Definition simulate_raw (self : t) (a : args) : outcome (t * series) :=
  let protocol := _build_protocol a in
  let+ num_steps := num_steps_of self a in
  let+ zeros := Py64.zeros num_steps in
  let st := start self zeros in
  let+ st := run_stages (Z.to_nat num_steps) num_steps protocol st in
  Ok (sim st, trim st).

(** [iterations n st st']: [n] passes through the loop body lead
    from [st] to [st']. *)
Inductive iterations : nat -> loop_state -> loop_state -> Prop :=
| iterations_O (st : loop_state) : iterations O st st
| iterations_S (n : nat) (stage_temp : float) (st st1 st2 : loop_state) :
    loop_body stage_temp st = Ok st1 ->
    iterations n st1 st2 ->
    iterations (S n) st st2.

(** [stage_passes num_steps sp stage_end n st st']: the [while] loop
    of one stage takes [n] passes from [st] to [st'], each with the
    guard true, and stops with the guard false. *)
Inductive stage_passes (num_steps : Z) (stage_temp stage_end_time : float)
  : nat -> loop_state -> loop_state -> Prop :=
| stage_done (st : loop_state) :
    (current_time st <? stage_end_time)
    && bool_decide (Z.of_nat (step st) < num_steps)%Z = false ->
    stage_passes num_steps stage_temp stage_end_time O st st
| stage_pass (n : nat) (st st1 st2 : loop_state) :
    (current_time st <? stage_end_time)
    && bool_decide (Z.of_nat (step st) < num_steps)%Z = true ->
    loop_body stage_temp st = Ok st1 ->
    stage_passes num_steps stage_temp stage_end_time n st1 st2 ->
    stage_passes num_steps stage_temp stage_end_time (S n) st st2.

(** [protocol_passes num_steps protocol n st st']: the stages of
    [protocol], each ending [stage_duration] after the time it starts
    at, take [n] passes in all from [st] to [st']. *)
Inductive protocol_passes (num_steps : Z)
  : list (float * float) -> nat -> loop_state -> loop_state -> Prop :=
| protocol_done (st : loop_state) : protocol_passes num_steps [] O st st
| protocol_stage (stage_temp stage_duration : float)
    (protocol : list (float * float)) (n m : nat)
    (st st1 st2 : loop_state) :
    stage_passes num_steps stage_temp (current_time st + stage_duration)
                 n st st1 ->
    protocol_passes num_steps protocol m st1 st2 ->
    protocol_passes num_steps ((stage_temp, stage_duration) :: protocol)
                    (n + m) st st2.

(** What holds of the loop variables between two passes, for arrays
    of [N] cells, time step [dt] and the plant [plant0] the run
    started from.  The clock is the last recorded time plus [dt]. *)
Record loop_inv (N : nat) (dt : float) (plant0 : ThermalModel64.t)
    (st : loop_state) : Prop := {
  inv_len : forall k, length (get k (arrays st)) = N;
  inv_step : (step st <= N)%nat;
  inv_dt : time_step (sim st) = dt;
  inv_plant :
    thermal_model (sim st)
    = ThermalModel64.set_temperature plant0
        (ThermalModel64.temperature (thermal_model (sim st)));
  inv_clock :
    match step st with
    | O => current_time st = 0
    | S k => exists t, time (arrays st) !! k = Some t
                       /\ current_time st = t + dt
    end;
  inv_time : forall k, (S k < step st)%nat ->
    exists t, time (arrays st) !! k = Some t
              /\ time (arrays st) !! S k = Some (t + dt);
  inv_time_first : (0 < step st)%nat -> time (arrays st) !! O = Some 0;
  inv_error : forall k, (k < step st)%nat ->
    exists T sp,
      temperature (arrays st) !! k = Some T
      /\ setpoint (arrays st) !! k = Some sp
      /\ error (arrays st) !! k = Some (sp - T);
  inv_chain : forall k, (k < step st)%nat ->
    exists T u T',
      temperature (arrays st) !! k = Some T
      /\ control (arrays st) !! k = Some u
      /\ ThermalModel64.update
           (ThermalModel64.set_temperature plant0 T) u dt
         = Ok (ThermalModel64.set_temperature plant0 T', T')
      /\ (if decide (S k < step st)%nat
          then temperature (arrays st) !! S k = Some T'
          else ThermalModel64.temperature (thermal_model (sim st)) = T');
  inv_first :
    if decide (0 < step st)%nat
    then temperature (arrays st) !! O
         = Some (ThermalModel64.temperature plant0)
    else ThermalModel64.temperature (thermal_model (sim st))
         = ThermalModel64.temperature plant0
}.

End WithController.

Arguments t C : clear implicits.
Arguments loop_state C : clear implicits.
Arguments iterations {C _} n st st'.
Arguments stage_passes {C _} num_steps stage_temp stage_end_time n st st'.
Arguments protocol_passes {C _} num_steps protocol n st st'.

End PCRSimulator64.

Module Cases64.
Import PCRSimulator64.
Local Open Scope float_scope.

(** [PIDController(kp=3.0)], the other arguments at their defaults. *)
Definition gain_three : PIDController64.t :=
  PIDController64.init 3 1 20 (-150) 250.

(** [PCRSimulator(ThermalModel(), PIDController())]. *)
Definition default_sim : PCRSimulator64.t PIDController64.t :=
  {| thermal_model := ThermalModel64.default;
     pid_controller := PIDController64.default;
     time_step := 0.1 |}.


End Cases64.

(** * Properties *)

(** ** Arithmetic on canonical rationals *)

(** Moves an order or equality problem on [Qc] to [Q], where [lra]
    decides it. *)
Ltac qc_to_q :=
  repeat match goal with
  | H : @eq Qc ?x ?y |- _ =>
      let H' := fresh in
      assert (H' : (this x == this y)%Q) by (rewrite H; reflexivity);
      clear H
  | H : not (@eq Qc ?x ?y) |- _ =>
      let H' := fresh in
      assert (H' : ~ (this x == this y)%Q)
        by (let E := fresh in intro E; apply H; apply Qc_is_canon; exact E);
      clear H
  | |- @eq Qc _ _ => apply Qc_is_canon
  | |- not (@eq Qc _ _) =>
      let E := fresh in intro E
  end;
  unfold Py.real, Qcminus in *;
  unfold Qcle, Qclt, Qcplus, Qcopp, Qcmult in *;
  unfold Q2Qc in *;
  cbn [this] in *;
  rewrite ?Qred_correct in *.

Ltac qc_lra := qc_to_q; lra.

(** Decides a closed statement by evaluation. *)
Ltac vm_decide := apply (bool_decide_unpack _); vm_compute; exact I.

Section PyFacts.

Lemma max_cases (a b : Qc) :
  (a < b /\ Py.max a b = b) \/ (b <= a /\ Py.max a b = a).
Proof.
  unfold Py.max. destruct (decide (a < b)) as [H|H]; [left|right]; split;
    auto. apply Qcle_ngt. exact H.
Qed.

Lemma min_cases (a b : Qc) :
  (b < a /\ Py.min a b = b) \/ (a <= b /\ Py.min a b = a).
Proof.
  unfold Py.min. destruct (decide (b < a)) as [H|H]; [left|right]; split;
    auto. apply Qcle_ngt. exact H.
Qed.

Lemma div_ok (x y : Qc) : y <> 0 -> Py.div x y = Ok (x / y).
Proof. intros H. unfold Py.div. destruct (decide (y = 0)); congruence. Qed.

Lemma div_zero (x : Qc) : Py.div x 0 = Raise ZeroDivisionError.
Proof. unfold Py.div. destruct (decide (0 = 0)); congruence. Qed.

End PyFacts.

(** ** Thermal plant *)

Module ThermalModelFacts.
Import ThermalModel.

Lemma applied_power_clamp (u heat cool : Qc) :
  0 <= heat -> 0 <= cool ->
  (if decide (0 < u) then Py.min u heat else Py.max u (- cool))
  = Py.clamp u (- cool) heat.
Proof.
  intros Hh Hc. unfold Py.clamp.
  destruct (decide (0 < u)) as [Hu|Hu]; [|apply Qcle_ngt in Hu];
    destruct (min_cases u heat) as [[? ->]|[? ->]];
    destruct (max_cases u (- cool)) as [[? E]|[? E]];
    destruct (max_cases (- cool) heat) as [[? E1]|[? E1]];
    destruct (max_cases (- cool) u) as [[? E2]|[? E2]];
    rewrite ?E, ?E1, ?E2; first [reflexivity | qc_lra].
Qed.

(** C5.  With non-negative power limits and a non-zero heat capacity,
    [update(u, dt)] stores and returns
    [T + ((clamp(u, -cooling, heating) - loss*(T - ambient)) / C) * dt];
    the applied power is [min(u, heating)] when [u > 0] and
    [max(u, -cooling)] when [u <= 0]; and with the default plant at
    22 degrees, [update(250, 0.1)] gives 22.05. *)
Theorem update_euler_step (self : t) (u dt : Qc) :
  0 <= heating_power self ->
  0 <= cooling_power self ->
  total_heat_capacity self <> 0 ->
  let T := temperature self in
  let loss := heat_loss_coef self * (T - ambient_temp self) in
  let T' :=
    T + ((Py.clamp u (- cooling_power self) (heating_power self) - loss)
         / total_heat_capacity self) * dt in
  update self u dt = Ok (set_temperature self T', T')
  /\ (0 < u ->
      calculate_heat_flow self u = Py.min u (heating_power self) - loss)
  /\ (u <= 0 ->
      calculate_heat_flow self u = Py.max u (- cooling_power self) - loss)
  /\ update default (real 250) (real 0.1)
     = Ok (set_temperature default (real 22.05), real 22.05).
Proof.
  intros Hh Hc HC T loss T'. repeat split.
  - unfold update, get_derivative. rewrite div_ok by exact HC.
    unfold calculate_heat_flow. rewrite applied_power_clamp by assumption.
    reflexivity.
  - intros Hu. unfold calculate_heat_flow.
    destruct (decide (0 < u)); [reflexivity | contradiction].
  - intros Hu. unfold calculate_heat_flow.
    destruct (decide (0 < u)) as [Hu'|]; [|reflexivity].
    exfalso. qc_lra.
  - vm_decide.
Qed.

Lemma update_euler_step_witness :
  update default (real 250) (real 0.1)
  = Ok (set_temperature default (real 22.05), real 22.05).
Proof.
  apply (update_euler_step default (real 250) (real 0.1));
    vm_decide.
Defined.

End ThermalModelFacts.

(** ** PID controller *)

Module PIDFacts.
Import PIDController.

Lemma clamp_within (lo hi x : Qc) :
  lo <= hi -> lo <= Py.max lo (Py.min x hi) <= hi.
Proof.
  intros Hle.
  destruct (min_cases x hi) as [[? ->]|[? ->]];
    [destruct (max_cases lo hi) as [[? ->]|[? ->]]
    |destruct (max_cases lo x) as [[? ->]|[? ->]]];
    split; qc_lra.
Qed.

Lemma clamp_id (lo hi x : Qc) :
  lo <= x -> x <= hi -> Py.max lo (Py.min x hi) = x.
Proof.
  intros H1 H2.
  destruct (min_cases x hi) as [[? ->]|[? ->]];
    [destruct (max_cases lo hi) as [[? ->]|[? ->]]
    |destruct (max_cases lo x) as [[? ->]|[? ->]]];
    qc_lra.
Qed.

Lemma pos_nonzero (x : Qc) : 0 < x -> x <> 0.
Proof. intros H E. qc_lra. Qed.

(** The first half of [update] never raises: both of its divisions
    are guarded. *)
Lemma compute_terms_ok (self : t) (sp m dt : Qc) :
  exists s1, compute_terms self sp m dt = Ok s1
    /\ kp s1 = kp self /\ ti s1 = ti self /\ td s1 = td self
    /\ output_min s1 = output_min self /\ output_max s1 = output_max self
    /\ p_term s1 = sp - m
    /\ integral s1 = integral self + (sp - m) * dt
    /\ prev_error s1 = prev_error self.
Proof.
  unfold compute_terms.
  destruct (decide (0 < ti self)) as [Hti|Hti];
    [rewrite (div_ok _ _ (pos_nonzero _ Hti))|];
    (destruct (decide (0 < dt)) as [Hdt|Hdt];
     [rewrite (div_ok _ _ (pos_nonzero _ Hdt))|]);
    cbn; eexists; repeat split; reflexivity.
Qed.

Lemma saturated_true (self : t) (out c : Qc) :
  saturated self out c = true <-> out <> c /\ 0 < ti self.
Proof.
  unfold saturated. rewrite andb_true_iff, !bool_decide_eq_true.
  reflexivity.
Qed.

Lemma saturated_false (self : t) (out c : Qc) :
  saturated self out c = false <-> out = c \/ ~ 0 < ti self.
Proof.
  unfold saturated. rewrite andb_false_iff, !bool_decide_eq_false.
  split; (intros [H|H]; [left|right; exact H]).
  - destruct (decide (out = c)) as [E|E]; [exact E|contradiction].
  - intros Hne. exact (Hne H).
Qed.

(** [update] when the anti-windup branch is not entered. *)
Lemma update_unsaturated (self s1 : t) (sp m dt : Qc) :
  compute_terms self sp m dt = Ok s1 ->
  saturated s1 (raw_output s1) (clamp_output s1 (raw_output s1)) = false ->
  update self sp m dt
  = Ok (set_prev_error s1 (sp - m), clamp_output s1 (raw_output s1)).
Proof. intros E Hs. unfold update. rewrite E. cbn. rewrite Hs. reflexivity. Qed.

(** [update] when the anti-windup branch is entered. *)
Lemma update_saturated (self s1 : t) (sp m dt : Qc) :
  compute_terms self sp m dt = Ok s1 ->
  saturated s1 (raw_output s1) (clamp_output s1 (raw_output s1)) = true ->
  update self sp m dt
  = let* s2 := back_calculate s1 (clamp_output s1 (raw_output s1)) in
    Ok (set_prev_error s2 (sp - m), clamp_output s1 (raw_output s1)).
Proof.
  intros E Hs. unfold update. rewrite E. cbn. rewrite Hs.
  destruct (back_calculate _ _); reflexivity.
Qed.

(** With a non-zero gain [update] always returns. *)
Lemma update_total (self : t) (sp m dt : Qc) :
  kp self <> 0 -> exists r, update self sp m dt = Ok r.
Proof.
  intros Hkp.
  destruct (compute_terms_ok self sp m dt) as (s1 & E & Ekp & _).
  destruct (saturated s1 (raw_output s1) (clamp_output s1 (raw_output s1)))
    eqn:Hs.
  - rewrite (update_saturated _ _ _ _ _ E Hs). unfold back_calculate.
    rewrite div_ok by (rewrite Ekp; exact Hkp). cbn. eauto.
  - rewrite (update_unsaturated _ _ _ _ _ E Hs). eauto.
Qed.


Lemma update_output (self self' : t) (sp m dt u : Qc) :
  update self sp m dt = Ok (self', u) ->
  exists s1, compute_terms self sp m dt = Ok s1
    /\ u = clamp_output s1 (raw_output s1).
Proof.
  intros E.
  destruct (compute_terms_ok self sp m dt) as (s1 & E1 & _).
  exists s1. split; [exact E1|].
  destruct (saturated s1 (raw_output s1) (clamp_output s1 (raw_output s1)))
    eqn:Hs.
  - rewrite (update_saturated _ _ _ _ _ E1 Hs) in E.
    destruct (back_calculate _ _); cbn in E; congruence.
  - rewrite (update_unsaturated _ _ _ _ _ E1 Hs) in E. congruence.
Qed.

Lemma pid_update_within_limits (self self' : t) (sp m dt u : Qc) :
  output_min self <= output_max self ->
  update self sp m dt = Ok (self', u) ->
  output_min self <= u <= output_max self.
Proof.
  intros Hle E. destruct (update_output _ _ _ _ _ _ E) as (s1 & E1 & ->).
  destruct (compute_terms_ok self sp m dt)
    as (s1' & E1' & _ & _ & _ & Hmin & Hmax & _).
  assert (s1' = s1) by congruence. subst s1'.
  unfold clamp_output. rewrite Hmin, Hmax. apply clamp_within, Hle.
Qed.

(** C2.  With [Kp = 0] and [output_min <= 0 <= output_max], from any
    state and for any setpoint, measurement and time step, [update]
    returns exactly 0; the guard of the anti-windup branch, whose body
    divides by [Kp], is false, so no division by zero happens; and the
    integral accumulator becomes [integral + error * dt]. *)
Theorem update_zero_gain (self : t) (sp m dt : Qc) :
  kp self = 0 -> output_min self <= 0 -> 0 <= output_max self ->
  exists s1 self',
    compute_terms self sp m dt = Ok s1
    /\ saturated s1 (raw_output s1) (clamp_output s1 (raw_output s1))
       = false
    /\ update self sp m dt = Ok (self', 0)
    /\ integral self' = integral self + (sp - m) * dt.
Proof.
  intros Hkp Hmin Hmax.
  destruct (compute_terms_ok self sp m dt)
    as (s1 & E & Ekp & _ & _ & Emin & Emax & _ & Eint & _).
  assert (Hraw : raw_output s1 = 0).
  { unfold raw_output. rewrite Ekp, Hkp. ring. }
  assert (Hclamp : clamp_output s1 (raw_output s1) = 0).
  { rewrite Hraw. unfold clamp_output. rewrite Emin, Emax.
    apply clamp_id; assumption. }
  assert (Hs : saturated s1 (raw_output s1)
                 (clamp_output s1 (raw_output s1)) = false).
  { apply saturated_false. left. congruence. }
  exists s1, (set_prev_error s1 (sp - m)). repeat split.
  - exact E.
  - exact Hs.
  - rewrite (update_unsaturated _ _ _ _ _ E Hs), Hclamp. reflexivity.
  - exact Eint.
Qed.

Lemma update_zero_gain_witness :
  exists s1 self',
    compute_terms Runs.zero_gain_example (real 95) (real 22) (real 0.1) = Ok s1
    /\ saturated s1 (raw_output s1) (clamp_output s1 (raw_output s1))
       = false
    /\ update Runs.zero_gain_example (real 95) (real 22) (real 0.1)
       = Ok (self', 0)
    /\ integral self'
       = integral Runs.zero_gain_example + (real 95 - real 22) * real 0.1.
Proof.
  apply update_zero_gain; [reflexivity | vm_decide | vm_decide].
Defined.

(** [update] leaves gains and limits as they are. *)
Lemma update_config (self self' : t) (sp m dt u : Qc) :
  update self sp m dt = Ok (self', u) ->
  kp self' = kp self /\ ti self' = ti self /\ td self' = td self
  /\ output_min self' = output_min self
  /\ output_max self' = output_max self.
Proof.
  intros E.
  destruct (compute_terms_ok self sp m dt)
    as (s1 & E1 & Ekp & Eti & Etd & Emin & Emax & _).
  destruct (saturated s1 (raw_output s1) (clamp_output s1 (raw_output s1)))
    eqn:Hs.
  - rewrite (update_saturated _ _ _ _ _ E1 Hs) in E.
    unfold back_calculate in E.
    destruct (Py.div _ _); cbn in E; try discriminate.
    injection E as <- _. cbn. auto.
  - rewrite (update_unsaturated _ _ _ _ _ E1 Hs) in E.
    injection E as <- _. cbn. auto.
Qed.


(** A non-zero gain is what [update] needs, and it keeps it. *)
Lemma update_good (c : t) (sp m d : Qc) :
  kp c <> 0 ->
  exists c' u, update c sp m d = Ok (c', u) /\ kp c' <> 0.
Proof.
  intros Hc. destruct (update_total c sp m d Hc) as [[c' u] Eu].
  exists c', u. split; [exact Eu|].
  destruct (update_config _ _ _ _ _ _ Eu) as [-> _]. exact Hc.
Qed.

End PIDFacts.

(** ** Fuzzy controller *)

Module FuzzyFacts.
Import FuzzyController.

(** The constructor's default arguments give the default controller:
    a universe of 200 points. *)
Lemma default_init :
  init (real (-150)) (real 250) (real (-1)) (real 1) (real 0.01)
  = Ok default
  /\ length (u_universe default) = 200%nat.
Proof. split; [vm_decide | reflexivity]. Qed.

(** On ordered breakpoints [trapmf] never divides by zero. *)
Lemma trapmf_ok (x a b c d : Qc) :
  a <= b -> b <= c -> c <= d -> exists v, trapmf x a b c d = Ok v.
Proof.
  intros Hab Hbc Hcd. unfold trapmf.
  destruct (decide (x <= a \/ d <= x)) as [H1|H1]; [eauto|].
  destruct (decide (b <= x /\ x <= c)) as [H2|H2]; [eauto|].
  destruct (decide (a < x /\ x < b)) as [[H3 H4]|H3].
  - rewrite div_ok; [eauto|]. intros E. qc_lra.
  - rewrite div_ok; [eauto|]. intros E.
    apply H1. destruct (Qclt_le_dec a x) as [Hax|Hax]; [|left; exact Hax].
    right. destruct (Qclt_le_dec x b) as [Hxb|Hxb].
    + exfalso. apply H3. split; assumption.
    + destruct (Qclt_le_dec c x) as [Hcx|Hcx].
      * qc_lra.
      * exfalso. apply H2. split; assumption.
Qed.

Ltac trapmf_step :=
  match goal with
  | |- context [trapmf ?x ?a ?b ?c ?d] =>
      let v := fresh "v" in
      let E := fresh "E" in
      destruct (trapmf_ok x a b c d) as [v E];
      [vm_decide | vm_decide | vm_decide | rewrite E; cbn [Py.bind]]
  end.

Lemma fuzzify_error_ok (e : Qc) : exists s, fuzzify_error e = Ok s.
Proof. unfold fuzzify_error. repeat trapmf_step. eauto. Qed.

Lemma fuzzify_ce_ok (ce : Qc) : exists s, fuzzify_ce ce = Ok s.
Proof. unfold fuzzify_ce. repeat trapmf_step. eauto. Qed.

Lemma output_sets_ok (u : Qc) : exists s, output_sets u = Ok s.
Proof. unfold output_sets. repeat trapmf_step. eauto. Qed.

Lemma for_each_ok {A B : Type} (f : A -> outcome B) (xs : list A) :
  (forall x, exists y, f x = Ok y) ->
  exists ys, Py.for_each f xs = Ok ys /\ length ys = length xs.
Proof.
  intros Hf. induction xs as [|x xs (ys & E & Hlen)]; cbn.
  - exists []. split; reflexivity.
  - destruct (Hf x) as [y ->]. rewrite E.
    exists (y :: ys). cbn. split; congruence.
Qed.

Lemma infer_loop_ok (self : t) (e_sets : label -> Qc)
    (ce_sets : ce_label -> Qc) (todo : list (label * ce_label * label))
    (aggregated : list Qc) :
  length aggregated = length (u_universe self) ->
  exists agg, infer_loop self e_sets ce_sets todo aggregated = Ok agg
    /\ length agg = length (u_universe self).
Proof.
  revert aggregated.
  induction todo as [|[[e_label ce_label] u_label] todo IH];
    intros aggregated Hlen; cbn.
  - eauto.
  - destruct (decide (Py.min (e_sets e_label) (ce_sets ce_label) = 0)).
    + apply IH, Hlen.
    + edestruct (for_each_ok
        (fun u => let* o := output_sets u in
                  Ok (Py.min (Py.min (e_sets e_label) (ce_sets ce_label))
                             (o u_label)))
        (u_universe self)) as (u_mf & -> & Hmf).
      { intros u. destruct (output_sets_ok u) as [o ->]. cbn. eauto. }
      cbn. apply IH. unfold Np.maximum.
      rewrite length_zip_with. lia.
Qed.

Lemma infer_ok (self : t) (e_sets : label -> Qc)
    (ce_sets : ce_label -> Qc) :
  exists agg, infer self e_sets ce_sets = Ok agg
    /\ length agg = length (u_universe self).
Proof.
  unfold infer. apply infer_loop_ok. unfold Np.zeros_like.
  apply length_replicate.
Qed.

Lemma defuzzify_nonzero (self : t) (aggregated : list Qc) :
  length aggregated = length (u_universe self) ->
  Np.sum aggregated <> 0 ->
  defuzzify self aggregated
  = Ok (Np.sum (zip_with Qcmult (u_universe self) aggregated)
        / Np.sum aggregated).
Proof.
  intros Hlen Hsum. unfold defuzzify, Np.mul, Np.div.
  destruct (decide (Np.sum aggregated = 0)); [contradiction|].
  destruct (decide (length (u_universe self) = length aggregated));
    [|congruence].
  cbn. destruct (decide (Np.sum aggregated = 0)); [contradiction|].
  reflexivity.
Qed.

Lemma defuzzify_zero (self : t) (aggregated : list Qc) :
  Np.sum aggregated = 0 -> defuzzify self aggregated = Ok 0.
Proof.
  intros Hsum. unfold defuzzify.
  destruct (decide (Np.sum aggregated = 0)); [reflexivity|contradiction].
Qed.

Lemma defuzzify_ok (self : t) (aggregated : list Qc) :
  length aggregated = length (u_universe self) ->
  exists v, defuzzify self aggregated = Ok v.
Proof.
  intros Hlen. destruct (decide (Np.sum aggregated = 0)) as [Hs|Hs].
  - rewrite defuzzify_zero by exact Hs. eauto.
  - rewrite defuzzify_nonzero by assumption. eauto.
Qed.

(** [update] never raises, and what it returns is clamped. *)
Lemma update_ok (self : t) (sp m dt : Qc) :
  exists self' u_norm,
    update self sp m dt
    = Ok (self', Py.max (output_min self)
                        (Py.min (u_norm * output_max self)
                                (output_max self)))
    /\ output_min self' = output_min self
    /\ output_max self' = output_max self
    /\ u_universe self' = u_universe self
    /\ prev_error self' = sp - m.
Proof.
  unfold update.
  assert (Hce : exists ce,
    (if decide (0 < dt) then Py.div (sp - m - prev_error self) dt
     else Ok 0) = Ok ce).
  { destruct (decide (0 < dt)) as [Hdt|]; [|eauto].
    rewrite div_ok; [eauto|]. intros E. qc_lra. }
  destruct Hce as [ce ->]. cbn [Py.bind].
  destruct (fuzzify_error_ok (sp - m)) as [e_sets ->]. cbn [Py.bind].
  destruct (fuzzify_ce_ok ce) as [ce_sets ->]. cbn [Py.bind].
  destruct (infer_ok self e_sets ce_sets) as (agg & -> & Hlen).
  cbn [Py.bind].
  destruct (defuzzify_ok self agg Hlen) as [u_norm ->]. cbn [Py.bind].
  eexists _, u_norm. repeat split.
Qed.


(** C9.  For breakpoints [a <= b <= c <= d], [trapmf(x, a, b, c, d)] is
    0 when [x <= a] or [x >= d]; otherwise 1 when [b <= x <= c];
    [(x - a) / (b - a)] when [a < x < b]; [(d - x) / (d - c)] when
    [c < x < d].  At the corner [x = a = b] the first rule applies:
    [trapmf(-100, -100, -100, -60, -40) = 0], and
    [trapmf(-80, -100, -100, -60, -40) = 1]. *)
Theorem trapmf_cases (x a b c d : Qc) :
  a <= b -> b <= c -> c <= d ->
  (x <= a \/ d <= x -> trapmf x a b c d = Ok 0)
  /\ (a < x -> x < d -> b <= x <= c -> trapmf x a b c d = Ok 1)
  /\ (a < x < b -> trapmf x a b c d = Ok ((x - a) / (b - a)))
  /\ (c < x < d -> trapmf x a b c d = Ok ((d - x) / (d - c)))
  /\ trapmf (real (-100)) (real (-100)) (real (-100)) (real (-60))
            (real (-40)) = Ok 0
  /\ trapmf (real (-80)) (real (-100)) (real (-100)) (real (-60))
            (real (-40)) = Ok 1.
Proof.
  intros Hab Hbc Hcd. unfold trapmf.
  split; [|split; [|split; [|split; [|split]]]].
  - intros H. destruct (decide (x <= a \/ d <= x)); [reflexivity|].
    contradiction.
  - intros Hax Hxd Hbxc.
    destruct (decide (x <= a \/ d <= x)) as [[H|H]|_];
      [exfalso; qc_lra | exfalso; qc_lra |].
    destruct (decide (b <= x /\ x <= c)); [reflexivity|contradiction].
  - intros [Hax Hxb].
    destruct (decide (x <= a \/ d <= x)) as [[H|H]|_];
      [exfalso; qc_lra | exfalso; qc_lra |].
    destruct (decide (b <= x /\ x <= c)) as [[H _]|_];
      [exfalso; qc_lra|].
    destruct (decide (a < x /\ x < b)) as [_|H];
      [|exfalso; apply H; split; assumption].
    apply div_ok. intros E. qc_lra.
  - intros [Hcx Hxd].
    destruct (decide (x <= a \/ d <= x)) as [[H|H]|_];
      [exfalso; qc_lra | exfalso; qc_lra |].
    destruct (decide (b <= x /\ x <= c)) as [[_ H]|_];
      [exfalso; qc_lra|].
    destruct (decide (a < x /\ x < b)) as [[_ H]|_];
      [exfalso; qc_lra|].
    apply div_ok. intros E. qc_lra.
  - vm_decide.
  - vm_decide.
Qed.

Lemma trapmf_cases_witness :
  trapmf (real (-50)) (real (-100)) (real (-100)) (real (-60)) (real (-40))
  = Ok ((real (-40) - real (-50)) / (real (-40) - real (-60))).
Proof.
  apply (trapmf_cases (real (-50)) (real (-100)) (real (-100))
                      (real (-60)) (real (-40)));
    [vm_decide | vm_decide | vm_decide | split; vm_decide].
Defined.

(** C8.  On an aggregate as long as the universe, [defuzzify] returns
    [sum(u_i * aggregated_i) / sum(aggregated_i)] when
    [sum(aggregated_i)] is not 0, and exactly 0 when it is 0; [update]
    always returns a value; and when no rule fires (error 200, beyond
    every error set) the default controller returns 0. *)
Theorem defuzzify_centroid (self : t) (aggregated : list Qc) :
  length aggregated = length (u_universe self) ->
  (Np.sum aggregated <> 0 ->
   defuzzify self aggregated
   = Ok (Np.sum (zip_with Qcmult (u_universe self) aggregated)
         / Np.sum aggregated))
  /\ (Np.sum aggregated = 0 -> defuzzify self aggregated = Ok 0)
  /\ (forall sp m dt, exists r, update self sp m dt = Ok r)
  /\ infer default (fun _ => 0) (fun _ => 0)
     = Ok (Np.zeros_like default_universe)
  /\ update default (real 222) (real 22) (real 0.1)
     = Ok (Runs.after_error_200, 0).
Proof.
  intros Hlen. split; [|split; [|split; [|split]]].
  - apply defuzzify_nonzero, Hlen.
  - apply defuzzify_zero.
  - intros sp m dt. destruct (update_ok self sp m dt) as (s & u & E & _).
    eauto.
  - vm_decide.
  - vm_decide.
Qed.

Lemma defuzzify_centroid_witness :
  defuzzify default (replicate 200 (real 0.5))
  = Ok (Np.sum (zip_with Qcmult default_universe
                         (replicate 200 (real 0.5)))
        / Np.sum (replicate 200 (real 0.5))).
Proof.
  apply (defuzzify_centroid default (replicate 200 (real 0.5)));
    [reflexivity | vm_decide].
Defined.

End FuzzyFacts.

(** ** Both controllers *)

Module ControllerFacts.

(** C4.  With [output_min <= output_max], whatever
    [PIDController.update] returns lies in [[output_min, output_max]],
    from any internal state and for any setpoint, measurement and time
    step, and it does return when [Kp <> 0]; [FuzzyController.update]
    always returns, and its value lies in [[output_min, output_max]]. *)
Theorem controllers_within_limits
    (pid : PIDController.t) (fuzzy : FuzzyController.t) (sp m dt : Qc) :
  PIDController.output_min pid <= PIDController.output_max pid ->
  FuzzyController.output_min fuzzy <= FuzzyController.output_max fuzzy ->
  (forall pid' u,
     PIDController.update pid sp m dt = Ok (pid', u) ->
     PIDController.output_min pid <= u <= PIDController.output_max pid)
  /\ (PIDController.kp pid <> 0 ->
      exists r, PIDController.update pid sp m dt = Ok r)
  /\ (exists fuzzy' u,
        FuzzyController.update fuzzy sp m dt = Ok (fuzzy', u)
        /\ FuzzyController.output_min fuzzy <= u
           <= FuzzyController.output_max fuzzy).
Proof.
  intros Hpid Hfuzzy. split; [|split].
  - intros pid' u E. exact (PIDFacts.pid_update_within_limits _ _ _ _ _ _ Hpid E).
  - apply PIDFacts.update_total.
  - destruct (FuzzyFacts.update_ok fuzzy sp m dt) as (f' & u_norm & E & _).
    eexists _, _. split; [exact E|].
    apply PIDFacts.clamp_within, Hfuzzy.
Qed.

Lemma controllers_within_limits_witness :
  (exists pid' u,
     PIDController.update PIDController.default (real 95) (real 22)
                          (real 0.1) = Ok (pid', u)
     /\ real (-150) <= u <= real 250)
  /\ (exists fuzzy' u,
        FuzzyController.update FuzzyController.default (real 95) (real 22)
                               (real 0.1) = Ok (fuzzy', u)
        /\ real (-150) <= u <= real 250).
Proof.
  destruct (controllers_within_limits PIDController.default
              FuzzyController.default (real 95) (real 22) (real 0.1))
    as (Hpid & Htotal & Hfuzzy); [vm_decide | vm_decide |].
  split; [|exact Hfuzzy].
  destruct Htotal as [[pid' u] E]; [vm_decide|].
  exists pid', u. split; [exact E|]. exact (Hpid _ _ E).
Defined.

End ControllerFacts.

(** ** Protocol *)

Module ProtocolFacts.
Import PCRSimulator.

Lemma cycles_loop (a : args) (protocol : list (Qc * Qc)) (s n : nat) :
  foldl (fun protocol _ =>
           let protocol :=
             protocol ++ [(denat_temp a, denat_duration a)] in
           let protocol :=
             protocol ++ [(anneal_temp a, anneal_duration a)] in
           let protocol :=
             protocol ++ [(extension_temp a, extension_duration a)] in
           protocol)
        protocol (seq s n)
  = protocol ++ concat (replicate n (Runs.cycle a)).
Proof.
  revert protocol s. induction n as [|n IH]; intros protocol s; cbn.
  - rewrite app_nil_r. reflexivity.
  - rewrite IH. rewrite <- !app_assoc. reflexivity.
Qed.

Lemma build_protocol_eq (a : args) :
  _build_protocol a
  = [(initial_temp a, initial_duration a)]
    ++ concat (replicate (Z.to_nat (num_cycles a)) (Runs.cycle a))
    ++ [(final_temp a, final_duration a); (hold_temp a, hold_duration a)].
Proof.
  unfold _build_protocol, range. rewrite cycles_loop.
  cbn. rewrite <- !app_assoc. reflexivity.
Qed.

Lemma length_cycles (a : args) (n : nat) :
  length (concat (replicate n (Runs.cycle a))) = (3 * n)%nat.
Proof. induction n as [|n IH]; cbn; [reflexivity|]. rewrite IH. lia. Qed.

(** C7.  For [num_cycles = N >= 0], [_build_protocol] returns the
    initial stage, then [N] times the (denaturation, annealing,
    extension) triple, then the final-extension stage, then the hold
    stage: [3 + 3 N] stages; for [N = 2] the six stages after the
    initial one are the triple twice. *)
Theorem build_protocol_stages (a : args) :
  (0 <= num_cycles a)%Z ->
  _build_protocol a
  = [(initial_temp a, initial_duration a)]
    ++ concat (replicate (Z.to_nat (num_cycles a)) (Runs.cycle a))
    ++ [(final_temp a, final_duration a); (hold_temp a, hold_duration a)]
  /\ Z.of_nat (length (_build_protocol a)) = (3 + 3 * num_cycles a)%Z
  /\ (num_cycles a = 2%Z ->
      take 6 (drop 1 (_build_protocol a))
      = [ (denat_temp a, denat_duration a);
          (anneal_temp a, anneal_duration a);
          (extension_temp a, extension_duration a);
          (denat_temp a, denat_duration a);
          (anneal_temp a, anneal_duration a);
          (extension_temp a, extension_duration a) ]).
Proof.
  intros HN. rewrite build_protocol_eq. split; [reflexivity|]. split.
  - rewrite !length_app, length_cycles. cbn. lia.
  - intros ->. reflexivity.
Qed.

Lemma build_protocol_stages_witness :
  take 6 (drop 1 (_build_protocol Runs.two_cycles))
  = [ (real 95, real 30); (real 58, real 30); (real 72, real 60);
      (real 95, real 30); (real 58, real 30); (real 72, real 60) ]
  /\ length (_build_protocol Runs.two_cycles) = 9%nat.
Proof.
  destruct (build_protocol_stages Runs.two_cycles) as (_ & Hlen & Hsix);
    [cbn; lia|].
  split; [exact (Hsix eq_refl)|].
  apply Nat2Z.inj. rewrite Hlen. reflexivity.
Defined.

End ProtocolFacts.

(** ** Simulation loop *)

Module SimulatorFacts.
Import PCRSimulator.

Lemma Qc_of_Z_succ (n : nat) :
  Qc_of_Z (Z.of_nat (S n)) = Qc_of_Z (Z.of_nat n) + 1.
Proof. rewrite Nat2Z.inj_succ, <- Z.add_1_r, Z2Qc_inj_add. reflexivity. Qed.

Lemma thermal_update_inv (p p' : ThermalModel.t) (u dt T' : Qc) :
  ThermalModel.update p u dt = Ok (p', T') ->
  p' = ThermalModel.set_temperature p T'.
Proof.
  unfold ThermalModel.update, ThermalModel.get_derivative.
  destruct (Py.div _ _); cbn; [|discriminate..].
  intros [= <- <-]. reflexivity.
Qed.

Lemma thermal_update_ok (p : ThermalModel.t) (u dt : Qc) :
  ThermalModel.total_heat_capacity p <> 0 ->
  exists r, ThermalModel.update p u dt = Ok r.
Proof.
  intros HC. unfold ThermalModel.update, ThermalModel.get_derivative.
  rewrite div_ok by exact HC. cbn. eauto.
Qed.

Lemma setitem_ok (arr : list Qc) (i : nat) (v : Qc) :
  (i < length arr)%nat -> Np.setitem arr i v = Ok (<[i := v]> arr).
Proof.
  intros Hi. unfold Np.setitem.
  destruct (decide (i < length arr)%nat); [reflexivity|contradiction].
Qed.

Section WithController.

Context {C : Type} `{Controller C}.

Variables (N : nat) (dt : Qc) (plant0 : ThermalModel.t).

Lemma loop_body_inv (stage_temp : Qc) (st st' : loop_state C) :
  loop_inv N dt plant0 st ->
  (step st < N)%nat ->
  loop_body stage_temp st = Ok st' ->
  loop_inv N dt plant0 st' /\ step st' = S (step st)
  /\ current_time st' = current_time st + dt.
Proof.
  intros Inv Hlt E. unfold loop_body in E.
  destruct (update _ _ _ _) as [[ctrl u]| |] eqn:Eu;
    cbn in E; try discriminate.
  destruct (ThermalModel.update _ _ _) as [[plant T']| |] eqn:Ep;
    cbn in E; try discriminate.
  pose proof (inv_len _ _ _ _ Inv) as Hlen.
  pose proof (Hlen Time) as Ht. pose proof (Hlen Temperature) as HT.
  pose proof (Hlen Setpoint) as Hs. pose proof (Hlen Control) as Hc.
  pose proof (Hlen Error) as He. pose proof (Hlen P_term) as Hp.
  pose proof (Hlen I_term) as Hi. pose proof (Hlen D_term) as Hd.
  cbn in Ht, HT, Hs, Hc, He, Hp, Hi, Hd.
  destruct (get_components ctrl) as [[p i] d].
  rewrite !setitem_ok in E by lia. cbn in E. injection E as <-.
  pose proof (inv_plant _ _ _ _ Inv) as Hplant.
  pose proof (inv_dt _ _ _ _ Inv) as Hdt.
  pose proof (thermal_update_inv _ _ _ _ _ Ep) as Hp'.
  assert (Hstep :
    ThermalModel.update
      (ThermalModel.set_temperature plant0
         (ThermalModel.temperature (thermal_model (sim st)))) u dt
    = Ok (ThermalModel.set_temperature plant0 T', T')).
  { rewrite <- Hplant, <- Hdt, Ep, Hp'. rewrite Hplant at 1.
    reflexivity. }
  split; [|split; [reflexivity | cbn; rewrite Hdt; reflexivity]].
  constructor; cbn.
  - intros []; cbn; rewrite length_insert; assumption.
  - lia.
  - exact Hdt.
  - rewrite (inv_now _ _ _ _ Inv), Hdt, Qc_of_Z_succ. ring.
  - rewrite Hp'. rewrite Hplant at 1. reflexivity.
  - intros k Hk. destruct (decide (k = step st)) as [->|Hne].
    + rewrite list_lookup_insert_eq by lia.
      rewrite (inv_now _ _ _ _ Inv). reflexivity.
    + rewrite list_lookup_insert_ne by auto.
      apply (inv_time _ _ _ _ Inv). lia.
  - intros k Hk. destruct (decide (k = step st)) as [->|Hne].
    + rewrite !list_lookup_insert_eq by lia. eauto.
    + rewrite !list_lookup_insert_ne by auto.
      apply (inv_error _ _ _ _ Inv). lia.
  - intros k Hk. destruct (decide (k = step st)) as [->|Hne].
    + rewrite !list_lookup_insert_eq by lia.
      eexists _, _, T'. repeat split; [exact Hstep|].
      destruct (decide (S (step st) < S (step st))%nat); [lia|].
      rewrite Hp'. reflexivity.
    + rewrite !list_lookup_insert_ne by auto.
      destruct (inv_chain _ _ _ _ Inv k) as (T & u0 & T1 & HT1 & Hu & Hupd & Hnext);
        [lia|].
      exists T, u0, T1. repeat split; try assumption.
      destruct (decide (S k < step st)%nat) as [Hlt'|Hge].
      * destruct (decide (S k < S (step st))%nat); [|lia].
        rewrite list_lookup_insert_ne by lia. exact Hnext.
      * destruct (decide (S k < S (step st))%nat); [|lia].
        assert (S k = step st) as -> by lia.
        rewrite list_lookup_insert_eq by lia. rewrite Hnext.
        reflexivity.
  - pose proof (inv_first _ _ _ _ Inv) as Hfirst.
    destruct (decide (0 < S (step st))%nat); [|lia].
    destruct (decide (0 < step st)%nat) as [Hpos|Hzero].
    + rewrite list_lookup_insert_ne by lia. exact Hfirst.
    + assert (step st = O) as -> by lia.
      rewrite list_lookup_insert_eq by lia. rewrite Hfirst.
      reflexivity.
Qed.


Lemma iterations_trans (n m : nat) (st1 st2 st3 : loop_state C) :
  iterations n st1 st2 -> iterations m st2 st3 ->
  iterations (n + m) st1 st3.
Proof.
  induction 1 as [|n sp st st1 st2 E _ IH]; intros H'; cbn.
  - exact H'.
  - eapply iterations_S; [exact E | apply IH, H'].
Qed.

Lemma stage_loop_inv (fuel : nat) (stage_temp stage_end : Qc)
    (st st' : loop_state C) :
  loop_inv N dt plant0 st ->
  stage_loop fuel (Z.of_nat N) stage_temp stage_end st = Ok st' ->
  loop_inv N dt plant0 st'
  /\ exists n, iterations n st st' /\ step st' = (step st + n)%nat.
Proof.
  revert st. induction fuel as [|fuel IH]; intros st Inv E; cbn in E.
  - destruct (decide _); [discriminate|]. injection E as <-.
    split; [exact Inv|]. exists O. split; [constructor | lia].
  - destruct (decide _) as [[_ Hs]|_].
    + destruct (loop_body stage_temp st) as [st1| |] eqn:Eb;
        cbn in E; try discriminate.
      destruct (loop_body_inv _ _ _ Inv ltac:(lia) Eb)
        as (Inv1 & Hstep & _).
      destruct (IH _ Inv1 E) as (Inv' & n & Hit & Hn).
      split; [exact Inv'|]. exists (S n). split.
      * eapply iterations_S; eassumption.
      * lia.
    + injection E as <-. split; [exact Inv|].
      exists O. split; [constructor | lia].
Qed.

Lemma run_stages_inv (fuel : nat) (protocol : list (Qc * Qc))
    (st st' : loop_state C) :
  loop_inv N dt plant0 st ->
  run_stages fuel (Z.of_nat N) protocol st = Ok st' ->
  loop_inv N dt plant0 st'
  /\ exists n, iterations n st st' /\ step st' = (step st + n)%nat.
Proof.
  revert st. induction protocol as [|[sp d] protocol IH];
    intros st Inv E; cbn in E.
  - injection E as <-. split; [exact Inv|].
    exists O. split; [constructor | lia].
  - destruct (stage_loop _ _ _ _ _) as [st1| |] eqn:Es;
      cbn in E; try discriminate.
    destruct (stage_loop_inv _ _ _ _ _ Inv Es) as (Inv1 & n1 & H1 & Hn1).
    destruct (IH _ Inv1 E) as (Inv' & n2 & H2 & Hn2).
    split; [exact Inv'|]. exists (n1 + n2)%nat. split.
    + eapply iterations_trans; eassumption.
    + lia.
Qed.

(** Controllers that [update] accepts, a property [update] keeps. *)
Variable good : C -> Prop.

Hypothesis good_update : forall c sp m d,
  good c -> exists c' u, update c sp m d = Ok (c', u) /\ good c'.

Hypothesis capacity : ThermalModel.total_heat_capacity plant0 <> 0.

Lemma loop_body_ok (stage_temp : Qc) (st : loop_state C) :
  loop_inv N dt plant0 st ->
  (step st < N)%nat ->
  good (pid_controller (sim st)) ->
  exists st', loop_body stage_temp st = Ok st'
              /\ good (pid_controller (sim st')).
Proof.
  intros Inv Hlt Hgood. unfold loop_body.
  destruct (good_update (pid_controller (sim st)) stage_temp
              (ThermalModel.temperature (thermal_model (sim st)))
              (time_step (sim st)) Hgood) as (c' & u & -> & Hgood').
  cbn [Py.bind].
  destruct (thermal_update_ok (thermal_model (sim st)) u
              (time_step (sim st))) as [[plant T'] ->].
  { rewrite (inv_plant _ _ _ _ Inv). exact capacity. }
  cbn [Py.bind].
  pose proof (inv_len _ _ _ _ Inv) as Hlen.
  pose proof (Hlen Time) as Ht. pose proof (Hlen Temperature) as HT.
  pose proof (Hlen Setpoint) as Hs. pose proof (Hlen Control) as Hc.
  pose proof (Hlen Error) as He. pose proof (Hlen P_term) as Hp.
  pose proof (Hlen I_term) as Hi. pose proof (Hlen D_term) as Hd.
  cbn in Ht, HT, Hs, Hc, He, Hp, Hi, Hd.
  destruct (get_components c') as [[p i] d].
  rewrite !setitem_ok by lia. cbn. eexists. split; [reflexivity|].
  exact Hgood'.
Qed.

Lemma stage_loop_ok (fuel : nat) (stage_temp stage_end : Qc)
    (st : loop_state C) :
  loop_inv N dt plant0 st ->
  (N - step st <= fuel)%nat ->
  good (pid_controller (sim st)) ->
  exists st', stage_loop fuel (Z.of_nat N) stage_temp stage_end st
              = Ok st'
              /\ good (pid_controller (sim st')).
Proof.
  revert st. induction fuel as [|fuel IH]; intros st Inv Hfuel Hgood; cbn.
  - destruct (decide _) as [[_ Hs]|_]; [lia|]. eauto.
  - destruct (decide _) as [[_ Hs]|_]; [|eauto].
    destruct (loop_body_ok stage_temp st Inv ltac:(lia) Hgood)
      as (st1 & Eb & Hgood1).
    rewrite Eb. cbn [Py.bind].
    destruct (loop_body_inv _ _ _ Inv ltac:(lia) Eb)
      as (Inv1 & Hstep & _).
    apply IH; [exact Inv1 | lia | exact Hgood1].
Qed.

Lemma run_stages_ok (fuel : nat) (protocol : list (Qc * Qc))
    (st : loop_state C) :
  loop_inv N dt plant0 st ->
  (N <= fuel)%nat ->
  good (pid_controller (sim st)) ->
  exists st', run_stages fuel (Z.of_nat N) protocol st = Ok st'.
Proof.
  revert st. induction protocol as [|[sp d] protocol IH];
    intros st Inv Hfuel Hgood; cbn.
  - eauto.
  - destruct (stage_loop_ok fuel sp (current_time st + d) st Inv
                ltac:(lia) Hgood) as (st1 & Es & Hgood1).
    rewrite Es. cbn [Py.bind].
    destruct (stage_loop_inv _ _ _ _ _ Inv Es) as (Inv1 & _).
    apply IH; assumption.
Qed.


Hypothesis dt_pos : 0 < dt.

(** A stage that lasts [m] whole time steps takes [m] passes. *)
Lemma stage_loop_exact (m fuel : nat) (stage_temp stage_end : Qc)
    (st : loop_state C) :
  loop_inv N dt plant0 st ->
  good (pid_controller (sim st)) ->
  stage_end = current_time st + Qc_of_Z (Z.of_nat m) * dt ->
  (step st + m <= N)%nat ->
  (m <= fuel)%nat ->
  exists st',
    stage_loop fuel (Z.of_nat N) stage_temp stage_end st = Ok st'
    /\ step st' = (step st + m)%nat
    /\ loop_inv N dt plant0 st'
    /\ good (pid_controller (sim st')).
Proof.
  revert fuel st. induction m as [|m IH];
    intros fuel st Inv Hgood Hend HN Hfuel.
  - exists st. split; [|split; [lia|split; assumption]].
    assert (Hstop : ~ (current_time st < stage_end
                       /\ (Z.of_nat (step st) < Z.of_nat N)%Z)).
    { intros [Hlt _]. rewrite Hend in Hlt.
      change (Z.of_nat 0) with 0%Z in Hlt.
      rewrite Z2Qc_inj_0, Qcmult_0_l, Qcplus_0_r in Hlt.
      exact (Qclt_not_eq _ _ Hlt eq_refl). }
    destruct fuel; cbn; destruct (decide _); try contradiction;
      reflexivity.
  - destruct fuel as [|fuel]; [lia|]. cbn.
    assert (Hgo : current_time st < stage_end
                  /\ (Z.of_nat (step st) < Z.of_nat N)%Z).
    { split; [|lia]. rewrite Hend.
      assert (Hp : 0 < Qc_of_Z (Z.of_nat (S m)) * dt).
      { rewrite <- (Qcmult_0_l dt).
        apply Qcmult_lt_compat_r; [exact dt_pos|].
        rewrite <- Z2Qc_inj_0. apply (proj1 (Z2Qc_inj_lt _ _)). lia. }
      revert Hp. generalize (Qc_of_Z (Z.of_nat (S m)) * dt).
      generalize (current_time st). intros c q Hq. qc_lra. }
    destruct (decide _); [|contradiction].
    destruct (loop_body_ok stage_temp st Inv ltac:(lia) Hgood)
      as (st1 & Eb & Hgood1).
    rewrite Eb. cbn [Py.bind].
    destruct (loop_body_inv _ _ _ Inv ltac:(lia) Eb)
      as (Inv1 & Hstep & Hnow).
    destruct (IH fuel st1 Inv1 Hgood1) as (st' & E' & Hs' & Inv' & Hg');
      [|lia|lia|].
    + rewrite Hend, Hnow, Qc_of_Z_succ. ring.
    + exists st'. split; [exact E'|split; [lia|split; assumption]].
Qed.

(** A protocol whose stages last whole numbers of time steps takes
    as many passes as these numbers add up to. *)
Lemma run_stages_exact (stages : list (Qc * nat)) (fuel : nat)
    (st : loop_state C) :
  loop_inv N dt plant0 st ->
  good (pid_controller (sim st)) ->
  (step st + sum_list (snd <$> stages) <= N)%nat ->
  (N <= fuel)%nat ->
  exists st',
    run_stages fuel (Z.of_nat N) (Runs.of_steps dt stages) st = Ok st'
    /\ step st' = (step st + sum_list (snd <$> stages))%nat
    /\ loop_inv N dt plant0 st'.
Proof.
  revert st. induction stages as [|[sp m] stages IH];
    intros st Inv Hgood HN Hfuel; cbn in *.
  - exists st. split; [reflexivity|split; [lia | exact Inv]].
  - destruct (stage_loop_exact m fuel sp
                (current_time st + Qc_of_Z (Z.of_nat m) * dt) st
                Inv Hgood eq_refl ltac:(lia) ltac:(lia))
      as (st1 & -> & Hs1 & Inv1 & Hg1).
    cbn [Py.bind].
    destruct (IH st1 Inv1 Hg1 ltac:(lia) Hfuel) as (st' & E' & Hs' & Inv').
    exists st'. split; [exact E'|split; [lia | exact Inv']].
Qed.

End WithController.


Lemma sum_nonneg (xs : list Qc) (acc : Qc) :
  Forall (fun x => 0 < x) xs -> 0 <= acc -> 0 <= foldl Qcplus acc xs.
Proof.
  intros Hxs. revert acc. induction Hxs as [|x xs Hx _ IH]; intros acc Hacc.
  - exact Hacc.
  - cbn. apply IH. qc_lra.
Qed.

Lemma div_nonneg (x y : Qc) : 0 <= x -> 0 < y -> 0 <= x / y.
Proof.
  intros Hx Hy. apply (Qcmult_lt_0_le_reg_r _ _ y Hy).
  replace (x / y * y) with x by (field; intros E; qc_lra).
  rewrite Qcmult_0_l. exact Hx.
Qed.

Lemma int_floor (x : Qc) : 0 <= x -> Py.int x = Py.floor x.
Proof.
  intros Hx. unfold Py.int.
  destruct (decide (x < 0)) as [Hneg|_]; [|reflexivity].
  exfalso. qc_lra.
Qed.

Section Run.

Context {C : Type} `{Controller C}.

Lemma start_inv (self : t C) (N : nat) :
  loop_inv N (time_step self)
           (ThermalModel.reset (thermal_model self) None)
           (start self (replicate N 0)).
Proof.
  constructor.
  - intros []; cbn; apply length_replicate.
  - cbn. lia.
  - reflexivity.
  - unfold start. cbn [current_time step].
    change (Z.of_nat 0) with 0%Z. rewrite Z2Qc_inj_0. ring.
  - reflexivity.
  - cbn. intros k Hk. lia.
  - cbn. intros k Hk. lia.
  - cbn. intros k Hk. lia.
  - reflexivity.
Qed.

Lemma simulate_raw_inv (self self' : t C) (a : args) (raw : series) :
  simulate_raw self a = Ok (self', raw) ->
  exists num_steps st,
    num_steps_of self a = Ok num_steps
    /\ (0 <= num_steps)%Z
    /\ run_stages (Z.to_nat num_steps) num_steps (_build_protocol a)
                  (start self (replicate (Z.to_nat num_steps) 0))
       = Ok st
    /\ self' = sim st /\ raw = trim st.
Proof.
  unfold simulate_raw. intros E.
  destruct (num_steps_of self a) as [num_steps| |];
    cbn in E; try discriminate.
  unfold Np.zeros in E.
  destruct (decide (num_steps < 0)%Z) as [|Hpos];
    cbn in E; try discriminate.
  destruct (run_stages _ _ _ _) as [st| |] eqn:Er;
    cbn in E; try discriminate.
  injection E as <- <-. exists num_steps, st.
  repeat split; [lia | exact Er].
Qed.

Lemma trim_length (N : nat) (dt : Qc) (plant0 : ThermalModel.t)
    (st : loop_state C) (k : key) :
  loop_inv N dt plant0 st -> length (get k (trim st)) = step st.
Proof.
  intros Inv. pose proof (inv_len _ _ _ _ Inv k) as Hlen.
  pose proof (inv_step _ _ _ _ Inv) as Hstep.
  destruct k; cbn in *; rewrite length_take; lia.
Qed.

Lemma trim_lookup (st : loop_state C) (k : key) (i : nat) :
  (i < step st)%nat -> get k (trim st) !! i = get k (arrays st) !! i.
Proof. intros Hi. destruct k; cbn; apply lookup_take_lt, Hi. Qed.



Lemma raw_inv (self self' : t C) (a : args) (raw : series) :
  simulate_raw self a = Ok (self', raw) ->
  exists N st,
    loop_inv N (time_step self)
             (ThermalModel.reset (thermal_model self) None) st
    /\ self' = sim st /\ raw = trim st.
Proof.
  intros E.
  destruct (simulate_raw_inv _ _ _ _ E)
    as (ns & st & _ & Hge & Er & -> & ->).
  remember (Z.to_nat ns) as N eqn:HN.
  assert (Hid : ns = Z.of_nat N) by lia. rewrite Hid in Er.
  destruct (run_stages_inv N _ _ _ _ _ _ (start_inv self N) Er)
    as (Inv & _).
  exists N, st. split; [exact Inv|]. split; reflexivity.
Qed.

Lemma raw_lengths (self self' : t C) (a : args) (raw : series)
    (k : key) :
  simulate_raw self a = Ok (self', raw) ->
  length (get k raw) = length (time raw).
Proof.
  intros E. destruct (raw_inv _ _ _ _ E) as (N & st & Inv & _ & ->).
  rewrite (trim_length _ _ _ _ k Inv).
  symmetry. apply (trim_length _ _ _ _ Time Inv).
Qed.

Lemma raw_time (self self' : t C) (a : args) (raw : series) (k : nat) :
  simulate_raw self a = Ok (self', raw) ->
  (k < length (time raw))%nat ->
  time raw !! k = Some (Qc_of_Z (Z.of_nat k) * time_step self).
Proof.
  intros E Hk. destruct (raw_inv _ _ _ _ E) as (N & st & Inv & _ & ->).
  pose proof (trim_length _ _ _ _ Time Inv) as HL. cbn in HL, Hk.
  rewrite (trim_lookup st Time) by lia.
  apply (inv_time _ _ _ _ Inv). lia.
Qed.

(** When every stage lasts a whole number of time steps and the
    step bound leaves room for them, the run records one sample per
    time step. *)
Lemma simulate_raw_exact (self : t C) (a : args) (good : C -> Prop)
    (stages : list (Qc * nat)) (num_steps : Z) :
  0 < time_step self ->
  (forall c sp m d,
     good c -> exists c' u, update c sp m d = Ok (c', u) /\ good c') ->
  good (reset (pid_controller self)) ->
  ThermalModel.total_heat_capacity (thermal_model self) <> 0 ->
  num_steps_of self a = Ok num_steps ->
  _build_protocol a = Runs.of_steps (time_step self) stages ->
  (Z.of_nat (sum_list (snd <$> stages)) <= num_steps)%Z ->
  exists self' raw,
    simulate_raw self a = Ok (self', raw)
    /\ length (time raw) = sum_list (snd <$> stages).
Proof.
  intros Hdt Hupdate Hgood HC Hns Hprot Hroom. unfold simulate_raw.
  rewrite Hns. cbn [Py.bind]. unfold Np.zeros.
  destruct (decide (num_steps < 0)%Z); [lia|]. cbn [Py.bind].
  remember (Z.to_nat num_steps) as N eqn:HN.
  assert (Hid : num_steps = Z.of_nat N) by lia. rewrite Hid, Hprot.
  destruct (run_stages_exact N (time_step self)
              (ThermalModel.reset (thermal_model self) None)
              good Hupdate HC Hdt stages N (start self (replicate N 0)))
    as (st & -> & Hstep & Inv);
    [apply start_inv | exact Hgood | cbn; lia | lia |].
  cbn [Py.bind]. eexists _, _. split; [reflexivity|].
  etransitivity; [exact (trim_length _ _ _ _ Time Inv) | exact Hstep].
Qed.

Lemma num_steps_of_eq (self : t C) (a : args) (num_steps : Z) :
  0 < time_step self ->
  Forall (fun stage : Qc * Qc => 0 < stage.2) (_build_protocol a) ->
  num_steps_of self a = Ok num_steps ->
  num_steps
  = (Py.floor (Py.sum (snd <$> _build_protocol a) / time_step self) + 1)%Z
  /\ (1 <= num_steps)%Z.
Proof.
  intros Hdt Hpos. unfold num_steps_of.
  rewrite div_ok by (intros E; qc_lra). cbn [Py.bind]. intros [= <-].
  assert (Hratio :
    0 <= Py.sum (snd <$> _build_protocol a) / time_step self).
  { apply div_nonneg; [|exact Hdt]. apply sum_nonneg.
    - apply Forall_fmap. exact Hpos.
    - apply Qcle_refl. }
  rewrite (int_floor _ Hratio). split; [reflexivity|].
  pose proof (Qfloor_resp_le _ _ Hratio) as Hfloor.
  change (Qfloor (Q2Qc 0)) with 0%Z in Hfloor. unfold Py.floor. lia.
Qed.

End Run.

End SimulatorFacts.

(** ** Downsampling *)

Module DownsampleFacts.
Import PCRSimulator.

Lemma floor_frac (n d : Z) :
  (0 < d)%Z -> Py.floor (Qc_of_Z n / Qc_of_Z d) = (n / d)%Z.
Proof.
  intros Hd. unfold Py.floor.
  assert (E : (this (Qc_of_Z n / Qc_of_Z d) == n # Z.to_pos d)%Q).
  { unfold Qcdiv, Qcmult, Qcinv, Q2Qc. cbn [this].
    rewrite !Qred_correct.
    rewrite (Qmake_Qdiv n (Z.to_pos d)). rewrite Z2Pos.id by exact Hd.
    reflexivity. }
  rewrite (Qfloor_comp _ _ E). cbn.
  rewrite Z2Pos.id by exact Hd. reflexivity.
Qed.

Lemma Qc_of_Z_nonneg (n : Z) : (0 <= n)%Z -> 0 <= Qc_of_Z n.
Proof.
  intros Hn. rewrite <- Z2Qc_inj_0. apply (proj1 (Z2Qc_inj_le _ _)), Hn.
Qed.

Lemma Qc_of_Z_pos (n : Z) : (0 < n)%Z -> 0 < Qc_of_Z n.
Proof.
  intros Hn. rewrite <- Z2Qc_inj_0. apply (proj1 (Z2Qc_inj_lt _ _)), Hn.
Qed.

Lemma int_Qc_of_Z (n : Z) : (0 <= n)%Z -> Py.int (Qc_of_Z n) = n.
Proof.
  intros Hn. rewrite SimulatorFacts.int_floor by apply Qc_of_Z_nonneg, Hn.
  apply Qfloor_Z.
Qed.

Lemma length_linspace_int (start stop : Qc) (num : nat) :
  length (Np.linspace_int start stop num) = num.
Proof.
  unfold Np.linspace_int.
  destruct (decide (0 < _)); destruct (decide (1 < num)%nat);
    rewrite !length_fmap, ?length_insert, ?length_fmap, length_seq;
    reflexivity.
Qed.

(** The indices [np.linspace(0, s, num, dtype=int)] selects. *)
Lemma linspace_int_lookup (s : Z) (num k : nat) :
  (0 <= s)%Z -> (2 <= num)%nat -> (k < num)%nat ->
  Np.linspace_int 0 (Qc_of_Z s) num !! k
  = Some ((Z.of_nat k * s) / (Z.of_nat num - 1))%Z.
Proof.
  intros Hs Hnum Hk. unfold Np.linspace_int.
  assert (Hdiv : 0 < Qc_of_Z (Z.of_nat num - 1)).
  { apply Qc_of_Z_pos. lia. }
  destruct (decide (0 < Qc_of_Z (Z.of_nat num - 1))); [|contradiction].
  destruct (decide (1 < num)%nat); [|lia].
  rewrite list_lookup_fmap.
  destruct (decide (k = pred num)) as [->|Hne].
  - rewrite list_lookup_insert_eq
      by (rewrite length_fmap, length_seq; lia).
    cbn. f_equal. rewrite int_Qc_of_Z by exact Hs.
    replace (Z.of_nat (pred num)) with (Z.of_nat num - 1)%Z by lia.
    rewrite Z.mul_comm, Z.div_mul by lia. reflexivity.
  - rewrite list_lookup_insert_ne by auto.
    rewrite list_lookup_fmap, lookup_seq_lt by exact Hk. cbn. f_equal.
    replace (Qc_of_Z (Z.of_nat k)
             * ((Qc_of_Z s - 0) / Qc_of_Z (Z.of_nat num - 1)) + 0)
      with (Qc_of_Z (Z.of_nat k * s) / Qc_of_Z (Z.of_nat num - 1)).
    2: { rewrite Z2Qc_inj_mul. field. intros E.
         rewrite E in Hdiv. exact (Qclt_not_eq _ _ Hdiv eq_refl). }
    rewrite SimulatorFacts.int_floor.
    + apply floor_frac. lia.
    + apply SimulatorFacts.div_nonneg; [|exact Hdiv].
      apply Qc_of_Z_nonneg. lia.
Qed.

Lemma take_indices_spec (data : list Qc) (indices : list Z) :
  Forall (fun i => (0 <= i < Z.of_nat (length data))%Z) indices ->
  exists out,
    Np.take_indices data indices = Ok out
    /\ length out = length indices
    /\ forall k i, indices !! k = Some i ->
                   out !! k = data !! Z.to_nat i.
Proof.
  induction 1 as [|i indices Hi _ (out & E & Hlen & Hout)]; cbn.
  - exists []. repeat split. intros k i Hk. discriminate.
  - unfold Np.getitem.
    destruct (decide (i < 0)%Z); [lia|]. cbv zeta.
    destruct (decide (i < 0)%Z); [lia|].
    destruct (data !! Z.to_nat i) as [v|] eqn:Ev.
    2: { apply lookup_ge_None in Ev. lia. }
    cbn. rewrite E. cbn. exists (v :: out). repeat split.
    + cbn. lia.
    + intros [|k] j Hk; cbn in *.
      * injection Hk as <-. symmetry. exact Ev.
      * apply Hout, Hk.
Qed.

(** [_downsample] on more than [max_points] values. *)
Lemma downsample_spec (data : list Qc) (max_points : nat) :
  (2 <= max_points)%nat -> (max_points < length data)%nat ->
  exists out,
    _downsample data max_points = Ok out
    /\ length out = max_points
    /\ forall k, (k < max_points)%nat ->
         out !! k
         = data !! Z.to_nat ((Z.of_nat k * (Z.of_nat (length data) - 1))
                             / (Z.of_nat max_points - 1)).
Proof.
  intros Hm HL. unfold _downsample.
  destruct (decide (length data <= max_points)%nat); [lia|].
  set (s := (Z.of_nat (length data) - 1)%Z).
  assert (Hs : (0 <= s)%Z) by (unfold s; lia).
  destruct (take_indices_spec data (Np.linspace_int 0 (Qc_of_Z s) max_points))
    as (out & E & Hlen & Hout).
  { apply Forall_lookup. intros k i Hi.
    assert (Hk : (k < max_points)%nat).
    { apply lookup_lt_Some in Hi. rewrite length_linspace_int in Hi.
      exact Hi. }
    rewrite linspace_int_lookup in Hi by assumption.
    injection Hi as <-. split.
    - apply Z.div_pos; lia.
    - apply Z.div_lt_upper_bound; [lia|]. unfold s. nia. }
  exists out. split; [exact E|]. split.
  - rewrite Hlen. apply length_linspace_int.
  - intros k Hk. apply Hout. apply linspace_int_lookup; assumption.
Qed.


Lemma floor_index_eq (L k : nat) :
  Runs.floor_index L k
  = Z.to_nat ((Z.of_nat k * (Z.of_nat L - 1)) / 4999).
Proof.
  unfold Runs.floor_index, Config.DOWNSAMPLE_THRESHOLD.
  rewrite floor_frac by lia. reflexivity.
Qed.

Lemma floor_index_lt (L k : nat) :
  (0 < L)%nat -> (Z.of_nat k < 5000)%Z -> (Runs.floor_index L k < L)%nat.
Proof.
  intros HL Hk. rewrite floor_index_eq.
  assert (((Z.of_nat k * (Z.of_nat L - 1)) / 4999 < Z.of_nat L)%Z).
  { apply Z.div_lt_upper_bound; [lia|]. nia. }
  assert ((0 <= (Z.of_nat k * (Z.of_nat L - 1)) / 4999)%Z).
  { apply Z.div_pos; [nia | lia]. }
  lia.
Qed.

(** What [_downsample] keeps of more than 5000 values. *)
Lemma downsample_index (data out : list Qc) :
  (Config.DOWNSAMPLE_THRESHOLD < Z.of_nat (length data))%Z ->
  _downsample data (Z.to_nat Config.DOWNSAMPLE_THRESHOLD) = Ok out ->
  Z.of_nat (length out) = Config.DOWNSAMPLE_THRESHOLD
  /\ forall k, (Z.of_nat k < Config.DOWNSAMPLE_THRESHOLD)%Z ->
       out !! k = data !! Runs.floor_index (length data) k.
Proof.
  unfold Config.DOWNSAMPLE_THRESHOLD. intros HL E.
  destruct (downsample_spec data (Z.to_nat 5000)) as (o & Eo & Hl & Ho);
    [lia | lia |].
  assert (o = out) by congruence. subst o. split; [lia|].
  intros k Hk. rewrite Ho by lia.
  rewrite floor_index_eq, Z2Nat.id by lia. reflexivity.
Qed.

Section WithController.

Context {C : Type} `{Controller C}.

Ltac downsample_step :=
  match goal with
  | |- context [_downsample ?d ?m] =>
      let o := fresh "o" in
      let Eo := fresh "Eo" in
      let Hl := fresh "Hl" in
      let Ho := fresh "Ho" in
      destruct (downsample_spec d m) as (o & Eo & Hl & Ho);
      [lia | lia | rewrite Eo; cbn [Py.bind]]
  end.

(** On a raw series of more than 5000 samples [simulate] returns
    what [_downsample] makes of each of the eight arrays. *)
Lemma simulate_downsampled (self self' : t C) (a : args)
    (raw : series) :
  simulate_raw self a = Ok (self', raw) ->
  (Config.DOWNSAMPLE_THRESHOLD < Z.of_nat (length (time raw)))%Z ->
  exists out,
    simulate self a = Ok (self', out)
    /\ forall key,
         _downsample (get key raw)
                     (Z.to_nat Config.DOWNSAMPLE_THRESHOLD)
         = Ok (get key out).
Proof.
  intros E HL. unfold Config.DOWNSAMPLE_THRESHOLD in *.
  pose proof (SimulatorFacts.raw_lengths _ _ _ _ Temperature E) as HT.
  pose proof (SimulatorFacts.raw_lengths _ _ _ _ Setpoint E) as Hs.
  pose proof (SimulatorFacts.raw_lengths _ _ _ _ Control E) as Hc.
  pose proof (SimulatorFacts.raw_lengths _ _ _ _ Error E) as He.
  pose proof (SimulatorFacts.raw_lengths _ _ _ _ P_term E) as Hp.
  pose proof (SimulatorFacts.raw_lengths _ _ _ _ I_term E) as Hi.
  pose proof (SimulatorFacts.raw_lengths _ _ _ _ D_term E) as Hd.
  cbn [get] in HT, Hs, Hc, He, Hp, Hi, Hd.
  unfold simulate. rewrite E. cbn [Py.bind]. unfold downsample_all.
  unfold Config.DOWNSAMPLE_THRESHOLD.
  destruct (decide (5000 < Z.of_nat (length (time raw)))%Z); [|lia].
  cbv zeta. do 8 downsample_step.
  eexists. split; [reflexivity|].
  intros []; cbn [get time temperature setpoint control error
                  p_term i_term d_term]; assumption.
Qed.

End WithController.


(** The run of the default simulator on the standard protocol records
    47400 samples. *)
Lemma default_run :
  exists self' raw,
    simulate_raw Runs.default_sim Runs.default_args = Ok (self', raw)
    /\ Z.of_nat (length (time raw)) = 47400%Z.
Proof.
  destruct (SimulatorFacts.simulate_raw_exact
              Runs.default_sim Runs.default_args
              (fun c => PIDController.kp c <> 0)
              (Runs.stage_steps Config.TIME_STEP
                 (_build_protocol Runs.default_args))
              47401)
    as (self' & raw & E & HL);
    [vm_decide | exact PIDFacts.update_good | vm_decide | vm_decide
    |vm_decide | vm_decide | vm_decide |].
  exists self', raw. split; [exact E|]. rewrite HL.
  vm_compute. reflexivity.
Qed.

(** C1, as the code has it.  When the raw series of a run have length
    [L > 5000], [simulate] returns eight series of exactly 5000 points,
    and in each of them the value at index [k] is the raw value at
    index [floor(k * (L - 1) / 4999)]: one index set for all eight. *)
Theorem downsample_floor {C : Type} `{Controller C}
    (self self' : t C) (a : args) (raw : series) :
  simulate_raw self a = Ok (self', raw) ->
  let L := length (time raw) in
  (Config.DOWNSAMPLE_THRESHOLD < Z.of_nat L)%Z ->
  exists out,
    simulate self a = Ok (self', out)
    /\ forall key,
         Z.of_nat (length (get key out)) = Config.DOWNSAMPLE_THRESHOLD
         /\ forall k, (Z.of_nat k < Config.DOWNSAMPLE_THRESHOLD)%Z ->
              (Runs.floor_index L k < L)%nat
              /\ get key out !! k = get key raw !! Runs.floor_index L k.
Proof.
  intros E L HL.
  destruct (simulate_downsampled _ _ _ _ E HL) as (out & Es & Hout).
  exists out. split; [exact Es|]. intros key.
  assert (Hlen : length (get key raw) = L).
  { apply (SimulatorFacts.raw_lengths _ _ _ _ key E). }
  destruct (downsample_index (get key raw) (get key out)) as [Hn Hk].
  { rewrite Hlen. exact HL. }
  { apply Hout. }
  split; [exact Hn|]. intros k Hlt. split.
  - apply floor_index_lt; [|exact Hlt].
    unfold Config.DOWNSAMPLE_THRESHOLD in HL. lia.
  - rewrite (Hk k Hlt), Hlen. reflexivity.
Qed.

Lemma downsample_floor_witness :
  exists self' raw out,
    simulate_raw Runs.default_sim Runs.default_args = Ok (self', raw)
    /\ simulate Runs.default_sim Runs.default_args = Ok (self', out)
    /\ Z.of_nat (length (temperature out)) = 5000%Z
    /\ temperature out !! 2%nat
       = temperature raw !! Runs.floor_index (length (time raw)) 2.
Proof.
  destruct default_run as (self' & raw & E & HL).
  destruct (downsample_floor _ _ _ _ E) as (out & Es & Hout).
  { rewrite HL. reflexivity. }
  exists self', raw, out. split; [exact E|]. split; [exact Es|].
  destruct (Hout Temperature) as [Hlen Hk]. split; [exact Hlen|].
  apply Hk. reflexivity.
Defined.

(** C1, as the specification has it, fails on the default run: the
    downsampled time at index 2 is the raw time at index 18, which is
    1.8 s, while [round(2 * 47399 / 4999) = 19] names the raw time
    1.9 s. *)
Lemma downsample_round_counterexample :
  exists self' raw out,
    simulate_raw Runs.default_sim Runs.default_args = Ok (self', raw)
    /\ (Config.DOWNSAMPLE_THRESHOLD < Z.of_nat (length (time raw)))%Z
    /\ simulate Runs.default_sim Runs.default_args = Ok (self', out)
    /\ time out !! 2%nat = Some (real 1.8)
    /\ time raw !! Runs.round_index (length (time raw)) 2
       = Some (real 1.9)
    /\ time out !! 2%nat
       <> time raw !! Runs.round_index (length (time raw)) 2.
Proof.
  destruct default_run as (self' & raw & E & HL).
  destruct (simulate_downsampled _ _ _ _ E) as (out & Es & Hout).
  { rewrite HL. reflexivity. }
  exists self', raw, out.
  assert (Hfloor : Runs.floor_index (length (time raw)) 2 = 18%nat).
  { rewrite floor_index_eq, HL. reflexivity. }
  assert (Hround : Runs.round_index (length (time raw)) 2 = 19%nat).
  { unfold Runs.round_index. rewrite HL. vm_compute. reflexivity. }
  assert (H18 : time out !! 2%nat = Some (real 1.8)).
  { destruct (downsample_index (time raw) (time out)) as [_ Hk];
      [rewrite HL; reflexivity | exact (Hout Time) |].
    rewrite (Hk 2%nat) by reflexivity.
    rewrite Hfloor, (SimulatorFacts.raw_time _ _ _ _ 18 E) by lia.
    apply (f_equal Some), Qc_is_canon. reflexivity. }
  assert (H19 : time raw !! Runs.round_index (length (time raw)) 2
                = Some (real 1.9)).
  { rewrite Hround, (SimulatorFacts.raw_time _ _ _ _ 19 E) by lia.
    apply (f_equal Some), Qc_is_canon. reflexivity. }
  split; [exact E|]. split; [rewrite HL; reflexivity|].
  split; [exact Es|]. split; [exact H18|]. split; [exact H19|].
  rewrite H18, H19. intros Heq.
  assert (Hq := f_equal (fun o : option Qc =>
                           match o with Some q => this q | None => 0%Q end)
                        Heq).
  vm_compute in Hq. discriminate Hq.
Qed.

End DownsampleFacts.

(** ** Repeated runs *)

Module DeterminismFacts.
Import PCRSimulator Setup.

Lemma same_plant_reset (p1 p2 : ThermalModel.t) :
  same_plant p1 p2 ->
  ThermalModel.reset p1 None = ThermalModel.reset p2 None.
Proof. intros [T ->]. reflexivity. Qed.

Lemma same_plant_refl (p : ThermalModel.t) : same_plant p p.
Proof. exists (ThermalModel.temperature p). destruct p; reflexivity. Qed.

Lemma same_plant_trans (p1 p2 p3 : ThermalModel.t) :
  same_plant p1 p2 -> same_plant p2 p3 -> same_plant p1 p3.
Proof. intros [T1 ->] [T2 ->]. exists T1. reflexivity. Qed.

Section WithController.

Context {C : Type} `{Controller C}.

Variable same_config : C -> C -> Prop.

Hypothesis same_config_equiv : Equivalence same_config.

Hypothesis reset_canonical : forall c1 c2,
  same_config c1 c2 -> reset c1 = reset c2.

Hypothesis reset_config : forall c, same_config (reset c) c.

Hypothesis update_config : forall c sp m dt c' u,
  update c sp m dt = Ok (c', u) -> same_config c' c.

Lemma start_same (s1 s2 : t C) (zeros : list Qc) :
  same_setup same_config s1 s2 -> start s1 zeros = start s2 zeros.
Proof.
  intros (Hplant & Hctrl & Hdt). unfold start.
  rewrite (same_plant_reset _ _ Hplant), (reset_canonical _ _ Hctrl), Hdt.
  reflexivity.
Qed.

Lemma simulate_raw_same (s1 s2 : t C) (a : args) :
  same_setup same_config s1 s2 -> simulate_raw s1 a = simulate_raw s2 a.
Proof.
  intros Hsame. unfold simulate_raw.
  assert (Hns : num_steps_of s1 a = num_steps_of s2 a).
  { unfold num_steps_of. destruct Hsame as (_ & _ & ->). reflexivity. }
  rewrite Hns. destruct (num_steps_of s2 a) as [ns| |]; cbn; trivial.
  destruct (Np.zeros ns) as [zeros| |]; cbn; trivial.
  rewrite (start_same _ _ zeros Hsame). reflexivity.
Qed.

Lemma simulate_same (s1 s2 : t C) (a : args) :
  same_setup same_config s1 s2 -> simulate s1 a = simulate s2 a.
Proof.
  intros Hsame. unfold simulate.
  rewrite (simulate_raw_same _ _ a Hsame). reflexivity.
Qed.

Lemma loop_body_config (stage_temp : Qc) (st st' : loop_state C) :
  loop_body stage_temp st = Ok st' ->
  same_config (pid_controller (sim st')) (pid_controller (sim st)).
Proof.
  unfold loop_body. intros E.
  destruct (update _ _ _ _) as [[ctrl u]| |] eqn:Eu;
    cbn in E; try discriminate.
  apply update_config in Eu.
  destruct (ThermalModel.update _ _ _) as [[plant T']| |];
    cbn in E; try discriminate.
  destruct (get_components ctrl) as [[p i] d].
  repeat (destruct (Np.setitem _ _ _); cbn in E; try discriminate).
  injection E as <-. exact Eu.
Qed.

Lemma iterations_config (n : nat) (st st' : loop_state C) :
  iterations n st st' ->
  same_config (pid_controller (sim st')) (pid_controller (sim st)).
Proof.
  induction 1 as [st|n sp st st1 st2 E _ IH].
  - reflexivity.
  - etransitivity; [exact IH|]. exact (loop_body_config _ _ _ E).
Qed.

(** A run leaves the configuration of the simulator as it was. *)
Lemma simulate_raw_setup (s s' : t C) (a : args) (raw : series) :
  simulate_raw s a = Ok (s', raw) -> same_setup same_config s' s.
Proof.
  intros E.
  destruct (SimulatorFacts.simulate_raw_inv _ _ _ _ E)
    as (ns & st & _ & Hge & Er & -> & _).
  remember (Z.to_nat ns) as N eqn:HN.
  assert (Hid : ns = Z.of_nat N) by lia. rewrite Hid in Er.
  destruct (SimulatorFacts.run_stages_inv N _ _ _ _ _ _
              (SimulatorFacts.start_inv s N) Er)
    as (Inv & n & Hit & _).
  split; [|split].
  - rewrite (inv_plant _ _ _ _ Inv).
    exists (ThermalModel.temperature (thermal_model (sim st))).
    reflexivity.
  - etransitivity; [exact (iterations_config _ _ _ Hit)|].
    apply reset_config.
  - exact (inv_dt _ _ _ _ Inv).
Qed.

Lemma simulate_setup (s s' : t C) (a : args) (r : series) :
  simulate s a = Ok (s', r) -> same_setup same_config s' s.
Proof.
  unfold simulate. intros E.
  destruct (simulate_raw s a) as [[s1 raw]| |] eqn:Eraw;
    cbn in E; try discriminate.
  destruct (downsample_all raw); cbn in E; try discriminate.
  injection E as <- _. exact (simulate_raw_setup _ _ _ _ Eraw).
Qed.

Lemma same_setup_trans (s1 s2 s3 : t C) :
  same_setup same_config s1 s2 -> same_setup same_config s2 s3 ->
  same_setup same_config s1 s3.
Proof.
  intros (Hp & Hc & Hd) (Hp' & Hc' & Hd'). split; [|split].
  - exact (same_plant_trans _ _ _ Hp Hp').
  - etransitivity; eassumption.
  - congruence.
Qed.

(** C10.  Because [simulate] resets the plant (to ambient) and the
    controller before it steps, what it returns depends on the
    simulator's configuration and on the arguments only: after a call
    with arguments [a], and whatever call came in between, a call
    with [a] again returns the same series and leaves the same
    state; and so does a call on any simulator of the same
    configuration, whatever state its plant and controller are
    in. *)
Theorem simulate_deterministic (self self1 self2 : t C) (a b : args)
    (r1 r2 : series) :
  simulate self a = Ok (self1, r1) ->
  simulate self1 b = Ok (self2, r2) ->
  simulate self1 a = Ok (self1, r1)
  /\ simulate self2 a = Ok (self1, r1)
  /\ forall other,
       same_setup same_config other self ->
       simulate other a = Ok (self1, r1).
Proof.
  intros Ea Eb.
  pose proof (simulate_setup _ _ _ _ Ea) as H1.
  pose proof (simulate_setup _ _ _ _ Eb) as H2.
  split; [|split].
  - rewrite (simulate_same _ _ a H1). exact Ea.
  - rewrite (simulate_same _ _ a (same_setup_trans _ _ _ H2 H1)).
    exact Ea.
  - intros other Hother. rewrite (simulate_same _ _ a Hother). exact Ea.
Qed.

End WithController.

Lemma pid_same_config_equiv : Equivalence pid_same_config.
Proof.
  unfold pid_same_config. split.
  - intros c. repeat split.
  - intros c1 c2 (-> & -> & -> & -> & ->). repeat split.
  - intros c1 c2 c3 (-> & -> & -> & -> & ->) H. exact H.
Qed.

Lemma pid_reset_canonical (c1 c2 : PIDController.t) :
  pid_same_config c1 c2 -> reset c1 = reset c2.
Proof.
  intros (Hkp & Hti & Htd & Hmin & Hmax). cbn.
  unfold PIDController.reset, PIDController.with_state.
  rewrite Hkp, Hti, Htd, Hmin, Hmax. reflexivity.
Qed.

Lemma pid_reset_config (c : PIDController.t) :
  pid_same_config (reset c) c.
Proof. repeat split. Qed.

Lemma pid_update_config (c : PIDController.t) (sp m dt : Qc)
    (c' : PIDController.t) (u : Qc) :
  update c sp m dt = Ok (c', u) -> pid_same_config c' c.
Proof. exact (PIDFacts.update_config c c' sp m dt u). Qed.

Lemma fuzzy_same_config_equiv : Equivalence fuzzy_same_config.
Proof.
  unfold fuzzy_same_config. split.
  - intros c. repeat split.
  - intros c1 c2 (-> & -> & ->). repeat split.
  - intros c1 c2 c3 (-> & -> & ->) H. exact H.
Qed.

Lemma fuzzy_reset_canonical (c1 c2 : FuzzyController.t) :
  fuzzy_same_config c1 c2 -> reset c1 = reset c2.
Proof.
  intros (Hmin & Hmax & Hu). cbn. unfold FuzzyController.reset.
  rewrite Hmin, Hmax, Hu. reflexivity.
Qed.

Lemma fuzzy_reset_config (c : FuzzyController.t) :
  fuzzy_same_config (reset c) c.
Proof. repeat split. Qed.

Lemma fuzzy_update_config (c : FuzzyController.t) (sp m dt : Qc)
    (c' : FuzzyController.t) (u : Qc) :
  update c sp m dt = Ok (c', u) -> fuzzy_same_config c' c.
Proof.
  intros E.
  destruct (FuzzyFacts.update_ok c sp m dt)
    as (c'' & u_norm & E' & Hmin & Hmax & Hu & _).
  cbn in E. rewrite E' in E. injection E as <- _.
  repeat split; assumption.
Qed.

(** The run of [Runs.short_sim] on [Runs.short_args], twice. *)
Lemma simulate_deterministic_witness :
  exists self1 r1,
    simulate Runs.short_sim Runs.short_args = Ok (self1, r1)
    /\ simulate self1 Runs.short_args = Ok (self1, r1).
Proof.
  destruct (simulate Runs.short_sim Runs.short_args)
    as [[self1 r1]| |] eqn:E.
  - exists self1, r1. split; [reflexivity|].
    assert (E1 : simulate self1 Runs.short_args = Ok (self1, r1)).
    { rewrite (simulate_same pid_same_config pid_reset_canonical
                 self1 Runs.short_sim).
      - exact E.
      - exact (simulate_setup pid_same_config pid_same_config_equiv
                 pid_reset_config pid_update_config _ _ _ _ E). }
    exact (proj1 (simulate_deterministic pid_same_config
                    pid_same_config_equiv pid_reset_canonical
                    pid_reset_config pid_update_config
                    Runs.short_sim self1 self1 Runs.short_args
                    Runs.short_args r1 r1 E E1)).
  - exfalso. vm_compute in E. discriminate E.
  - exfalso. vm_compute in E. discriminate E.
Defined.

End DeterminismFacts.

(** ** Binary64 comparisons *)

Module Float64Facts.
Local Open Scope float_scope.

Lemma SFcompare_antisym (x y : spec_float) :
  SFcompare y x = option_map CompOpp (SFcompare x y).
Proof.
  destruct x as [sx|sx| |sx mx ex], y as [sy|sy| |sy my ey]; cbn;
    try reflexivity;
    try (destruct sx; reflexivity); try (destruct sy; reflexivity);
    try (destruct sx, sy; reflexivity).
  rewrite (Z.compare_antisym ey ex).
  change (PosDef.Pos.compare_cont Eq my mx) with (Pos.compare my mx).
  change (PosDef.Pos.compare_cont Eq mx my) with (Pos.compare mx my).
  rewrite (Pos.compare_antisym my mx).
  destruct sx, sy, (ey ?= ex)%Z, (my ?= mx)%positive; reflexivity.
Qed.

Lemma SFcompare_refl (x : spec_float) :
  x <> S754_nan -> SFcompare x x = Some Eq.
Proof.
  destruct x as [s|s| |s m e]; cbn; intros Hx;
    [reflexivity | destruct s; reflexivity | contradiction |].
  rewrite Z.compare_refl.
  change (PosDef.Pos.compare_cont Eq m m) with (Pos.compare m m).
  rewrite Pos.compare_refl. destruct s; reflexivity.
Qed.

(** [x <= y] excludes [y < x]. *)
Lemma leb_not_gt (x y : float) : (x <=? y) = true -> (y <? x) = false.
Proof.
  rewrite FloatAxioms.leb_spec, FloatAxioms.ltb_spec. unfold SFleb, SFltb.
  rewrite (SFcompare_antisym (Prim2SF x) (Prim2SF y)).
  destruct (SFcompare (Prim2SF x) (Prim2SF y)) as [[]|];
    cbn; congruence.
Qed.

(** [x <= y] without [x < y] is [y == x]. *)
Lemma leb_not_lt_eqb (x y : float) :
  (x <=? y) = true -> (x <? y) = false -> (y =? x) = true.
Proof.
  rewrite FloatAxioms.leb_spec, FloatAxioms.ltb_spec, FloatAxioms.eqb_spec. unfold SFleb, SFltb, SFeqb.
  rewrite (SFcompare_antisym (Prim2SF x) (Prim2SF y)).
  destruct (SFcompare (Prim2SF x) (Prim2SF y)) as [[]|];
    cbn; congruence.
Qed.

(** A number that is compared with success is equal to itself. *)
Lemma leb_eqb_refl (x y : float) : (x <=? y) = true -> (y =? y) = true.
Proof.
  rewrite FloatAxioms.leb_spec, FloatAxioms.eqb_spec. unfold SFleb, SFeqb. intros H.
  rewrite SFcompare_refl; [reflexivity|].
  intros E. rewrite E in H. destruct (Prim2SF x); discriminate.
Qed.



(** [==] does not depend on the order of its arguments. *)
Lemma eqb_sym (x y : float) : (x =? y) = (y =? x).
Proof.
  rewrite !FloatAxioms.eqb_spec. unfold SFeqb.
  rewrite (SFcompare_antisym (Prim2SF x) (Prim2SF y)).
  destruct (SFcompare (Prim2SF x) (Prim2SF y)) as [[]|]; reflexivity.
Qed.

(** A value within the limits is its own clamp, up to the sign of a
    zero. *)
Lemma clamp_of_within (lo hi x : float) :
  (lo <=? x) = true -> (x <=? hi) = true ->
  (Py64.max lo (Py64.min x hi) =? x) = true.
Proof.
  intros Hlo Hhi. unfold Py64.max, Py64.min.
  rewrite (leb_not_gt _ _ Hhi).
  destruct (lo <? x) eqn:Hlt.
  - exact (leb_eqb_refl _ _ Hlo).
  - rewrite FloatAxioms.eqb_spec. unfold SFeqb.
    rewrite (SFcompare_antisym (Prim2SF x) (Prim2SF lo)).
    pose proof (leb_not_lt_eqb _ _ Hlo Hlt) as E.
    rewrite FloatAxioms.eqb_spec in E. unfold SFeqb in E.
    destruct (SFcompare (Prim2SF x) (Prim2SF lo)) as [[]|];
      cbn in *; congruence.
Qed.

End Float64Facts.

(** ** PID controller on binary64 numbers *)

Module PID64Facts.

(** What the first half of [update] leaves. *)
Lemma compute_terms_inv (self s1 : PIDController64.t) (sp m dt : float) :
  PIDController64.compute_terms self sp m dt = Py64.Ok s1 ->
  PIDController64.kp s1 = PIDController64.kp self
  /\ PIDController64.ti s1 = PIDController64.ti self
  /\ PIDController64.output_min s1 = PIDController64.output_min self
  /\ PIDController64.output_max s1 = PIDController64.output_max self
  /\ PIDController64.p_term s1 = (sp - m)%float
  /\ PIDController64.integral s1
     = (PIDController64.integral self + (sp - m) * dt)%float.
Proof.
  unfold PIDController64.compute_terms. intros E.
  destruct (if (0 <? PIDController64.ti self)%float
            then Py64.div _ _ else Py64.Ok 0%float) as [i| |];
    cbn [Py64.bind] in E; try discriminate.
  destruct (if (0 <? dt)%float then _ else _) as [[d pd]| |];
    cbn [Py64.bind] in E; try discriminate.
  injection E as <-. cbn. auto 10.
Qed.

(** C3, as the code has it.  In binary64, when the raw output
    [Kp * (p_term + i_term + d_term)] differs from its clamp and
    [Ti > 0] and [Kp] is not zero, [update] returns the clamped output
    and stores [integral = (output_clamped / Kp - p_term - d_term) * Ti]
    and [i_term = output_clamped / Kp - p_term - d_term], each
    operation rounded; when the raw output is within the limits, the
    clamp compares equal to it and the integral is what was
    accumulated, [integral + error * dt].  That
    [Kp * (p_term + integral / Ti + d_term)] is the clamped output
    holds of the same formulas over the rationals, not of the rounded
    ones. *)
Theorem anti_windup_back_calculation :
  (* in binary64 *)
  (forall (self s1 : PIDController64.t) (sp m dt : float),
     PIDController64.compute_terms self sp m dt = Py64.Ok s1 ->
     let output := PIDController64.raw_output s1 in
     let output_clamped := PIDController64.clamp_output s1 output in
     ((output =? output_clamped)%float = false ->
      (0 <? PIDController64.ti self)%float = true ->
      (PIDController64.kp self =? 0)%float = false ->
      exists self',
        PIDController64.update self sp m dt
        = Py64.Ok (self', output_clamped)
        /\ PIDController64.integral self'
           = ((output_clamped / PIDController64.kp self
               - PIDController64.p_term s1 - PIDController64.d_term s1)
              * PIDController64.ti self)%float
        /\ PIDController64.i_term self'
           = (output_clamped / PIDController64.kp self
              - PIDController64.p_term s1
              - PIDController64.d_term s1)%float
        /\ PIDController64.p_term self' = PIDController64.p_term s1
        /\ PIDController64.d_term self' = PIDController64.d_term s1)
     /\ ((PIDController64.output_min self <=? output)%float = true ->
         (output <=? PIDController64.output_max self)%float = true ->
         exists self',
           PIDController64.update self sp m dt
           = Py64.Ok (self', output_clamped)
           /\ (output_clamped =? output)%float = true
           /\ PIDController64.integral self'
              = (PIDController64.integral self + (sp - m) * dt)%float))
  (* over the rationals *)
  /\ (forall (self s1 : PIDController.t) (sp m dt : Qc),
        PIDController.compute_terms self sp m dt = Ok s1 ->
        let output := PIDController.raw_output s1 in
        let output_clamped := PIDController.clamp_output s1 output in
        output <> output_clamped ->
        (0 < PIDController.ti self)%Qc -> PIDController.kp self <> 0%Qc ->
        exists self',
          PIDController.update self sp m dt = Ok (self', output_clamped)
          /\ PIDController.integral self'
             = ((output_clamped / PIDController.kp self
                 - PIDController.p_term s1 - PIDController.d_term s1)
                * PIDController.ti self)%Qc
          /\ (PIDController.kp self
              * (PIDController.p_term self'
                 + PIDController.integral self' / PIDController.ti self
                 + PIDController.d_term self'))%Qc
             = output_clamped).
Proof.
  split.
  - intros self s1 sp m dt E output output_clamped.
    destruct (compute_terms_inv _ _ _ _ _ E)
      as (Ekp & Eti & Emin & Emax & _ & Eint).
    split.
    + intros Hne Hti Hkp. unfold PIDController64.update.
      rewrite E. cbn [Py64.bind]. fold output. fold output_clamped.
      unfold PIDController64.saturated. rewrite Hne, Eti, Hti.
      cbn [negb andb]. unfold PIDController64.back_calculate, Py64.div.
      rewrite Ekp, Hkp. cbn [Py64.bind]. eexists. split; [reflexivity|].
      cbn. rewrite Eti. auto.
    + intros Hlo Hhi.
      assert (Hc : (output_clamped =? output)%float = true).
      { unfold output_clamped, PIDController64.clamp_output.
        rewrite Emin, Emax. apply Float64Facts.clamp_of_within; assumption. }
      assert (Hs : PIDController64.saturated s1 output output_clamped
                   = false).
      { unfold PIDController64.saturated.
        rewrite (Float64Facts.eqb_sym output output_clamped), Hc.
        reflexivity. }
      unfold PIDController64.update.
      rewrite E. cbn [Py64.bind]. fold output. fold output_clamped.
      rewrite Hs. cbn [Py64.bind]. eexists. split; [reflexivity|].
      split; [exact Hc | exact Eint].
  - intros self s1 sp m dt E output output_clamped Hne Hti Hkp.
    destruct (PIDFacts.compute_terms_ok self sp m dt)
      as (s1' & E' & Ekp & Eti & _).
    assert (s1' = s1) by congruence. subst s1'.
    assert (Hs : PIDController.saturated s1 output output_clamped = true).
    { apply PIDFacts.saturated_true. rewrite Eti. split; assumption. }
    rewrite (PIDFacts.update_saturated _ _ _ _ _ E Hs).
    unfold PIDController.back_calculate.
    rewrite div_ok by (rewrite Ekp; exact Hkp). cbn.
    eexists. split; [reflexivity|]. cbn. rewrite Ekp, Eti.
    split; [reflexivity|].
    fold output. fold output_clamped.
    field. split; first [exact Hkp | apply PIDFacts.pos_nonzero, Hti].
Qed.

Lemma anti_windup_back_calculation_witness :
  exists self',
    PIDController64.update PIDController64.default 95 22 0.1
    = Py64.Ok (self', 250%float)
    /\ PIDController64.integral self' = (-7369.875)%float.
Proof.
  destruct anti_windup_back_calculation as [Hcode _].
  destruct (PIDController64.compute_terms PIDController64.default 95 22 0.1)
    as [s1| |] eqn:E; [|exfalso; vm_compute in E; discriminate E..].
  destruct (Hcode _ _ _ _ _ E) as [Hsat _].
  destruct Hsat as (self' & Eu & Hint & _);
    [vm_compute in E; injection E as <-; reflexivity..|].
  exists self'. vm_compute in E. injection E as <-.
  split; [exact Eu | exact Hint].
Defined.

(** C3, as the claim has it, fails in binary64: the controller with
    [Kp = 3] and the other arguments at their defaults, called with
    setpoint 95, measurement 22 and [dt = 0.1], saturates at 250 and
    stores an integral for which
    [Kp * (p_term + integral / Ti + d_term)] is 249.99999999999909. *)
Lemma back_calculation_not_exact :
  exists s1 self',
    PIDController64.compute_terms Cases64.gain_three 95 22 0.1
    = Py64.Ok s1
    /\ (PIDController64.raw_output s1
        =? PIDController64.clamp_output s1
             (PIDController64.raw_output s1))%float = false
    /\ (0 <? PIDController64.ti Cases64.gain_three)%float = true
    /\ (PIDController64.kp Cases64.gain_three =? 0)%float = false
    /\ PIDController64.update Cases64.gain_three 95 22 0.1
       = Py64.Ok (self', 250%float)
    /\ (PIDController64.kp self'
        * (PIDController64.p_term self'
           + PIDController64.integral self' / PIDController64.ti self'
           + PIDController64.d_term self'))%float
       = 249.99999999999909%float
    /\ (249.99999999999909 =? 250)%float = false.
Proof.
  eexists _, _. split; [vm_compute; reflexivity|].
  split; [reflexivity|]. split; [reflexivity|]. split; [reflexivity|].
  split; [vm_compute; reflexivity|]. split; reflexivity.
Qed.

End PID64Facts.

(** ** Simulation loop on binary64 numbers *)

Module Simulator64Facts.
Import Py64 PCRSimulator64.
Import PCRSimulator(key, Time, Temperature, Setpoint, Control, Error,
                    P_term, I_term, D_term).
Local Open Scope float_scope.




Section WithController.

Context {C : Type} `{Controller C}.

Variables (N : nat) (dt : float) (plant0 : ThermalModel64.t).









End WithController.

Section Run.

Context {C : Type} `{Controller C}.






End Run.

End Simulator64Facts.

(** ** The raw series, with rounding and without *)

Module RawSeriesFacts.
Import PCRSimulator.

(** Over the rationals, too, a first stage of positive duration takes
    a pass. *)
Lemma run_stages_first {C : Type} `{Controller C}
    (N fuel : nat) (dt : Qc) (plant0 : ThermalModel.t) (sp d : Qc)
    (protocol : list (Qc * Qc)) (st st' : loop_state C) :
  loop_inv N dt plant0 st ->
  step st = O -> (0 < N)%nat -> 0 < d ->
  run_stages fuel (Z.of_nat N) ((sp, d) :: protocol) st = Ok st' ->
  (1 <= step st')%nat.
Proof.
  intros Inv H0 HN Hd E. cbn [run_stages] in E.
  destruct (stage_loop _ _ _ _ _) as [st1| |] eqn:Es;
    cbn [Py.bind] in E; try discriminate.
  destruct (SimulatorFacts.stage_loop_inv _ _ _ _ _ _ _ _ Inv Es)
    as (Inv1 & _).
  destruct (SimulatorFacts.run_stages_inv _ _ _ _ _ _ _ Inv1 E)
    as (_ & n & _ & Hn).
  enough (1 <= step st1)%nat by lia.
  assert (Hguard : current_time st < current_time st + d
                   /\ (Z.of_nat (step st) < Z.of_nat N)%Z).
  { split; [qc_lra | lia]. }
  destruct fuel as [|fuel]; cbn [stage_loop] in Es;
    (destruct (decide _) as [_|Hno] in Es; [|contradiction]);
    [discriminate|].
  destruct (loop_body sp st) as [st2| |] eqn:Eb;
    cbn [Py.bind] in Es; try discriminate.
  destruct (SimulatorFacts.loop_body_inv _ _ _ _ _ _ Inv ltac:(lia) Eb)
    as (Inv2 & Hstep & _).
  destruct (SimulatorFacts.stage_loop_inv _ _ _ _ _ _ _ _ Inv2 Es)
    as (_ & n' & _ & Hn').
  lia.
Qed.







End RawSeriesFacts.

(** * Further properties *)

(** ** Thermal plant: edge cases and open-loop behaviour *)

Module ThermalExtras.
Import ThermalModel.

Lemma applied_power_bounds (u heat cool : Qc) :
  0 <= heat -> 0 <= cool ->
  - cool <= (if decide (0 < u) then Py.min u heat else Py.max u (- cool))
  <= heat.
Proof.
  intros Hh Hc.
  destruct (decide (0 < u)) as [Hu|Hu]; [|apply Qcle_ngt in Hu].
  - destruct (min_cases u heat) as [[? ->]|[? ->]]; split; qc_lra.
  - destruct (max_cases u (- cool)) as [[? ->]|[? ->]]; split; qc_lra.
Qed.

Lemma applied_power_mono (u1 u2 heat cool : Qc) :
  0 <= heat -> 0 <= cool -> u1 <= u2 ->
  (if decide (0 < u1) then Py.min u1 heat else Py.max u1 (- cool))
  <= (if decide (0 < u2) then Py.min u2 heat else Py.max u2 (- cool)).
Proof.
  intros Hh Hc Hu.
  destruct (decide (0 < u1)) as [H1|H1]; [|apply Qcle_ngt in H1];
    (destruct (decide (0 < u2)) as [H2|H2]; [|apply Qcle_ngt in H2]);
    try (destruct (min_cases u1 heat) as [[? ->]|[? ->]]);
    try (destruct (min_cases u2 heat) as [[? ->]|[? ->]]);
    try (destruct (max_cases u1 (- cool)) as [[? ->]|[? ->]]);
    try (destruct (max_cases u2 (- cool)) as [[? ->]|[? ->]]);
    qc_lra.
Qed.

(** X1.  [update] and [get_derivative] divide by
    [total_heat_capacity], which the constructor copies from
    [heat_capacity] without a check: on a plant whose heat capacity is 0
    both raise [ZeroDivisionError]; on any other plant [update] returns,
    what it returns is the temperature it stored, and no other field
    changes; so a plant built by the constructor fails to update
    exactly when its [heat_capacity] argument is 0. *)
Theorem update_zero_capacity (self : t) (u dt : Qc) :
  (total_heat_capacity self = 0 ->
   get_derivative self u = Raise ZeroDivisionError
   /\ update self u dt = Raise ZeroDivisionError)
  /\ (total_heat_capacity self <> 0 ->
      exists T', update self u dt = Ok (set_temperature self T', T'))
  /\ (forall C h c k amb v rho cp T0,
        update (init C h c k amb v rho cp T0) u dt
        = Raise ZeroDivisionError <-> C = 0).
Proof.
  split; [|split].
  - intros HC. unfold update, get_derivative. rewrite HC, div_zero.
    split; reflexivity.
  - intros HC. unfold update, get_derivative.
    rewrite div_ok by exact HC. cbn. eauto.
  - intros C h c k amb v rho cp T0. unfold update, get_derivative.
    cbn [total_heat_capacity init]. unfold Py.div.
    destruct (decide (C = 0)) as [HC|HC]; cbn; split; intros H;
      first [reflexivity | assumption | discriminate | contradiction].
Qed.

Lemma update_zero_capacity_witness :
  update (init 0 (real 250) (real 150) (real 1.5) (real 22)
               (real (5 # 1000000)) (real 1000) (real 4100) (real 22))
         (real 250) (real 0.1)
  = Raise ZeroDivisionError.
Proof.
  apply (proj1 (update_zero_capacity
                  (init 0 (real 250) (real 150) (real 1.5) (real 22)
                        (real (5 # 1000000)) (real 1000) (real 4100)
                        (real 22))
                  (real 250) (real 0.1))).
  reflexivity.
Defined.

(** X2.  With non-negative power limits, the power
    [calculate_heat_flow] applies lies between [-cooling_power] and
    [heating_power] whatever the controller asks for; it is exactly the
    limit once the request reaches it; and the net heat flow never
    decreases when the request grows. *)
Theorem heat_flow_limits (self : t) (u1 u2 : Qc) :
  0 <= heating_power self ->
  0 <= cooling_power self ->
  let loss := heat_loss_coef self * (temperature self - ambient_temp self) in
  (- cooling_power self - loss <= calculate_heat_flow self u1
   <= heating_power self - loss)
  /\ (heating_power self <= u1 ->
      calculate_heat_flow self u1 = heating_power self - loss)
  /\ (u1 <= - cooling_power self ->
      calculate_heat_flow self u1 = - cooling_power self - loss)
  /\ (u1 <= u2 -> calculate_heat_flow self u1 <= calculate_heat_flow self u2).
Proof.
  intros Hh Hc loss. unfold calculate_heat_flow. fold loss.
  split; [|split; [|split]].
  - pose proof (applied_power_bounds u1 _ _ Hh Hc) as [Hlo Hhi].
    revert Hlo Hhi. generalize (if decide (0 < u1)
      then Py.min u1 (heating_power self)
      else Py.max u1 (- cooling_power self)).
    intros p Hlo Hhi. split; qc_lra.
  - intros Hu. rewrite ThermalModelFacts.applied_power_clamp by assumption.
    unfold Py.clamp.
    destruct (min_cases u1 (heating_power self)) as [[? ->]|[? ->]];
      [destruct (max_cases (- cooling_power self) (heating_power self))
         as [[? ->]|[? ->]]
      |destruct (max_cases (- cooling_power self) u1) as [[? ->]|[? ->]]];
      qc_lra.
  - intros Hu. rewrite ThermalModelFacts.applied_power_clamp by assumption.
    unfold Py.clamp.
    destruct (min_cases u1 (heating_power self)) as [[? ->]|[? ->]];
      [destruct (max_cases (- cooling_power self) (heating_power self))
         as [[? ->]|[? ->]]
      |destruct (max_cases (- cooling_power self) u1) as [[? ->]|[? ->]]];
      qc_lra.
  - intros Hu.
    pose proof (applied_power_mono u1 u2 _ _ Hh Hc Hu) as Hm.
    revert Hm.
    generalize (if decide (0 < u1)
      then Py.min u1 (heating_power self)
      else Py.max u1 (- cooling_power self)).
    generalize (if decide (0 < u2)
      then Py.min u2 (heating_power self)
      else Py.max u2 (- cooling_power self)).
    intros p2 p1 Hm. qc_lra.
Qed.

Lemma heat_flow_limits_witness :
  calculate_heat_flow default (real 1000) = real 250
  /\ calculate_heat_flow default (real (-1000)) = real (-150)
  /\ calculate_heat_flow default (real (-1000))
     <= calculate_heat_flow default (real 1000).
Proof.
  destruct (heat_flow_limits default (real 1000) (real 1000))
    as (_ & Hhot & _); [vm_decide | vm_decide |].
  destruct (heat_flow_limits default (real (-1000)) (real 1000))
    as (_ & _ & Hcold & Hmono); [vm_decide | vm_decide |].
  split; [|split].
  - rewrite Hhot by vm_decide. vm_decide.
  - rewrite Hcold by vm_decide. vm_decide.
  - apply Hmono. vm_decide.
Defined.

(** X3.  A plant with no net heat flow does not move: [update] then
    returns the temperature it had and leaves the plant as it was, for
    any time step.  This is the case of an idle plant (control output
    0) at ambient temperature. *)
Theorem update_equilibrium (self : t) (u dt : Qc) :
  total_heat_capacity self <> 0 ->
  (calculate_heat_flow self u = 0 ->
   update self u dt = Ok (self, temperature self))
  /\ (0 <= cooling_power self ->
      temperature self = ambient_temp self ->
      update self 0 dt = Ok (self, ambient_temp self)).
Proof.
  intros HC.
  assert (Hstill : forall v, calculate_heat_flow self v = 0 ->
            update self v dt = Ok (self, temperature self)).
  { intros v Hflow. unfold update, get_derivative.
    rewrite div_ok by exact HC. cbn [Py.bind]. rewrite Hflow.
    replace (temperature self + 0 / total_heat_capacity self * dt)
      with (temperature self) by (unfold Qcdiv; ring).
    destruct self; reflexivity. }
  split; [apply Hstill|].
  intros Hc HT. rewrite <- HT. apply Hstill.
  unfold calculate_heat_flow.
  destruct (decide (0 < 0)) as [H0|_];
    [exfalso; exact (Qclt_not_eq _ _ H0 eq_refl)|].
  rewrite HT.
  destruct (max_cases 0 (- cooling_power self)) as [[? ->]|[? ->]];
    [exfalso; qc_lra | ring].
Qed.

Lemma update_equilibrium_witness :
  update default 0 (real 0.1) = Ok (default, real 22).
Proof.
  apply (update_equilibrium default 0 (real 0.1)); vm_decide.
Defined.



(** X5.  The constructor computes [sample_heat_capacity] from the
    sample's volume, density and specific heat, but the dynamics use
    [total_heat_capacity], which is the [heat_capacity] argument alone:
    two plants that differ only in the sample arguments return the
    same temperature from [update]. *)
Theorem sample_properties_unused
    (C h c k amb T0 v1 rho1 cp1 v2 rho2 cp2 u dt : Qc) (p1 : t) (T1 : Qc) :
  update (init C h c k amb v1 rho1 cp1 T0) u dt = Ok (p1, T1) ->
  total_heat_capacity p1 = C
  /\ sample_heat_capacity p1 = v1 * rho1 * cp1
  /\ exists p2,
       update (init C h c k amb v2 rho2 cp2 T0) u dt = Ok (p2, T1)
       /\ temperature p2 = temperature p1.
Proof.
  unfold update, get_derivative, calculate_heat_flow.
  cbn [init total_heat_capacity heating_power cooling_power
       heat_loss_coef temperature ambient_temp].
  destruct (Py.div _ C) as [q| |]; cbn [Py.bind]; try discriminate.
  intros [= <- <-]. cbn. split; [reflexivity|]. split; [reflexivity|].
  eexists. split; reflexivity.
Qed.

Lemma sample_properties_unused_witness :
  exists p2,
    update (init (real 500) (real 250) (real 150) (real 1.5) (real 22)
                 (real 1) (real 1) (real 1) (real 22))
           (real 250) (real 0.1)
    = Ok (p2, real 22.05).
Proof.
  destruct (sample_properties_unused
              (real 500) (real 250) (real 150) (real 1.5) (real 22)
              (real 22) (real (5 # 1000000)) (real 1000) (real 4100)
              (real 1) (real 1) (real 1) (real 250) (real 0.1)
              (set_temperature default (real 22.05)) (real 22.05))
    as (_ & _ & p2 & E & _); [vm_decide|].
  exists p2. exact E.
Defined.

End ThermalExtras.

(** ** Reset *)

Module ResetExtras.

(** X6.  [update] changes the state of an object and never its
    configuration, and [reset] overwrites the whole state: resetting
    after an update gives what resetting before it gives, for the plant
    (with or without an explicit temperature), the PID controller and
    the fuzzy controller; and the plant reset without an argument is at
    ambient temperature. *)
Theorem reset_after_update
    (plant plant' : ThermalModel.t) (pid pid' : PIDController.t)
    (fuzzy fuzzy' : FuzzyController.t)
    (u dt T' sp m v w : Qc) (initial_temp : option Qc) :
  ThermalModel.update plant u dt = Ok (plant', T') ->
  PIDController.update pid sp m dt = Ok (pid', v) ->
  FuzzyController.update fuzzy sp m dt = Ok (fuzzy', w) ->
  ThermalModel.reset plant' initial_temp
  = ThermalModel.reset plant initial_temp
  /\ ThermalModel.temperature (ThermalModel.reset plant' None)
     = ThermalModel.ambient_temp plant
  /\ PIDController.reset pid' = PIDController.reset pid
  /\ FuzzyController.reset fuzzy' = FuzzyController.reset fuzzy.
Proof.
  intros Ep Ec Ef.
  apply SimulatorFacts.thermal_update_inv in Ep. subst plant'.
  split; [reflexivity|]. split; [reflexivity|]. split.
  - destruct (PIDFacts.update_config _ _ _ _ _ _ Ec)
      as (Hkp & Hti & Htd & Hmin & Hmax).
    unfold PIDController.reset, PIDController.with_state.
    rewrite Hkp, Hti, Htd, Hmin, Hmax. reflexivity.
  - destruct (FuzzyFacts.update_ok fuzzy sp m dt)
      as (f & u_norm & E & Hmin & Hmax & Hu & _).
    rewrite E in Ef. injection Ef as <- _.
    unfold FuzzyController.reset. rewrite Hmin, Hmax, Hu. reflexivity.
Qed.

Lemma reset_after_update_witness :
  exists plant' pid' fuzzy',
    ThermalModel.reset plant' None = ThermalModel.default
    /\ PIDController.reset pid' = PIDController.default
    /\ FuzzyController.reset fuzzy' = FuzzyController.default.
Proof.
  destruct (ThermalModel.update ThermalModel.default (real 250) (real 0.1))
    as [[plant' T']| |] eqn:Ep;
    [|exfalso; vm_compute in Ep; discriminate Ep..].
  destruct (PIDController.update PIDController.default (real 95) (real 22)
              (real 0.1)) as [[pid' v]| |] eqn:Ec;
    [|exfalso; vm_compute in Ec; discriminate Ec..].
  destruct (FuzzyController.update FuzzyController.default (real 95)
              (real 22) (real 0.1)) as [[fuzzy' w]| |] eqn:Ef;
    [|exfalso; vm_compute in Ef; discriminate Ef..].
  destruct (reset_after_update _ _ _ _ _ _ _ _ _ _ _ _ _ None Ep Ec Ef)
    as (Hp & _ & Hc & Hf).
  exists plant', pid', fuzzy'. rewrite Hp, Hc, Hf.
  split; [|split]; vm_decide.
Defined.

End ResetExtras.

(** ** PID controller: edge cases *)

Module PIDExtras.
Import PIDController.

(** The first half of [update], every branch spelled out. *)
Lemma compute_terms_eq (self : t) (sp m dt : Qc) :
  compute_terms self sp m dt
  = Ok (with_state self
          (integral self + (sp - m) * dt)
          (prev_error self)
          (if decide (0 < dt)
           then real 0.5 * ((sp - m - prev_error self) / dt)
                + (1 - real 0.5) * prev_derivative self
           else prev_derivative self)
          (sp - m)
          (if decide (0 < ti self)
           then (integral self + (sp - m) * dt) / ti self
           else 0)
          (if decide (0 < dt)
           then td self
                * (real 0.5 * ((sp - m - prev_error self) / dt)
                   + (1 - real 0.5) * prev_derivative self)
           else 0)).
Proof.
  unfold compute_terms.
  destruct (decide (0 < ti self)) as [Hti|Hti];
    [rewrite (div_ok _ _ (PIDFacts.pos_nonzero _ Hti))|];
    (destruct (decide (0 < dt)) as [Hdt|Hdt];
     [rewrite (div_ok _ _ (PIDFacts.pos_nonzero _ Hdt))|]);
    reflexivity.
Qed.

(** What a returning [update] did. *)
Lemma pid_update_inv (self self' : t) (sp m dt u : Qc) :
  update self sp m dt = Ok (self', u) ->
  exists s1,
    compute_terms self sp m dt = Ok s1
    /\ u = clamp_output s1 (raw_output s1)
    /\ ((saturated s1 (raw_output s1) u = false
         /\ self' = set_prev_error s1 (sp - m))
        \/ (saturated s1 (raw_output s1) u = true
            /\ kp s1 <> 0
            /\ self'
               = set_prev_error
                   (with_state s1
                      ((u / kp s1 - p_term s1 - d_term s1) * ti s1)
                      (prev_error s1) (prev_derivative s1) (p_term s1)
                      (u / kp s1 - p_term s1 - d_term s1) (d_term s1))
                   (sp - m))).
Proof.
  intros E.
  destruct (PIDFacts.compute_terms_ok self sp m dt) as (s1 & E1 & _).
  exists s1. split; [exact E1|].
  destruct (saturated s1 (raw_output s1) (clamp_output s1 (raw_output s1)))
    eqn:Hs.
  - rewrite (PIDFacts.update_saturated _ _ _ _ _ E1 Hs) in E.
    unfold back_calculate, Py.div in E.
    destruct (decide (kp s1 = 0)) as [|Hkp]; cbn in E; [discriminate|].
    injection E as <- <-. split; [reflexivity|]. right.
    split; [exact Hs|]. split; [exact Hkp | reflexivity].
  - rewrite (PIDFacts.update_unsaturated _ _ _ _ _ E1 Hs) in E.
    injection E as <- <-. split; [reflexivity|]. left.
    split; [exact Hs | reflexivity].
Qed.

(** X7.  The only exception [update] can raise is the
    [ZeroDivisionError] of the anti-windup branch's division by [Kp],
    and it raises it exactly when [Kp = 0], [Ti > 0] and clamping 0
    does not give 0 (with ordered limits: 0 lies outside
    [[output_min, output_max]]); in every other case it returns. *)
Theorem update_raises_iff (self : t) (sp m dt : Qc) :
  (update self sp m dt = Raise ZeroDivisionError
   <-> kp self = 0 /\ 0 < ti self /\ clamp_output self 0 <> 0)
  /\ (forall e, update self sp m dt = Raise e -> e = ZeroDivisionError)
  /\ (~ (kp self = 0 /\ 0 < ti self /\ clamp_output self 0 <> 0) ->
      exists r, update self sp m dt = Ok r).
Proof.
  destruct (PIDFacts.compute_terms_ok self sp m dt)
    as (s1 & E & Ekp & Eti & _ & Emin & Emax & _).
  assert (Hzero : kp self = 0 ->
            raw_output s1 = 0
            /\ clamp_output s1 (raw_output s1) = clamp_output self 0).
  { intros Hkp.
    assert (Hraw : raw_output s1 = 0).
    { unfold raw_output. rewrite Ekp, Hkp. ring. }
    split; [exact Hraw|]. rewrite Hraw. unfold clamp_output.
    rewrite Emin, Emax. reflexivity. }
  destruct (saturated s1 (raw_output s1) (clamp_output s1 (raw_output s1)))
    eqn:Hs.
  - rewrite (PIDFacts.update_saturated _ _ _ _ _ E Hs).
    apply PIDFacts.saturated_true in Hs. destruct Hs as [Hne Hti].
    unfold back_calculate, Py.div.
    destruct (decide (kp s1 = 0)) as [Hkp|Hkp]; cbn.
    + rewrite Ekp in Hkp. destruct (Hzero Hkp) as [Hraw Hclamp].
      assert (Hall : kp self = 0 /\ 0 < ti self /\ clamp_output self 0 <> 0).
      { split; [exact Hkp|]. split; [rewrite <- Eti; exact Hti|].
        rewrite <- Hclamp. intros Hc. apply Hne. rewrite Hc. exact Hraw. }
      split; [split; [intros _; exact Hall | reflexivity]|].
      split; [intros e [= <-]; reflexivity|].
      intros Hnot. contradiction.
    + split; [split; [discriminate|]|].
      * intros (Hkp0 & _). exfalso. apply Hkp. rewrite Ekp. exact Hkp0.
      * split; [discriminate|]. eauto.
  - rewrite (PIDFacts.update_unsaturated _ _ _ _ _ E Hs).
    apply PIDFacts.saturated_false in Hs.
    split; [split; [discriminate|]|].
    + intros (Hkp & Hti & Hne). exfalso.
      destruct (Hzero Hkp) as [Hraw Hclamp].
      destruct Hs as [Hs|Hs].
      * apply Hne. rewrite <- Hclamp, <- Hs. exact Hraw.
      * apply Hs. rewrite Eti. exact Hti.
    + split; [discriminate|]. eauto.
Qed.

Lemma update_raises_iff_witness :
  update (init 0 (real 1) (real 20) (real 10) (real 250))
         (real 95) (real 22) (real 0.1)
  = Raise ZeroDivisionError.
Proof.
  apply (proj2 (proj1 (update_raises_iff
                         (init 0 (real 1) (real 20) (real 10) (real 250))
                         (real 95) (real 22) (real 0.1)))).
  split; [reflexivity|]. split; vm_decide.
Defined.

(** X8.  A controller at rest stays at rest: from the reset state,
    with the measurement on the setpoint and limits that contain 0,
    [update] returns 0 and leaves the reset state, for any gains and
    any time step. *)
Theorem rest_is_fixed_point (self : t) (x dt : Qc) :
  output_min self <= 0 -> 0 <= output_max self ->
  update (reset self) x x dt = Ok (reset self, 0).
Proof.
  intros Hmin Hmax.
  pose proof (compute_terms_eq (reset self) x x dt) as E.
  cbn [reset with_state integral prev_error prev_derivative ti td] in E.
  set (s1 := with_state _ _ _ _ _ _ _) in E.
  assert (Hi : i_term s1 = 0).
  { unfold s1. cbn. destruct (decide (0 < ti self)) as [Hti|]; [|reflexivity].
    field. apply PIDFacts.pos_nonzero, Hti. }
  assert (Hpd : prev_derivative s1 = 0).
  { unfold s1. cbn. destruct (decide (0 < dt)) as [Hdt|]; [|reflexivity].
    field. apply PIDFacts.pos_nonzero, Hdt. }
  assert (Hd : d_term s1 = 0).
  { unfold s1. cbn. destruct (decide (0 < dt)) as [Hdt|]; [|reflexivity].
    field. apply PIDFacts.pos_nonzero, Hdt. }
  assert (Hp : p_term s1 = 0) by (unfold s1; cbn; ring).
  assert (Hint : integral s1 = 0) by (unfold s1; cbn; ring).
  assert (Hraw : raw_output s1 = 0).
  { unfold raw_output. rewrite Hp, Hi, Hd. ring. }
  assert (Hclamp : clamp_output s1 (raw_output s1) = 0).
  { rewrite Hraw. unfold clamp_output, s1. cbn.
    apply PIDFacts.clamp_id; assumption. }
  assert (Hs : saturated s1 (raw_output s1)
                 (clamp_output s1 (raw_output s1)) = false).
  { apply PIDFacts.saturated_false. left. congruence. }
  rewrite (PIDFacts.update_unsaturated _ _ _ _ _ E Hs), Hclamp.
  f_equal. f_equal. unfold set_prev_error.
  rewrite Hint, Hpd, Hp, Hi, Hd.
  replace (x - x) with (0 : Qc) by ring. reflexivity.
Qed.

Lemma rest_is_fixed_point_witness :
  update default (real 22) (real 22) (real 0.1) = Ok (default, 0).
Proof.
  apply (rest_is_fixed_point default (real 22) (real 0.1)); vm_decide.
Defined.

(** X9.  With a time step that is not positive, [update] skips the
    derivative: it does not divide by [dt], the D term of the new
    state is 0 and the filtered derivative is kept for the next call;
    the output is the clamp of [Kp * (error + i_term)]. *)
Theorem update_nonpositive_dt (self self' : t) (sp m dt u : Qc) :
  dt <= 0 ->
  update self sp m dt = Ok (self', u) ->
  d_term self' = 0
  /\ prev_derivative self' = prev_derivative self
  /\ prev_error self' = sp - m
  /\ u = clamp_output self
           (kp self
            * ((sp - m)
               + (if decide (0 < ti self)
                  then (integral self + (sp - m) * dt) / ti self
                  else 0)
               + 0)).
Proof.
  intros Hdt E.
  destruct (pid_update_inv _ _ _ _ _ _ E) as (s1 & E1 & Hu & Hcase).
  rewrite compute_terms_eq in E1. injection E1 as <-.
  destruct (decide (0 < dt)) as [Hpos|_]; [exfalso; qc_lra|].
  split; [|split; [|split]].
  - destruct Hcase as [[_ ->]|(_ & _ & ->)]; reflexivity.
  - destruct Hcase as [[_ ->]|(_ & _ & ->)]; reflexivity.
  - destruct Hcase as [[_ ->]|(_ & _ & ->)]; reflexivity.
  - rewrite Hu. reflexivity.
Qed.

Lemma update_nonpositive_dt_witness :
  exists self' u,
    update default (real 95) (real 22) 0 = Ok (self', u)
    /\ d_term self' = 0 /\ prev_error self' = real 95 - real 22.
Proof.
  destruct (update default (real 95) (real 22) 0) as [[self' u]| |] eqn:E;
    [|exfalso; vm_compute in E; discriminate E..].
  destruct (update_nonpositive_dt default self' (real 95) (real 22) 0 u)
    as (Hd & _ & He & _); [vm_decide | exact E |].
  exists self', u. split; [reflexivity|]. split; assumption.
Defined.

(** X10.  With [Ti <= 0] the integral action is off: [update] always
    returns, also when [Kp = 0]; the I term is 0; the anti-windup
    branch is never entered, so the accumulator is
    [integral + error * dt] even when the output saturates; and the
    output is the clamp of [Kp * (error + d_term)]. *)
Theorem update_integral_off (self : t) (sp m dt : Qc) :
  ti self <= 0 ->
  exists self' u,
    update self sp m dt = Ok (self', u)
    /\ i_term self' = 0
    /\ integral self' = integral self + (sp - m) * dt
    /\ u = clamp_output self (kp self * ((sp - m) + 0 + d_term self')).
Proof.
  intros Hti.
  pose proof (compute_terms_eq self sp m dt) as E.
  destruct (decide (0 < ti self)) as [Hpos|Hnot]; [exfalso; qc_lra|].
  set (s1 := with_state _ _ _ _ _ _ _) in E.
  assert (Hs : saturated s1 (raw_output s1)
                 (clamp_output s1 (raw_output s1)) = false).
  { apply PIDFacts.saturated_false. right. exact Hnot. }
  rewrite (PIDFacts.update_unsaturated _ _ _ _ _ E Hs).
  eexists _, _. split; [reflexivity|].
  split; [reflexivity|]. split; reflexivity.
Qed.

Lemma update_integral_off_witness :
  exists self' u,
    update (init 0 0 (real 20) (real 10) (real 250)) (real 95) (real 22)
           (real 0.1) = Ok (self', u)
    /\ i_term self' = 0.
Proof.
  destruct (update_integral_off (init 0 0 (real 20) (real 10) (real 250))
              (real 95) (real 22) (real 0.1))
    as (self' & u & E & Hi & _); [vm_decide|].
  exists self', u. split; assumption.
Defined.

(** The clamp of a value is the value or one of the two limits. *)
Lemma clamp_cases (lo hi x : Qc) :
  Py.max lo (Py.min x hi) = x
  \/ Py.max lo (Py.min x hi) = lo
  \/ Py.max lo (Py.min x hi) = hi.
Proof.
  destruct (min_cases x hi) as [[_ ->]|[_ ->]];
    [destruct (max_cases lo hi) as [[_ ->]|[_ ->]]
    |destruct (max_cases lo x) as [[_ ->]|[_ ->]]]; auto.
Qed.

(** The output in terms of the components of the state left: it is
    the clamp of [Kp * (P + I + D)], unless the anti-windup branch
    replaced the I term. *)
Lemma update_components (self self' : t) (sp m dt u : Qc) :
  update self sp m dt = Ok (self', u) ->
  p_term self' = sp - m
  /\ (u = clamp_output self
            (kp self * (p_term self' + i_term self' + d_term self'))
      \/ (0 < ti self /\ kp self <> 0
          /\ (u = output_min self \/ u = output_max self)
          /\ i_term self' = u / kp self - p_term self' - d_term self')).
Proof.
  intros E.
  destruct (pid_update_inv _ _ _ _ _ _ E) as (s1 & E1 & Hu & Hcase).
  destruct (PIDFacts.compute_terms_ok self sp m dt)
    as (s1' & E1' & Ekp & Eti & _ & Emin & Emax & Ep & _).
  assert (s1' = s1) by congruence. subst s1'.
  destruct Hcase as [[Hs ->]|(Hs & Hkp & ->)]; cbn.
  - split; [exact Ep|]. left.
    rewrite Hu. unfold clamp_output, raw_output.
    rewrite Emin, Emax, Ekp. reflexivity.
  - split; [exact Ep|]. right.
    apply PIDFacts.saturated_true in Hs. destruct Hs as [Hne Hti].
    rewrite <- Eti, <- Ekp, <- Emin, <- Emax.
    split; [exact Hti|]. split; [exact Hkp|]. split; [|reflexivity].
    destruct (clamp_cases (output_min s1) (output_max s1) (raw_output s1))
      as [Hc|[Hc|Hc]]; unfold clamp_output in Hu; rewrite Hc in Hu;
      [exfalso; apply Hne; symmetry; exact Hu | left | right]; exact Hu.
Qed.

(** X11.  After a returning [update], [get_components] gives the raw
    error as P term (not multiplied by [Kp]), and the three components
    account for the output in one of two ways.  When the anti-windup
    branch was not entered, the output is the clamp of
    [Kp * (P + I + D)]; with [Ti > 0] it is [Kp * (P + I + D)] itself
    and the I term is [integral / Ti] of the stored accumulator, and
    without [Ti > 0] the I term is 0.  When the anti-windup branch
    was entered ([Ti > 0], [Kp] not zero), the output is one of the
    two limits, the I term is [output / Kp - P - D] and the stored
    accumulator is [I * Ti]. *)
Theorem components_after_update (self self' : t) (sp m dt u : Qc) :
  update self sp m dt = Ok (self', u) ->
  exists p i d,
    get_components self' = (p, i, d)
    /\ p = sp - m
    /\ ((u = clamp_output self (kp self * (p + i + d))
         /\ (0 < ti self ->
             kp self * (p + i + d) = u /\ i = integral self' / ti self)
         /\ (~ 0 < ti self -> i = 0))
        \/ (0 < ti self /\ kp self <> 0
            /\ (u = output_min self \/ u = output_max self)
            /\ i = u / kp self - p - d
            /\ integral self' = i * ti self)).
Proof.
  intros E.
  exists (p_term self'), (i_term self'), (d_term self').
  split; [reflexivity|].
  destruct (pid_update_inv _ _ _ _ _ _ E) as (s1 & E1 & Hu & Hcase).
  destruct (PIDFacts.compute_terms_ok self sp m dt)
    as (s1' & E1' & Ekp & Eti & _ & Emin & Emax & Ep & _).
  assert (s1' = s1) by congruence. subst s1'.
  destruct Hcase as [[Hs ->]|(Hs & Hkp & ->)]; cbn.
  - split; [exact Ep|]. left.
    assert (Hraw : kp self * (p_term s1 + i_term s1 + d_term s1)
                   = raw_output s1).
    { unfold raw_output. rewrite Ekp. reflexivity. }
    rewrite Hraw. split.
    { rewrite Hu. unfold clamp_output. rewrite Emin, Emax. reflexivity. }
    rewrite compute_terms_eq in E1. split.
    + intros Hti. apply PIDFacts.saturated_false in Hs.
      destruct Hs as [Hs|Hs]; [|exfalso; apply Hs; rewrite Eti; exact Hti].
      split; [exact Hs|]. injection E1 as <-. cbn.
      destruct (decide (0 < ti self)); [reflexivity|contradiction].
    + intros Hti. injection E1 as <-. cbn.
      destruct (decide (0 < ti self)); [contradiction|reflexivity].
  - split; [exact Ep|]. right.
    apply PIDFacts.saturated_true in Hs. destruct Hs as [Hne Hti].
    rewrite <- Eti, <- Ekp, <- Emin, <- Emax.
    split; [exact Hti|]. split; [exact Hkp|].
    split; [|split; reflexivity].
    destruct (clamp_cases (output_min s1) (output_max s1) (raw_output s1))
      as [Hc|[Hc|Hc]]; unfold clamp_output in Hu; rewrite Hc in Hu;
      [exfalso; apply Hne; symmetry; exact Hu | left | right]; exact Hu.
Qed.

Lemma components_after_update_witness :
  exists self' u p i d,
    update default (real 95) (real 22) (real 0.1) = Ok (self', u)
    /\ get_components self' = (p, i, d)
    /\ p = real 73
    /\ u = real 250
    /\ i = u / kp default - p - d.
Proof.
  destruct (update default (real 95) (real 22) (real 0.1))
    as [[self' u]| |] eqn:E;
    [|exfalso; vm_compute in E; discriminate E..].
  destruct (components_after_update default self' (real 95) (real 22)
              (real 0.1) u E) as (p & i & d & Hc & Hp & Hcase).
  exists self', u, p, i, d. split; [reflexivity|]. split; [exact Hc|].
  split; [rewrite Hp; vm_decide|].
  vm_compute in E. injection E as <- <-. vm_compute in Hc.
  injection Hc as <- <- <-. split; vm_decide.
Defined.

(** X12.  [set_output_limits] replaces the two limits and nothing
    else, and the next [update] obeys the new limits: for
    [lo <= hi] its output lies in [[lo, hi]]; it is the clamp to
    [[lo, hi]] of the raw output [Kp * (P + I + D)] that the
    controller computes whatever its limits are; the new limits and
    the gains carry over to the state it leaves. *)
Theorem set_output_limits_update (self self' : t) (lo hi sp m dt u : Qc) :
  lo <= hi ->
  update (set_output_limits self lo hi) sp m dt = Ok (self', u) ->
  lo <= u <= hi
  /\ output_min self' = lo /\ output_max self' = hi
  /\ kp self' = kp self /\ ti self' = ti self /\ td self' = td self
  /\ exists s0,
       compute_terms self sp m dt = Ok s0
       /\ u = Py.clamp (raw_output s0) lo hi.
Proof.
  intros Hle E.
  destruct (PIDFacts.update_config _ _ _ _ _ _ E)
    as (Hkp & Hti & Htd & Hmin & Hmax).
  pose proof (PIDFacts.pid_update_within_limits
                (set_output_limits self lo hi) _ _ _ _ _ Hle E) as Hu.
  split; [exact Hu|]. split; [exact Hmin|]. split; [exact Hmax|].
  split; [exact Hkp|]. split; [exact Hti|]. split; [exact Htd|].
  destruct (PIDFacts.update_output _ _ _ _ _ _ E) as (s1 & E1 & Hc).
  rewrite compute_terms_eq in E1. injection E1 as <-.
  eexists. split; [apply compute_terms_eq|]. exact Hc.
Qed.

Lemma set_output_limits_update_witness :
  exists self' u,
    update (set_output_limits default (real (-10)) (real 10))
           (real 95) (real 22) (real 0.1) = Ok (self', u)
    /\ real (-10) <= u <= real 10
    /\ output_max self' = real 10.
Proof.
  destruct (update (set_output_limits default (real (-10)) (real 10))
              (real 95) (real 22) (real 0.1)) as [[self' u]| |] eqn:E;
    [|exfalso; vm_compute in E; discriminate E..].
  destruct (set_output_limits_update default self' (real (-10)) (real 10)
              (real 95) (real 22) (real 0.1) u)
    as (Hu & _ & Hmax & _); [vm_decide | exact E |].
  exists self', u. split; [reflexivity|]. split; assumption.
Defined.

End PIDExtras.

(** ** Sums of lists *)

Module SumFacts.

Lemma sum_acc (xs : list Qc) (acc : Qc) :
  foldl Qcplus acc xs = acc + foldl Qcplus 0 xs.
Proof.
  revert acc. induction xs as [|x xs IH]; intros acc; cbn.
  - ring.
  - rewrite (IH (acc + x)), (IH (0 + x)). ring.
Qed.

Lemma sum_cons (x : Qc) (xs : list Qc) :
  Np.sum (x :: xs) = x + Np.sum xs.
Proof.
  unfold Np.sum, Py.sum. cbn. rewrite sum_acc. ring.
Qed.

Lemma sum_zeros (n : nat) : Np.sum (replicate n 0) = 0.
Proof.
  induction n as [|n IH]; [reflexivity|].
  cbn [replicate]. rewrite sum_cons, IH. ring.
Qed.

Lemma sum_list_nonneg (ws : list Qc) :
  Forall (fun w => 0 <= w) ws -> 0 <= Np.sum ws.
Proof.
  induction 1 as [|w ws Hw _ IH]; [apply Qcle_refl|].
  rewrite sum_cons. revert Hw IH. generalize (Np.sum ws).
  intros s Hw Hs. qc_lra.
Qed.


End SumFacts.

(** ** Fuzzy controller: membership degrees, dead zone, output range *)

Module FuzzyExtras.
Import FuzzyController SumFacts.

Lemma div_unit (n d : Qc) : 0 <= n -> n <= d -> 0 < d -> 0 <= n / d <= 1.
Proof.
  intros Hn Hnd Hd. split.
  - apply SimulatorFacts.div_nonneg; assumption.
  - apply (Qcmult_lt_0_le_reg_r _ _ d Hd).
    replace (n / d * d) with n by (field; intros E; qc_lra).
    rewrite Qcmult_1_l. exact Hnd.
Qed.

Lemma trapmf_zero (x a b c d : Qc) :
  x <= a \/ d <= x -> trapmf x a b c d = Ok 0.
Proof.
  intros H. unfold trapmf.
  destruct (decide (x <= a \/ d <= x)); [reflexivity | contradiction].
Qed.

(** A membership degree is never negative. *)
Lemma trapmf_nonneg (x a b c d v : Qc) :
  a <= b -> b <= c -> c <= d -> trapmf x a b c d = Ok v -> 0 <= v.
Proof.
  intros Hab Hbc Hcd. unfold trapmf.
  destruct (decide (x <= a \/ d <= x)) as [H1|H1];
    [intros [= <-]; apply Qcle_refl|].
  destruct (decide (b <= x /\ x <= c)) as [H2|H2];
    [intros [= <-]; vm_decide|].
  assert (Hax : a < x).
  { apply Qcnot_le_lt. intros H. apply H1. left. exact H. }
  assert (Hxd : x < d).
  { apply Qcnot_le_lt. intros H. apply H1. right. exact H. }
  destruct (decide (a < x /\ x < b)) as [[_ Hxb]|H3].
  - rewrite div_ok by (intros E; qc_lra). intros [= <-].
    apply SimulatorFacts.div_nonneg; qc_lra.
  - assert (Hcx : c < x).
    { apply Qcnot_le_lt. intros Hxc. apply H2. split; [|exact Hxc].
      apply Qcnot_lt_le. intros Hxb. apply H3. split; assumption. }
    rewrite div_ok by (intros E; qc_lra). intros [= <-].
    apply SimulatorFacts.div_nonneg; qc_lra.
Qed.

Ltac trapmf_inv E :=
  match type of E with
  | context [trapmf ?x ?a ?b ?c ?d] =>
      let v := fresh "v" in
      let Ev := fresh "Ev" in
      let Hv := fresh "Hv" in
      destruct (trapmf x a b c d) as [v| |] eqn:Ev;
      cbn [Py.bind] in E; try discriminate E;
      pose proof (trapmf_nonneg x a b c d v ltac:(vm_decide)
                    ltac:(vm_decide) ltac:(vm_decide) Ev) as Hv
  end.

Lemma fuzzify_error_nonneg (e : Qc) (s : label -> Qc) :
  fuzzify_error e = Ok s -> forall l, 0 <= s l.
Proof.
  unfold fuzzify_error. intros E. do 5 trapmf_inv E.
  injection E as <-. intros []; assumption.
Qed.

Lemma fuzzify_ce_nonneg (ce : Qc) (s : ce_label -> Qc) :
  fuzzify_ce ce = Ok s -> forall l, 0 <= s l.
Proof.
  unfold fuzzify_ce. intros E. do 3 trapmf_inv E.
  injection E as <-. intros []; assumption.
Qed.

(** Beyond 100 in absolute value an error belongs to no error set. *)
Lemma fuzzify_error_outside (e : Qc) :
  e <= real (-100) \/ real 100 <= e ->
  exists s, fuzzify_error e = Ok s /\ forall l, s l = 0.
Proof.
  intros He. unfold fuzzify_error.
  rewrite !trapmf_zero by (destruct He; [left|right]; qc_lra).
  cbn [Py.bind]. eexists. split; [reflexivity|]. intros []; reflexivity.
Qed.

(** And a change of error belongs to no change set. *)
Lemma fuzzify_ce_outside (ce : Qc) :
  ce <= real (-100) \/ real 100 <= ce ->
  exists s, fuzzify_ce ce = Ok s /\ forall l, s l = 0.
Proof.
  intros He. unfold fuzzify_ce.
  rewrite !trapmf_zero by (destruct He; [left|right]; qc_lra).
  cbn [Py.bind]. eexists. split; [reflexivity|]. intros []; reflexivity.
Qed.

Lemma min_zero_l (b : Qc) : 0 <= b -> Py.min 0 b = 0.
Proof.
  intros Hb. destruct (min_cases 0 b) as [[H ->]|[_ ->]];
    [exfalso; qc_lra | reflexivity].
Qed.

Lemma min_zero_r (a : Qc) : 0 <= a -> Py.min a 0 = 0.
Proof.
  intros Ha. destruct (min_cases a 0) as [[_ ->]|[H ->]];
    [reflexivity | qc_lra].
Qed.

(** When no rule is activated the aggregate is left as it is. *)
Lemma infer_loop_idle (self : t) (e_sets : label -> Qc)
    (ce_sets : ce_label -> Qc) (todo : list (label * ce_label * label))
    (aggregated : list Qc) :
  (forall l l', Py.min (e_sets l) (ce_sets l') = 0) ->
  infer_loop self e_sets ce_sets todo aggregated = Ok aggregated.
Proof.
  intros Hidle. induction todo as [|[[el cl] ul] todo IH]; cbn.
  - reflexivity.
  - destruct (decide (Py.min (e_sets el) (ce_sets cl) = 0)) as [_|Hne];
      [exact IH|]. exfalso. apply Hne, Hidle.
Qed.

(** A weighted sum lies between the extreme points times the total
    weight. *)
Lemma weighted_sum_bounds (lo hi : Qc) (us ws : list Qc) :
  length us = length ws ->
  Forall (fun x => lo <= x <= hi) us ->
  Forall (fun w => 0 <= w) ws ->
  lo * Np.sum ws <= Np.sum (zip_with Qcmult us ws) <= hi * Np.sum ws.
Proof.
  intros Hlen Hus. revert ws Hlen.
  induction Hus as [|x us [Hlo Hhi] _ IH]; intros [|w ws] Hlen Hws;
    try discriminate.
  - cbn. split; qc_lra.
  - cbn [zip_with]. rewrite !sum_cons.
    inversion Hws as [|? ? Hw Hws']; subst.
    destruct (IH ws ltac:(cbn in Hlen; lia) Hws') as [IHlo IHhi].
    revert IHlo IHhi.
    generalize (Np.sum (zip_with Qcmult us ws)) (Np.sum ws).
    intros S W IHlo IHhi. split; qc_to_q; nra.
Qed.

(** The aggregate of [infer] has no negative entry. *)
Lemma maximum_nonneg (a b : list Qc) :
  Forall (fun w => 0 <= w) a -> Forall (fun w => 0 <= w) (Np.maximum a b).
Proof.
  intros Ha. revert b. induction Ha as [|x a Hx _ IH]; intros [|y b]; cbn;
    try constructor.
  - destruct (max_cases x y) as [[? ->]|[? ->]]; qc_lra.
  - apply IH.
Qed.

Lemma infer_loop_nonneg (self : t) (e_sets : label -> Qc)
    (ce_sets : ce_label -> Qc) (todo : list (label * ce_label * label))
    (aggregated agg : list Qc) :
  Forall (fun w => 0 <= w) aggregated ->
  infer_loop self e_sets ce_sets todo aggregated = Ok agg ->
  Forall (fun w => 0 <= w) agg.
Proof.
  revert aggregated.
  induction todo as [|[[el cl] ul] todo IH]; intros aggregated Hagg; cbn.
  - intros [= <-]. exact Hagg.
  - destruct (decide (Py.min (e_sets el) (ce_sets cl) = 0)).
    + apply IH, Hagg.
    + destruct (Py.for_each _ _) as [u_mf| |]; cbn; try discriminate.
      apply IH, maximum_nonneg, Hagg.
Qed.

Lemma infer_nonneg (self : t) (e_sets : label -> Qc)
    (ce_sets : ce_label -> Qc) (agg : list Qc) :
  infer self e_sets ce_sets = Ok agg -> Forall (fun w => 0 <= w) agg.
Proof.
  unfold infer. apply infer_loop_nonneg. unfold Np.zeros_like.
  apply Forall_replicate, Qcle_refl.
Qed.

(** The centroid lies within the universe. *)
Lemma defuzzify_bounds (self : t) (lo hi : Qc) (agg : list Qc) (u_norm : Qc) :
  length agg = length (u_universe self) ->
  Forall (fun x => lo <= x <= hi) (u_universe self) ->
  Forall (fun w => 0 <= w) agg ->
  lo <= 0 -> 0 <= hi ->
  defuzzify self agg = Ok u_norm ->
  lo <= u_norm <= hi.
Proof.
  intros Hlen Hu Hagg Hlo Hhi.
  destruct (decide (Np.sum agg = 0)) as [Hz|Hnz].
  - rewrite FuzzyFacts.defuzzify_zero by exact Hz. intros [= <-].
    split; assumption.
  - rewrite FuzzyFacts.defuzzify_nonzero by assumption. intros [= <-].
    pose proof (sum_list_nonneg agg Hagg) as Hw.
    assert (Hpos : 0 < Np.sum agg).
    { apply Qcle_lt_or_eq in Hw. destruct Hw as [Hw|Hw]; [exact Hw|].
      exfalso. apply Hnz. symmetry. exact Hw. }
    destruct (weighted_sum_bounds lo hi (u_universe self) agg
                ltac:(symmetry; exact Hlen) Hu Hagg) as [Hslo Hshi].
    set (S := Np.sum (zip_with Qcmult (u_universe self) agg)) in *.
    set (W := Np.sum agg) in *.
    assert (HS : S / W * W = S) by (field; exact Hnz).
    split; apply (Qcmult_lt_0_le_reg_r _ _ W Hpos); rewrite HS; assumption.
Qed.

(** What a returning [update] computed. *)
Lemma fuzzy_update_inv (self self' : t) (sp m dt u : Qc) :
  update self sp m dt = Ok (self', u) ->
  exists e_sets ce_sets agg u_norm,
    infer self e_sets ce_sets = Ok agg
    /\ defuzzify self agg = Ok u_norm
    /\ u = Py.max (output_min self)
                  (Py.min (u_norm * output_max self) (output_max self)).
Proof.
  unfold update. intros E.
  destruct (if decide (0 < dt) then _ else _) as [ce| |];
    cbn [Py.bind] in E; try discriminate.
  destruct (fuzzify_error _) as [e_sets| |];
    cbn [Py.bind] in E; try discriminate.
  destruct (fuzzify_ce _) as [ce_sets| |];
    cbn [Py.bind] in E; try discriminate.
  destruct (infer _ _ _) as [agg| |] eqn:Ei;
    cbn [Py.bind] in E; try discriminate.
  destruct (defuzzify _ _) as [u_norm| |] eqn:Ed;
    cbn [Py.bind] in E; try discriminate.
  injection E as _ <-. exists e_sets, ce_sets, agg, u_norm.
  split; [exact Ei|]. split; [exact Ed | reflexivity].
Qed.

(** X13.  On ordered breakpoints [trapmf] returns a degree between 0
    and 1, so every degree that [fuzzify_error], [fuzzify_ce] and
    [output_sets] compute lies in [[0, 1]], for every argument. *)
Theorem membership_degrees (x a b c d : Qc) :
  a <= b -> b <= c -> c <= d ->
  (exists v, trapmf x a b c d = Ok v /\ 0 <= v <= 1)
  /\ (exists s, fuzzify_error x = Ok s /\ forall l, 0 <= s l <= 1)
  /\ (exists s, fuzzify_ce x = Ok s /\ forall l, 0 <= s l <= 1)
  /\ (exists s, output_sets x = Ok s /\ forall l, 0 <= s l <= 1).
Proof.
  assert (Hrange : forall x a b c d, a <= b -> b <= c -> c <= d ->
            exists v, trapmf x a b c d = Ok v /\ 0 <= v <= 1).
  { clear. intros x a b c d Hab Hbc Hcd.
    destruct (FuzzyFacts.trapmf_ok x a b c d Hab Hbc Hcd) as [v E].
    exists v. split; [exact E|]. split.
    - exact (trapmf_nonneg _ _ _ _ _ _ Hab Hbc Hcd E).
    - revert E. unfold trapmf.
      destruct (decide (x <= a \/ d <= x)) as [H1|H1];
        [intros [= <-]; vm_decide|].
      destruct (decide (b <= x /\ x <= c)) as [H2|H2];
        [intros [= <-]; apply Qcle_refl|].
      assert (Hax : a < x).
      { apply Qcnot_le_lt. intros H. apply H1. left. exact H. }
      assert (Hxd : x < d).
      { apply Qcnot_le_lt. intros H. apply H1. right. exact H. }
      destruct (decide (a < x /\ x < b)) as [[_ Hxb]|H3].
      + rewrite div_ok by (intros E; qc_lra). intros [= <-].
        apply div_unit; qc_lra.
      + assert (Hcx : c < x).
        { apply Qcnot_le_lt. intros Hxc. apply H2. split; [|exact Hxc].
          apply Qcnot_lt_le. intros Hxb. apply H3. split; assumption. }
        rewrite div_ok by (intros E; qc_lra). intros [= <-].
        apply div_unit; qc_lra. }
  intros Hab Hbc Hcd. split; [apply Hrange; assumption|].
  split; [|split].
  - unfold fuzzify_error.
    repeat match goal with
    | |- context [trapmf ?x ?a ?b ?c ?d] =>
        let v := fresh "v" in
        let E := fresh "E" in
        let H := fresh "H" in
        destruct (Hrange x a b c d) as (v & E & H);
        [vm_decide | vm_decide | vm_decide | rewrite E; cbn [Py.bind]]
    end.
    eexists. split; [reflexivity|]. intros []; assumption.
  - unfold fuzzify_ce.
    repeat match goal with
    | |- context [trapmf ?x ?a ?b ?c ?d] =>
        let v := fresh "v" in
        let E := fresh "E" in
        let H := fresh "H" in
        destruct (Hrange x a b c d) as (v & E & H);
        [vm_decide | vm_decide | vm_decide | rewrite E; cbn [Py.bind]]
    end.
    eexists. split; [reflexivity|]. intros []; assumption.
  - unfold output_sets.
    repeat match goal with
    | |- context [trapmf ?x ?a ?b ?c ?d] =>
        let v := fresh "v" in
        let E := fresh "E" in
        let H := fresh "H" in
        destruct (Hrange x a b c d) as (v & E & H);
        [vm_decide | vm_decide | vm_decide | rewrite E; cbn [Py.bind]]
    end.
    eexists. split; [reflexivity|]. intros []; assumption.
Qed.

Lemma membership_degrees_witness :
  exists v,
    trapmf (real 50) (real 40) (real 60) (real 100) (real 100) = Ok v
    /\ 0 <= v <= 1.
Proof.
  apply (membership_degrees (real 50) (real 40) (real 60) (real 100)
           (real 100)); vm_decide.
Defined.

(** X14.  The error sets cover only errors strictly between -100 and
    100, and the change sets only changes strictly between -100 and
    100 per second.  Outside, no rule is activated and the controller
    commands nothing: when [error <= -100] or [error >= 100], or when
    [dt > 0] and [(error - prev_error) / dt] is at most -100 or at
    least 100, [update] returns the clamp of 0, which is 0 for limits
    that contain 0, however large the error is. *)
Theorem update_dead_zone (self : t) (sp m dt : Qc) :
  let error := sp - m in
  let ce := (error - prev_error self) / dt in
  error <= real (-100) \/ real 100 <= error
  \/ (0 < dt /\ (ce <= real (-100) \/ real 100 <= ce)) ->
  update self sp m dt
  = Ok ({| output_min := output_min self; output_max := output_max self;
           u_universe := u_universe self; prev_error := error |},
        Py.max (output_min self)
               (Py.min (0 * output_max self) (output_max self)))
  /\ (output_min self <= 0 -> 0 <= output_max self ->
      exists self', update self sp m dt = Ok (self', 0)).
Proof.
  intros error ce Hout.
  assert (Hupd : update self sp m dt
    = Ok ({| output_min := output_min self; output_max := output_max self;
             u_universe := u_universe self; prev_error := error |},
          Py.max (output_min self)
                 (Py.min (0 * output_max self) (output_max self)))).
  { unfold update. fold error.
    assert (Hce : exists ce',
      (if decide (0 < dt) then Py.div (error - prev_error self) dt
       else Ok 0) = Ok ce'
      /\ (0 < dt -> ce' = ce)).
    { destruct (decide (0 < dt)) as [Hdt|Hdt].
      - rewrite div_ok by (intros E; qc_lra). eauto.
      - eexists. split; [reflexivity|]. intros H. contradiction. }
    destruct Hce as (ce' & -> & Hce'). cbn [Py.bind].
    assert (Hsets : exists e_sets ce_sets,
      fuzzify_error error = Ok e_sets /\ fuzzify_ce ce' = Ok ce_sets
      /\ forall l l', Py.min (e_sets l) (ce_sets l') = 0).
    { destruct (FuzzyFacts.fuzzify_error_ok error) as [e_sets Ee].
      destruct (FuzzyFacts.fuzzify_ce_ok ce') as [ce_sets Ec].
      exists e_sets, ce_sets. split; [exact Ee|]. split; [exact Ec|].
      intros l l'.
      pose proof (fuzzify_error_nonneg _ _ Ee l) as He.
      pose proof (fuzzify_ce_nonneg _ _ Ec l') as Hc.
      assert (Hcases : (error <= real (-100) \/ real 100 <= error)
                       \/ (ce' <= real (-100) \/ real 100 <= ce')).
      { destruct Hout as [H|[H|[Hdt H]]]; [left; left; exact H
          |left; right; exact H|right; rewrite (Hce' Hdt); exact H]. }
      destruct Hcases as [H|H].
      - destruct (fuzzify_error_outside error H) as (s & Es & Hs).
        assert (s = e_sets) by congruence. subst s.
        rewrite Hs. apply min_zero_l, Hc.
      - destruct (fuzzify_ce_outside ce' H) as (s & Es & Hs).
        assert (s = ce_sets) by congruence. subst s.
        rewrite Hs. apply min_zero_r, He. }
    destruct Hsets as (e_sets & ce_sets & -> & -> & Hidle).
    cbn [Py.bind]. unfold infer. rewrite infer_loop_idle by exact Hidle.
    cbn [Py.bind]. rewrite FuzzyFacts.defuzzify_zero
      by (unfold Np.zeros_like; apply sum_zeros).
    reflexivity. }
  split; [exact Hupd|]. intros Hmin Hmax. rewrite Hupd.
  eexists. f_equal. f_equal.
  replace (0 * output_max self) with (0 : Qc) by ring.
  apply PIDFacts.clamp_id; assumption.
Qed.

Lemma update_dead_zone_witness :
  exists self',
    update default (real 95) (real 22) (real 0.1) = Ok (self', 0).
Proof.
  destruct (update_dead_zone default (real 95) (real 22) (real 0.1))
    as [_ H].
  - right. right. split; [vm_decide|]. right. vm_decide.
  - apply H; vm_decide.
Defined.

(** X15.  With a universe inside [[-1, 1]] (the constructor's default
    is) and [output_max >= 0], the centroid lies in [[-1, 1]], so the
    command before clamping lies in [[-output_max, output_max]]: the
    value [update] returns is never below [-output_max], whatever
    [output_min] is. *)
Theorem update_never_below_minus_max (self self' : t) (sp m dt u : Qc) :
  Forall (fun x => -(1) <= x <= 1) (u_universe self) ->
  0 <= output_max self ->
  update self sp m dt = Ok (self', u) ->
  - output_max self <= u
  /\ exists u_norm,
       -(1) <= u_norm <= 1
       /\ u = Py.max (output_min self)
                     (Py.min (u_norm * output_max self) (output_max self)).
Proof.
  intros Huniv Hmax E.
  destruct (fuzzy_update_inv _ _ _ _ _ _ E)
    as (e_sets & ce_sets & agg & u_norm & Ei & Ed & Hu).
  destruct (FuzzyFacts.infer_ok self e_sets ce_sets) as (agg' & Ei' & Hlen).
  assert (agg' = agg) by congruence. subst agg'.
  pose proof (infer_nonneg _ _ _ _ Ei) as Hagg.
  destruct (defuzzify_bounds self (-(1)) 1 agg u_norm Hlen Huniv Hagg
              ltac:(vm_decide) ltac:(vm_decide) Ed) as [Hlo Hhi].
  split; [|exists u_norm; split; [split; assumption | exact Hu]].
  rewrite Hu.
  assert (Hx : - output_max self <= u_norm * output_max self).
  { revert Hlo Hmax. generalize (output_max self). intros M Hlo HM.
    qc_to_q. nra. }
  set (x := u_norm * output_max self) in *. clearbody x.
  revert Hx Hmax. generalize (output_max self) (output_min self).
  intros M lo Hx HM.
  destruct (min_cases x M) as [[? ->]|[? ->]];
    [destruct (max_cases lo M) as [[? ->]|[? ->]]
    |destruct (max_cases lo x) as [[? ->]|[? ->]]];
    qc_lra.
Qed.

Lemma update_never_below_minus_max_witness :
  exists self' u,
    update Cases.wide_fuzzy (real 22) (real 95) (real 0.1) = Ok (self', u)
    /\ real (-250) <= u.
Proof.
  destruct (FuzzyFacts.update_ok Cases.wide_fuzzy (real 22) (real 95)
              (real 0.1)) as (self' & u_norm & E & _).
  eexists _, _. split; [exact E|].
  assert (Huniv : Forall (fun x => -(1) <= x <= 1)
                         (u_universe Cases.wide_fuzzy)) by vm_decide.
  assert (Hmax : 0 <= output_max Cases.wide_fuzzy) by vm_decide.
  destruct (update_never_below_minus_max Cases.wide_fuzzy _ _ _ _ _
              Huniv Hmax E) as [H _].
  exact H.
Defined.

(** X16.  The rule base is complete and free of conflicts: for every
    pair of an error label and a change label, [rules] holds exactly
    one rule, 15 in all. *)
Theorem rules_complete (e : label) (ce : ce_label) :
  length rules = 15%nat
  /\ exists u,
       (e, ce, u) ∈ rules
       /\ forall u', (e, ce, u') ∈ rules -> u' = u.
Proof.
  split; [reflexivity|].
  destruct e, ce;
    match goal with
    | |- exists u, (?e, ?c, u) ∈ rules /\ _ =>
        first [ exists NB; split; [vm_decide|]
              | exists NS; split; [vm_decide|]
              | exists Ze; split; [vm_decide|]
              | exists PS; split; [vm_decide|]
              | exists PB; split; [vm_decide|] ]
    end;
    intros []; vm_decide.
Qed.

End FuzzyExtras.

(** ** Protocol: edge cases and total duration *)

Module ProtocolExtras.
Import PCRSimulator SumFacts.


(** X17.  [range(num_cycles)] is empty for a count that is zero or
    negative: the protocol then has the initial, final-extension and
    hold stages and no cycle, a negative count being no error. *)
Theorem build_protocol_no_cycles (a : args) :
  (num_cycles a <= 0)%Z ->
  _build_protocol a
  = [ (initial_temp a, initial_duration a);
      (final_temp a, final_duration a);
      (hold_temp a, hold_duration a) ].
Proof.
  intros HN. rewrite ProtocolFacts.build_protocol_eq.
  replace (Z.to_nat (num_cycles a)) with O by lia. reflexivity.
Qed.

Lemma build_protocol_no_cycles_witness :
  _build_protocol Cases.negative_cycles
  = [ (real 95, real 180); (real 72, real 300); (real 10, real 60) ].
Proof.
  apply (build_protocol_no_cycles Cases.negative_cycles). vm_decide.
Defined.



End ProtocolExtras.

(** ** Simulator: failures, output length, downsampling *)

Module SimulatorExtras.
Import PCRSimulator.

Section WithController.

Context {C : Type} `{Controller C}.

(** X19.  [simulate] divides the total time by the time step before
    it does anything else: with a time step of 0 it raises
    [ZeroDivisionError]; with a negative time step and a total time
    of at least two steps it asks [np.zeros] for an array of negative
    size, a [ValueError]. *)
Theorem simulate_bad_time_step (self : t C) (a : args) :
  (time_step self = 0 ->
   simulate_raw self a = Raise ZeroDivisionError
   /\ simulate self a = Raise ZeroDivisionError)
  /\ (time_step self < 0 ->
      - (2) * time_step self <= Py.sum (snd <$> _build_protocol a) ->
      simulate_raw self a = Raise ValueError
      /\ simulate self a = Raise ValueError).
Proof.
  split.
  - intros Hdt.
    assert (E : simulate_raw self a = Raise ZeroDivisionError).
    { unfold simulate_raw, num_steps_of. rewrite Hdt, div_zero.
      reflexivity. }
    split; [exact E|]. unfold simulate. rewrite E. reflexivity.
  - intros Hdt Hlong.
    assert (E : simulate_raw self a = Raise ValueError).
    { unfold simulate_raw, num_steps_of.
      rewrite div_ok by (intros E; qc_lra). cbn [Py.bind].
      set (ratio := Py.sum (snd <$> _build_protocol a) / time_step self).
      assert (Hratio : ratio <= -(2)).
      { assert (Hpos : 0 < - time_step self) by qc_lra.
        assert (Hnz : time_step self <> 0) by (intros E; qc_lra).
        set (r := Py.sum (snd <$> _build_protocol a) / - time_step self).
        assert (Hr : 2 <= r).
        { apply (Qcmult_lt_0_le_reg_r _ _ _ Hpos).
          replace (r * - time_step self)
            with (Py.sum (snd <$> _build_protocol a))
            by (unfold r; field; intros E0; qc_lra).
          revert Hlong. generalize (Py.sum (snd <$> _build_protocol a)).
          generalize (time_step self). intros d s Hs. qc_lra. }
        replace ratio with (- r)
          by (unfold ratio, r; field; try split; intros E0; qc_lra).
        revert Hr. generalize r. intros q Hq. qc_lra. }
      assert (Hint : (Py.int ratio <= -2)%Z).
      { unfold Py.int. destruct (decide (ratio < 0)) as [_|Hge].
        - apply (Qceiling_resp_le _ (-2 # 1)%Q) in Hratio.
          exact Hratio.
        - exfalso. apply Hge. qc_lra. }
      unfold Np.zeros.
      destruct (decide (Py.int ratio + 1 < 0)%Z); [reflexivity | lia]. }
    split; [exact E|]. unfold simulate. rewrite E. reflexivity.
Qed.

(** X20.  Whatever the raw series are, [simulate] succeeds in
    downsampling them: it returns eight series of one length,
    [min(L, 5000)] for raw series of length [L], so never more than
    5000 points, and raw series of at most 5000 points are returned
    unchanged. *)
Theorem simulate_output_length (self self' : t C) (a : args)
    (raw : series) :
  simulate_raw self a = Ok (self', raw) ->
  exists out,
    simulate self a = Ok (self', out)
    /\ (forall key,
          length (get key out) = Nat.min (length (time raw)) 5000)
    /\ ((length (time raw) <= 5000)%nat -> out = raw).
Proof.
  intros E.
  destruct (decide (Config.DOWNSAMPLE_THRESHOLD
                    < Z.of_nat (length (time raw)))%Z) as [HL|HL].
  - destruct (DownsampleFacts.simulate_downsampled _ _ _ _ E HL)
      as (out & Es & Hout).
    exists out. split; [exact Es|].
    unfold Config.DOWNSAMPLE_THRESHOLD in HL. split; [|lia].
    intros key.
    destruct (DownsampleFacts.downsample_index (get key raw) (get key out))
      as [Hlen _].
    + rewrite (SimulatorFacts.raw_lengths _ _ _ _ key E). exact HL.
    + apply Hout.
    + unfold Config.DOWNSAMPLE_THRESHOLD in Hlen. lia.
  - exists raw. unfold Config.DOWNSAMPLE_THRESHOLD in HL.
    split; [|split; [|reflexivity]].
    + unfold simulate. rewrite E. cbn [Py.bind]. unfold downsample_all.
      destruct (decide _) as [H'|_]; [contradiction | reflexivity].
    + intros key. rewrite (SimulatorFacts.raw_lengths _ _ _ _ key E). lia.
Qed.

End WithController.

Lemma simulate_bad_time_step_witness :
  simulate Cases.stopped_clock Runs.default_args = Raise ZeroDivisionError
  /\ simulate Cases.backward_clock Runs.default_args = Raise ValueError.
Proof.
  split.
  - apply (simulate_bad_time_step Cases.stopped_clock Runs.default_args).
    reflexivity.
  - apply (simulate_bad_time_step Cases.backward_clock Runs.default_args);
      vm_decide.
Defined.

Lemma simulate_output_length_witness :
  exists self' out,
    simulate Runs.default_sim Runs.default_args = Ok (self', out)
    /\ length (temperature out) = 5000%nat.
Proof.
  destruct DownsampleFacts.default_run as (self' & raw & E & HL).
  destruct (simulate_output_length _ _ _ _ E) as (out & Es & Hlen & _).
  exists self', out. split; [exact Es|].
  pose proof (Hlen Temperature) as HT. cbn [get] in HT. rewrite HT.
  apply Nat.min_r. lia.
Defined.

Lemma floor_index_first (L : nat) : Runs.floor_index L 0 = O.
Proof. rewrite DownsampleFacts.floor_index_eq. reflexivity. Qed.

Lemma floor_index_last (L : nat) :
  (0 < L)%nat -> Runs.floor_index L 4999 = (L - 1)%nat.
Proof.
  intros HL. rewrite DownsampleFacts.floor_index_eq.
  change (Z.of_nat 4999) with 4999%Z.
  rewrite Z.mul_comm, Z.div_mul by lia. lia.
Qed.

(** No raw sample is taken twice. *)
Lemma floor_index_increasing (L i j : nat) :
  (5000 < L)%nat -> (i < j)%nat ->
  (Runs.floor_index L i < Runs.floor_index L j)%nat.
Proof.
  intros HL Hij. rewrite !DownsampleFacts.floor_index_eq.
  set (s := (Z.of_nat L - 1)%Z).
  assert (Hs : (4999 <= s)%Z) by (unfold s; lia).
  assert (Hstep : ((Z.of_nat i * s) / 4999 + 1
                   <= (Z.of_nat j * s) / 4999)%Z).
  { rewrite <- (Z.div_add _ 1 4999) by lia.
    apply Z.div_le_mono; [lia | nia]. }
  assert (H0 : (0 <= (Z.of_nat i * s) / 4999)%Z)
    by (apply Z.div_pos; nia).
  lia.
Qed.

(** X21.  Downsampling keeps the first and the last raw sample of
    every series and never takes a raw sample twice: the raw indices
    it selects increase strictly, so the downsampled time still
    starts at 0 and increases strictly. *)
Theorem downsample_keeps_ends_and_order {C : Type} `{Controller C}
    (self self' : t C) (a : args) (raw out : series) :
  simulate_raw self a = Ok (self', raw) ->
  let L := length (time raw) in
  (5000 < L)%nat ->
  simulate self a = Ok (self', out) ->
  (forall key,
     get key out !! O = get key raw !! O
     /\ get key out !! 4999%nat = get key raw !! (L - 1)%nat)
  /\ time out !! O = Some 0
  /\ (forall i j, (i < j)%nat ->
        (Runs.floor_index L i < Runs.floor_index L j)%nat)
  /\ (0 < time_step self ->
      forall i j ti tj,
        time out !! i = Some ti -> time out !! j = Some tj ->
        (i < j)%nat -> ti < tj).
Proof.
  intros E L HL Es.
  assert (HL' : (Config.DOWNSAMPLE_THRESHOLD < Z.of_nat L)%Z).
  { unfold Config.DOWNSAMPLE_THRESHOLD. lia. }
  destruct (DownsampleFacts.simulate_downsampled _ _ _ _ E HL')
    as (out' & Es' & Hout).
  assert (out' = out) by congruence. subst out'.
  assert (Hkey : forall key k, (k < 5000)%nat ->
            get key out !! k = get key raw !! Runs.floor_index L k).
  { intros key k Hk.
    destruct (DownsampleFacts.downsample_index (get key raw) (get key out))
      as [_ Hidx].
    - rewrite (SimulatorFacts.raw_lengths _ _ _ _ key E). exact HL'.
    - apply Hout.
    - rewrite Hidx by (unfold Config.DOWNSAMPLE_THRESHOLD; lia).
      rewrite (SimulatorFacts.raw_lengths _ _ _ _ key E). reflexivity. }
  assert (Htime : forall k, (k < 5000)%nat ->
            time out !! k
            = Some (Qc_of_Z (Z.of_nat (Runs.floor_index L k))
                    * time_step self)).
  { intros k Hk. pose proof (Hkey Time k Hk) as Hk'. cbn [get] in Hk'.
    rewrite Hk'.
    apply (SimulatorFacts.raw_time _ _ _ _ _ E).
    apply DownsampleFacts.floor_index_lt; lia. }
  assert (Hlen : length (time out) = 5000%nat).
  { destruct (DownsampleFacts.downsample_index (time raw) (time out))
      as [Hn _]; [exact HL' | exact (Hout Time) |].
    unfold Config.DOWNSAMPLE_THRESHOLD in Hn. lia. }
  split; [|split; [|split]].
  - intros key. rewrite !Hkey by lia.
    rewrite floor_index_first, floor_index_last by lia.
    split; reflexivity.
  - rewrite Htime by lia. rewrite floor_index_first.
    change (Z.of_nat 0) with 0%Z. rewrite Z2Qc_inj_0, Qcmult_0_l.
    reflexivity.
  - intros i j Hij. apply floor_index_increasing; assumption.
  - intros Hdt i j ti tj Hi Hj Hij.
    assert (Hi' : (i < 5000)%nat).
    { apply lookup_lt_Some in Hi. lia. }
    assert (Hj' : (j < 5000)%nat).
    { apply lookup_lt_Some in Hj. lia. }
    rewrite Htime in Hi by exact Hi'. rewrite Htime in Hj by exact Hj'.
    injection Hi as <-. injection Hj as <-.
    apply Qcmult_lt_compat_r; [exact Hdt|].
    apply (proj1 (Z2Qc_inj_lt _ _)).
    pose proof (floor_index_increasing L i j HL Hij). lia.
Qed.

Lemma downsample_keeps_ends_and_order_witness :
  exists self' raw out,
    simulate_raw Runs.default_sim Runs.default_args = Ok (self', raw)
    /\ simulate Runs.default_sim Runs.default_args = Ok (self', out)
    /\ time out !! O = Some 0
    /\ temperature out !! 4999%nat
       = temperature raw !! (length (time raw) - 1)%nat.
Proof.
  destruct DownsampleFacts.default_run as (self' & raw & E & HL).
  destruct (DownsampleFacts.simulate_downsampled _ _ _ _ E)
    as (out & Es & _); [rewrite HL; reflexivity|].
  destruct (downsample_keeps_ends_and_order _ _ _ _ _ E ltac:(lia) Es)
    as (Hends & H0 & _).
  exists self', raw, out. split; [exact E|]. split; [exact Es|].
  split; [exact H0|]. apply (Hends Temperature).
Defined.

End SimulatorExtras.

(** ** Simulator: which setpoints *)

Module PlanFacts.
Import PCRSimulator.

Lemma setitem_inv (arr arr' : list Qc) (i : nat) (v : Qc) :
  Np.setitem arr i v = Ok arr' ->
  (i < length arr)%nat /\ arr' = <[i := v]> arr.
Proof.
  unfold Np.setitem. destruct (decide (i < length arr)%nat);
    [|discriminate]. intros [= <-]. split; [assumption | reflexivity].
Qed.

Section WithController.

Context {C : Type} `{Controller C}.

(** What one pass through the loop body does. *)
Lemma loop_body_eq (sp : Qc) (st st' : loop_state C) :
  loop_body sp st = Ok st' ->
  exists ctrl u plant T',
    update (pid_controller (sim st)) sp
           (ThermalModel.temperature (thermal_model (sim st)))
           (time_step (sim st)) = Ok (ctrl, u)
    /\ ThermalModel.update (thermal_model (sim st)) u (time_step (sim st))
       = Ok (plant, T')
    /\ (forall key, (step st < length (get key (arrays st)))%nat)
    /\ st'
       = {| sim := {| thermal_model := plant; pid_controller := ctrl;
                      time_step := time_step (sim st) |};
            arrays :=
              {| time := <[step st := current_time st]> (time (arrays st));
                 temperature :=
                   <[step st :=
                       ThermalModel.temperature (thermal_model (sim st))]>
                     (temperature (arrays st));
                 setpoint := <[step st := sp]> (setpoint (arrays st));
                 control := <[step st := u]> (control (arrays st));
                 error :=
                   <[step st :=
                       sp - ThermalModel.temperature
                              (thermal_model (sim st))]>
                     (error (arrays st));
                 p_term :=
                   <[step st := (get_components ctrl).1.1]>
                     (p_term (arrays st));
                 i_term :=
                   <[step st := (get_components ctrl).1.2]>
                     (i_term (arrays st));
                 d_term :=
                   <[step st := (get_components ctrl).2]>
                     (d_term (arrays st)) |};
            current_time := current_time st + time_step (sim st);
            step := S (step st) |}.
Proof.
  unfold loop_body. intros E.
  destruct (update _ _ _ _) as [[ctrl u]| |] eqn:Eu;
    cbn [Py.bind] in E; try discriminate.
  destruct (ThermalModel.update _ _ _) as [[plant T']| |] eqn:Ep;
    cbn [Py.bind] in E; try discriminate.
  destruct (Np.setitem (time _) _ _) as [a1| |] eqn:E1;
    cbn [Py.bind] in E; try discriminate.
  destruct (Np.setitem (temperature _) _ _) as [a2| |] eqn:E2;
    cbn [Py.bind] in E; try discriminate.
  destruct (Np.setitem (setpoint _) _ _) as [a3| |] eqn:E3;
    cbn [Py.bind] in E; try discriminate.
  destruct (Np.setitem (control _) _ _) as [a4| |] eqn:E4;
    cbn [Py.bind] in E; try discriminate.
  destruct (Np.setitem (error _) _ _) as [a5| |] eqn:E5;
    cbn [Py.bind] in E; try discriminate.
  destruct (get_components ctrl) as [[p i] d] eqn:Eg.
  destruct (Np.setitem (p_term _) _ _) as [a6| |] eqn:E6;
    cbn [Py.bind] in E; try discriminate.
  destruct (Np.setitem (i_term _) _ _) as [a7| |] eqn:E7;
    cbn [Py.bind] in E; try discriminate.
  destruct (Np.setitem (d_term _) _ _) as [a8| |] eqn:E8;
    cbn [Py.bind] in E; try discriminate.
  injection E as <-.
  apply setitem_inv in E1, E2, E3, E4, E5, E6, E7, E8.
  destruct E1 as [H1 ->], E2 as [H2 ->], E3 as [H3 ->], E4 as [H4 ->],
    E5 as [H5 ->], E6 as [H6 ->], E7 as [H7 ->], E8 as [H8 ->].
  exists ctrl, u, plant, T'.
  split; [first [reflexivity | exact Eu]|].
  split; [first [reflexivity | exact Ep]|].
  split; [intros []; assumption|]. rewrite ?Eg. reflexivity.
Qed.

(** A stage writes its setpoint at every pass it takes. *)
Lemma stage_loop_setpoints (num_steps : Z) (sp stage_end : Qc)
    (fuel : nat) :
  forall st st' : loop_state C,
    (step st <= length (setpoint (arrays st)))%nat ->
    stage_loop fuel num_steps sp stage_end st = Ok st' ->
    (step st <= step st')%nat
    /\ (step st' <= length (setpoint (arrays st')))%nat
    /\ take (step st') (setpoint (arrays st'))
       = take (step st) (setpoint (arrays st))
         ++ replicate (step st' - step st) sp.
Proof.
  induction fuel as [|fuel IH]; intros st st' HL E;
    cbn [stage_loop] in E.
  - destruct (decide _); [discriminate|]. injection E as <-.
    split; [lia|]. split; [exact HL|].
    rewrite Nat.sub_diag. cbn. rewrite app_nil_r. reflexivity.
  - destruct (decide _) as [_|_].
    + destruct (loop_body sp st) as [st1| |] eqn:Eb;
        cbn [Py.bind] in E; try discriminate.
      destruct (loop_body_eq _ _ _ Eb)
        as (ctrl & u & plant & T' & _ & _ & Hlen & Est1).
      assert (Hstep1 : step st1 = S (step st))
        by (rewrite Est1; reflexivity).
      assert (Hset1 : setpoint (arrays st1)
                      = <[step st := sp]> (setpoint (arrays st)))
        by (rewrite Est1; reflexivity).
      pose proof (Hlen Setpoint) as Hls. cbn [get] in Hls.
      destruct (IH st1 st') as (Hle & Hl' & Ht');
        [rewrite Hstep1, Hset1, length_insert; lia | exact E |].
      split; [lia|]. split; [exact Hl'|].
      rewrite Ht', Hstep1, Hset1.
      rewrite (take_S_r _ _ sp)
        by (apply list_lookup_insert_eq; exact Hls).
      rewrite take_insert_ge by lia.
      replace (step st' - step st)%nat
        with (S (step st' - S (step st)))%nat by lia.
      rewrite <- app_assoc. reflexivity.
    + injection E as <-. split; [lia|]. split; [exact HL|].
      rewrite Nat.sub_diag. cbn. rewrite app_nil_r. reflexivity.
Qed.

(** The stages of a protocol write their setpoints one block after
    the other. *)
Lemma run_stages_setpoints (num_steps : Z) (fuel : nat)
    (protocol : list (Qc * Qc)) :
  forall st st' : loop_state C,
    (step st <= length (setpoint (arrays st)))%nat ->
    run_stages fuel num_steps protocol st = Ok st' ->
    exists counts,
      length counts = length protocol
      /\ step st' = (step st + sum_list counts)%nat
      /\ (step st' <= length (setpoint (arrays st')))%nat
      /\ take (step st') (setpoint (arrays st'))
         = take (step st) (setpoint (arrays st))
           ++ Plan.blocks counts protocol.*1.
Proof.
  induction protocol as [|[sp d] protocol IH]; intros st st' HL E;
    cbn [run_stages] in E.
  - injection E as <-. exists []. cbn. rewrite app_nil_r.
    split; [reflexivity|]. split; [lia|]. split; [exact HL|reflexivity].
  - destruct (stage_loop _ _ _ _ _) as [st1| |] eqn:Es;
      cbn [Py.bind] in E; try discriminate.
    destruct (stage_loop_setpoints _ _ _ _ _ _ HL Es)
      as (Hle1 & HL1 & Ht1).
    destruct (IH st1 st' HL1 E) as (counts & Hlen & Hs & HL' & Ht).
    exists ((step st1 - step st)%nat :: counts). cbn.
    split; [rewrite Hlen; reflexivity|]. split; [lia|].
    split; [exact HL'|].
    rewrite Ht, Ht1. unfold Plan.blocks. rewrite <- app_assoc.
    reflexivity.
Qed.

End WithController.

Section Run.

Context {C : Type} `{Controller C}.

(** X23.  The setpoint series of a returning run follows the
    protocol: it is the temperature of the first stage some number
    of times, then that of the second stage, and so on in protocol
    order, one block per stage and no stage revisited; a block may be
    empty, but not the first one, so the series starts with the
    initial temperature; the blocks add up to the number of samples
    recorded. *)
Theorem setpoint_series (self self' : t C) (a : args) (raw : series) :
  0 < time_step self ->
  Forall (fun stage : Qc * Qc => 0 < stage.2) (_build_protocol a) ->
  simulate_raw self a = Ok (self', raw) ->
  exists counts,
    length counts = length (_build_protocol a)
    /\ setpoint raw = Plan.blocks counts (_build_protocol a).*1
    /\ sum_list counts = length (time raw)
    /\ (exists c rest, counts = S c :: rest)
    /\ setpoint raw !! O = Some (initial_temp a).
Proof.
  intros Hdt Hpos E.
  destruct (SimulatorFacts.simulate_raw_inv _ _ _ _ E)
    as (ns & st & Hns & Hge & Er & _ & Hraw).
  destruct (SimulatorFacts.num_steps_of_eq _ _ _ Hdt Hpos Hns) as [_ H1].
  remember (Z.to_nat ns) as N eqn:HN.
  assert (Hid : ns = Z.of_nat N) by lia. rewrite Hid in Er.
  destruct (SimulatorFacts.run_stages_inv N _ _ _ _ _ _
              (SimulatorFacts.start_inv self N) Er) as (Inv & _).
  pose proof (SimulatorFacts.trim_length _ _ _ _ Time Inv) as HLt.
  rewrite <- Hraw in HLt. cbn [get] in HLt.
  rewrite ProtocolFacts.build_protocol_eq in *. cbn [app] in *.
  pose proof (Forall_inv Hpos) as Hd. cbn [snd] in Hd.
  cbn [run_stages] in Er.
  set (st0 := start self (replicate N 0)) in *.
  destruct (stage_loop _ _ _ _ _) as [st1| |] eqn:Es;
    cbn [Py.bind] in Er; try discriminate.
  assert (Hfirst : (1 <= step st1)%nat).
  { apply (RawSeriesFacts.run_stages_first N N (time_step self)
             (ThermalModel.reset (thermal_model self) None)
             (initial_temp a) (initial_duration a) []
             st0 st1
             (SimulatorFacts.start_inv self N) eq_refl ltac:(lia) Hd).
    cbn [run_stages]. rewrite Es. reflexivity. }
  assert (HL0 : (step st0 <= length (setpoint (arrays st0)))%nat)
    by (cbn; lia).
  destruct (stage_loop_setpoints _ _ _ _ _ _ HL0 Es) as (_ & HL1 & Ht1).
  destruct (run_stages_setpoints _ _ _ _ _ HL1 Er)
    as (counts & Hlen & Hs & HL' & Ht).
  unfold st0 in Ht1. cbn [step start] in Ht1. rewrite take_0, app_nil_l, Nat.sub_0_r in Ht1.
  assert (Hseries : setpoint raw
            = replicate (step st1) (initial_temp a)
              ++ Plan.blocks counts
                   (concat (replicate (Z.to_nat (num_cycles a))
                              (Runs.cycle a))
                    ++ [(final_temp a, final_duration a);
                        (hold_temp a, hold_duration a)]).*1).
  { rewrite Hraw. cbn [trim setpoint]. rewrite Ht, Ht1. reflexivity. }
  exists (step st1 :: counts).
  split; [cbn; rewrite Hlen; reflexivity|].
  split; [exact Hseries|].
  split; [cbn; lia|].
  destruct (step st1) as [|c] eqn:Ec; [lia|].
  split; [eauto|]. rewrite Hseries. reflexivity.
Qed.

End Run.

Lemma setpoint_series_witness :
  exists self' raw counts,
    simulate_raw Cases.uneven_sim Cases.uneven_args = Ok (self', raw)
    /\ setpoint raw = Plan.blocks counts [real 95; real 72; real 10]
    /\ setpoint raw !! O = Some (real 95).
Proof.
  destruct (simulate_raw Cases.uneven_sim Cases.uneven_args)
    as [[self' raw]| |] eqn:E;
    [|exfalso; vm_compute in E; discriminate E..].
  destruct (setpoint_series Cases.uneven_sim self' Cases.uneven_args raw)
    as (counts & _ & Hseries & _ & _ & H0); [vm_decide | vm_decide | exact E |].
  exists self', raw, counts. split; [reflexivity|].
  split; [exact Hseries | exact H0].
Defined.

End PlanFacts.

(** ** Simulator: what every sample satisfies *)

Module SeriesFacts.
Import PCRSimulator.

Section WithController.

Context {C : Type} `{Controller C}.

(** A property [good] of the controller that [update] keeps, and a
    property [rec_ok] of what a pass records that follows from it. *)
Variable good : C -> Prop.
Variable rec_ok : Qc -> Qc -> Qc -> Qc * Qc * Qc -> Prop.

Hypothesis step_ok : forall c sp m d c' u,
  good c -> update c sp m d = Ok (c', u) ->
  good c' /\ rec_ok sp m u (get_components c').

Lemma loop_body_samples (sp : Qc) (st st' : loop_state C) :
  good (pid_controller (sim st)) ->
  Plan.samples_ok rec_ok (step st) (arrays st) ->
  loop_body sp st = Ok st' ->
  good (pid_controller (sim st'))
  /\ Plan.samples_ok rec_ok (step st') (arrays st').
Proof.
  intros Hgood Hok E.
  destruct (PlanFacts.loop_body_eq _ _ _ E)
    as (ctrl & u & plant & T' & Eu & _ & Hlen & ->).
  destruct (step_ok _ _ _ _ _ _ Hgood Eu) as [Hgood' Hrec].
  split; [exact Hgood'|]. cbn [step arrays]. intros k Hk.
  pose proof (Hlen Temperature) as HT. pose proof (Hlen Setpoint) as Hs.
  pose proof (Hlen Control) as Hc. pose proof (Hlen P_term) as Hp.
  pose proof (Hlen I_term) as Hi. pose proof (Hlen D_term) as Hd.
  cbn [get] in HT, Hs, Hc, Hp, Hi, Hd.
  cbn [setpoint temperature control p_term i_term d_term].
  destruct (decide (k = step st)) as [->|Hne].
  - rewrite !list_lookup_insert_eq by assumption.
    eexists _, _, _, _, _, _.
    split; [reflexivity|]. split; [reflexivity|]. split; [reflexivity|].
    split; [reflexivity|]. split; [reflexivity|]. split; [reflexivity|].
    destruct (get_components ctrl) as [[p i] d]. exact Hrec.
  - rewrite !list_lookup_insert_ne by auto. apply Hok. lia.
Qed.

Lemma iterations_samples (n : nat) (st st' : loop_state C) :
  iterations n st st' ->
  good (pid_controller (sim st)) ->
  Plan.samples_ok rec_ok (step st) (arrays st) ->
  good (pid_controller (sim st'))
  /\ Plan.samples_ok rec_ok (step st') (arrays st').
Proof.
  induction 1 as [st|n sp st st1 st2 E _ IH]; intros Hgood Hok.
  - split; assumption.
  - destruct (loop_body_samples _ _ _ Hgood Hok E) as [Hgood1 Hok1].
    apply IH; assumption.
Qed.

(** Every sample of a returning run satisfies [rec_ok]. *)
Lemma simulate_raw_samples (self self' : t C) (a : args) (raw : series) :
  good (reset (pid_controller self)) ->
  simulate_raw self a = Ok (self', raw) ->
  Plan.samples_ok rec_ok (length (time raw)) raw.
Proof.
  intros Hgood E.
  destruct (SimulatorFacts.simulate_raw_inv _ _ _ _ E)
    as (ns & st & _ & Hge & Er & _ & ->).
  remember (Z.to_nat ns) as N eqn:HN.
  assert (Hid : ns = Z.of_nat N) by lia. rewrite Hid in Er.
  destruct (SimulatorFacts.run_stages_inv N _ _ _ _ _ _
              (SimulatorFacts.start_inv self N) Er)
    as (Inv & n & Hit & _).
  destruct (iterations_samples _ _ _ Hit Hgood) as [_ Hok].
  { intros k Hk. cbn in Hk. lia. }
  pose proof (SimulatorFacts.trim_length _ _ _ _ Time Inv) as HL.
  cbn [get] in HL. rewrite HL. intros k Hk.
  destruct (Hok k Hk) as (sp & T & u & p & i & d & H1 & H2 & H3 & H4 & H5
                          & H6 & Hrec).
  exists sp, T, u, p, i, d.
  pose proof (SimulatorFacts.trim_lookup st Setpoint k Hk) as L1.
  pose proof (SimulatorFacts.trim_lookup st Temperature k Hk) as L2.
  pose proof (SimulatorFacts.trim_lookup st Control k Hk) as L3.
  pose proof (SimulatorFacts.trim_lookup st P_term k Hk) as L4.
  pose proof (SimulatorFacts.trim_lookup st I_term k Hk) as L5.
  pose proof (SimulatorFacts.trim_lookup st D_term k Hk) as L6.
  cbn [get] in L1, L2, L3, L4, L5, L6.
  rewrite L1, L2, L3, L4, L5, L6. auto 10.
Qed.

End WithController.

Section Run.

Context {C : Type} `{Controller C}.

(** Every value [simulate] returns is a value of the raw series. *)
Lemma simulate_from_raw (self self' : t C) (a : args) (out : series) :
  simulate self a = Ok (self', out) ->
  exists raw,
    simulate_raw self a = Ok (self', raw)
    /\ forall key k v,
         get key out !! k = Some v ->
         exists j, get key raw !! j = Some v.
Proof.
  intros Es.
  destruct (simulate_raw self a) as [[s raw]| |] eqn:Er;
    [|unfold simulate in Es; rewrite Er in Es; discriminate..].
  destruct (decide (Config.DOWNSAMPLE_THRESHOLD
                    < Z.of_nat (length (time raw)))%Z) as [HL|HL].
  - destruct (DownsampleFacts.simulate_downsampled _ _ _ _ Er HL)
      as (out' & Es' & Hout).
    rewrite Es' in Es. injection Es as -> ->.
    exists raw. split; [reflexivity|]. intros key k v Hk.
    destruct (DownsampleFacts.downsample_index (get key raw) (get key out))
      as [Hlen Hidx].
    + rewrite (SimulatorFacts.raw_lengths _ _ _ _ key Er). exact HL.
    + apply Hout.
    + exists (Runs.floor_index (length (get key raw)) k).
      rewrite <- Hidx; [exact Hk|]. apply lookup_lt_Some in Hk. lia.
  - unfold simulate in Es. rewrite Er in Es. cbn [Py.bind] in Es.
    unfold downsample_all in Es.
    destruct (decide _) as [H'|_] in Es; [contradiction|].
    injection Es as -> <-. exists raw. split; [reflexivity|]. eauto.
Qed.

(** A run returns when the controller's updates do and the heat
    capacity is not zero. *)
Lemma simulate_total (self : t C) (a : args) (good : C -> Prop) :
  0 < time_step self ->
  Forall (fun stage : Qc * Qc => 0 < stage.2) (_build_protocol a) ->
  (forall c sp m d,
     good c -> exists c' u, update c sp m d = Ok (c', u) /\ good c') ->
  good (reset (pid_controller self)) ->
  ThermalModel.total_heat_capacity (thermal_model self) <> 0 ->
  exists self' raw out,
    simulate_raw self a = Ok (self', raw)
    /\ simulate self a = Ok (self', out).
Proof.
  intros Hdt Hpos Hupdate Hgood HC.
  assert (Hraw : exists r, simulate_raw self a = Ok r).
  { unfold simulate_raw.
    destruct (num_steps_of self a) as [ns| |] eqn:Hns.
    2,3: exfalso; unfold num_steps_of in Hns;
         rewrite div_ok in Hns by (intros E; qc_lra); discriminate.
    destruct (SimulatorFacts.num_steps_of_eq _ _ _ Hdt Hpos Hns)
      as [_ Hge].
    cbn [Py.bind]. unfold Np.zeros.
    destruct (decide (ns < 0)%Z); [lia|]. cbn [Py.bind].
    remember (Z.to_nat ns) as N eqn:HN.
    assert (Hid : ns = Z.of_nat N) by lia. rewrite Hid.
    destruct (SimulatorFacts.run_stages_ok N (time_step self)
                (ThermalModel.reset (thermal_model self) None)
                good Hupdate HC N (_build_protocol a)
                (start self (replicate N 0)))
      as [st ->]; [apply SimulatorFacts.start_inv | lia | exact Hgood |].
    cbn. eauto. }
  destruct Hraw as [[self' raw] Er]. exists self', raw.
  destruct (decide (Config.DOWNSAMPLE_THRESHOLD
                    < Z.of_nat (length (time raw)))%Z) as [HL|HL].
  - destruct (DownsampleFacts.simulate_downsampled _ _ _ _ Er HL)
      as (out & Es & _).
    exists out. split; [exact Er | exact Es].
  - exists raw. split; [exact Er|].
    unfold simulate. rewrite Er. cbn [Py.bind]. unfold downsample_all.
    destruct (decide _) as [H'|_]; [contradiction | reflexivity].
Qed.

End Run.

Lemma fuzzy_update_good (c : FuzzyController.t) (sp m d : Qc) :
  True ->
  exists c' u, update c sp m d = Ok (c', u) /\ True.
Proof.
  intros _. destruct (FuzzyFacts.update_ok c sp m d) as (c' & u & E & _).
  eauto.
Qed.

(** One update keeps the limits and obeys them. *)
Lemma pid_step_limits (lo hi : Qc) (c c' : PIDController.t)
    (sp m d u : Qc) :
  lo <= hi ->
  PIDController.output_min c = lo /\ PIDController.output_max c = hi ->
  update c sp m d = Ok (c', u) ->
  (PIDController.output_min c' = lo /\ PIDController.output_max c' = hi)
  /\ lo <= u <= hi.
Proof.
  intros Hle [Hlo Hhi] Eu.
  destruct (PIDFacts.update_config _ _ _ _ _ _ Eu)
    as (_ & _ & _ & Hmin & Hmax).
  split; [split; congruence|].
  rewrite <- Hlo, <- Hhi.
  apply (PIDFacts.pid_update_within_limits _ _ _ _ _ _
           ltac:(rewrite Hlo, Hhi; exact Hle) Eu).
Qed.

Lemma fuzzy_step_limits (lo hi : Qc) (c c' : FuzzyController.t)
    (sp m d u : Qc) :
  lo <= hi ->
  FuzzyController.output_min c = lo /\ FuzzyController.output_max c = hi ->
  update c sp m d = Ok (c', u) ->
  (FuzzyController.output_min c' = lo /\ FuzzyController.output_max c' = hi)
  /\ lo <= u <= hi.
Proof.
  intros Hle [Hlo Hhi] Eu.
  destruct (FuzzyFacts.update_ok c sp m d)
    as (c'' & u_norm & Eu' & Hmin & Hmax & _).
  cbn [update Fuzzy_Controller] in Eu. rewrite Eu' in Eu.
  injection Eu as <- <-.
  split; [split; congruence|].
  rewrite <- Hlo, <- Hhi. apply PIDFacts.clamp_within.
  rewrite Hlo, Hhi. exact Hle.
Qed.

(** X24.  Every control output that [simulate] returns, raw or
    downsampled, lies within the limits of the controller that ran,
    for the PID controller and for the fuzzy controller: the limits
    are part of the configuration, which no step of the run
    changes. *)
Theorem control_series_within_limits
    (pid_sim pid_sim' : t PIDController.t)
    (fuzzy_sim fuzzy_sim' : t FuzzyController.t)
    (a b : args) (r1 r2 : series) :
  let pid := pid_controller pid_sim in
  let fuzzy := pid_controller fuzzy_sim in
  PIDController.output_min pid <= PIDController.output_max pid ->
  FuzzyController.output_min fuzzy <= FuzzyController.output_max fuzzy ->
  simulate pid_sim a = Ok (pid_sim', r1) ->
  simulate fuzzy_sim b = Ok (fuzzy_sim', r2) ->
  Forall (fun u => PIDController.output_min pid <= u
                   <= PIDController.output_max pid) (control r1)
  /\ Forall (fun u => FuzzyController.output_min fuzzy <= u
                      <= FuzzyController.output_max fuzzy) (control r2).
Proof.
  intros pid fuzzy Hpid Hfuzzy E1 E2.
  assert (Hseries : forall (C : Type) (HC : Controller C)
            (self self' : t C) (c : args) (out : series)
            (good : C -> Prop) (lo hi : Qc),
            (forall c sp m d c' u,
               good c -> update c sp m d = Ok (c', u) ->
               good c' /\ lo <= u <= hi) ->
            good (reset (pid_controller self)) ->
            simulate self c = Ok (self', out) ->
            Forall (fun u => lo <= u <= hi) (control out)).
  { clear. intros C HC self self' c out good lo hi Hstep Hgood Es.
    destruct (simulate_from_raw _ _ _ _ Es) as (raw & Er & Hvals).
    pose proof (simulate_raw_samples good (fun _ _ u _ => lo <= u <= hi)
                  Hstep _ _ _ _ Hgood Er) as Hok.
    apply Forall_lookup. intros k v Hk.
    destruct (Hvals Control k v Hk) as [j Hj]. cbn [get] in Hj.
    destruct (Hok j) as (_ & _ & u & _ & _ & _ & _ & _ & Hu & _ & _ & _ & Hb).
    { apply lookup_lt_Some in Hj.
      rewrite <- (SimulatorFacts.raw_lengths _ _ _ _ Control Er).
      exact Hj. }
    rewrite Hj in Hu. injection Hu as ->. exact Hb. }
  split.
  - apply (Hseries _ _ pid_sim pid_sim' a r1
             (fun c => PIDController.output_min c
                       = PIDController.output_min pid
                       /\ PIDController.output_max c
                          = PIDController.output_max pid));
      [|split; reflexivity | exact E1].
    intros c sp m d c' u. apply pid_step_limits, Hpid.
  - apply (Hseries _ _ fuzzy_sim fuzzy_sim' b r2
             (fun c => FuzzyController.output_min c
                       = FuzzyController.output_min fuzzy
                       /\ FuzzyController.output_max c
                          = FuzzyController.output_max fuzzy));
      [|split; reflexivity | exact E2].
    intros c sp m d c' u. apply fuzzy_step_limits, Hfuzzy.
Qed.

Lemma control_series_within_limits_witness :
  exists pid_sim' fuzzy_sim' r1 r2,
    simulate Runs.default_sim Runs.default_args = Ok (pid_sim', r1)
    /\ simulate Cases.fuzzy_sim Runs.default_args = Ok (fuzzy_sim', r2)
    /\ Forall (fun u => real (-150) <= u <= real 250) (control r1)
    /\ Forall (fun u => real (-150) <= u <= real 250) (control r2).
Proof.
  destruct (simulate_total Runs.default_sim Runs.default_args
              (fun c => PIDController.kp c <> 0))
    as (pid_sim' & _ & r1 & _ & E1);
    [vm_decide | vm_decide | exact PIDFacts.update_good | vm_decide
    |vm_decide |].
  destruct (simulate_total Cases.fuzzy_sim Runs.default_args
              (fun _ => True))
    as (fuzzy_sim' & _ & r2 & _ & E2);
    [vm_decide | vm_decide | exact fuzzy_update_good | exact I
    |vm_decide |].
  exists pid_sim', fuzzy_sim', r1, r2.
  split; [exact E1|]. split; [exact E2|].
  apply (control_series_within_limits Runs.default_sim pid_sim'
           Cases.fuzzy_sim fuzzy_sim' Runs.default_args Runs.default_args
           r1 r2); [vm_decide | vm_decide | exact E1 | exact E2].
Defined.

(** X25.  In the raw series of a PID run the P series is the error
    (setpoint minus temperature, not multiplied by [Kp]), and at
    every index the control output is the clamp of
    [Kp * (P + I + D)], or else the anti-windup branch was entered
    ([Ti > 0], [Kp] not zero): then the control output is one of the
    two limits and the I value recorded is [control / Kp - P - D];
    in the raw series of a fuzzy run the three component series are
    0 throughout. *)
Theorem component_series
    (pid_sim pid_sim' : t PIDController.t)
    (fuzzy_sim fuzzy_sim' : t FuzzyController.t)
    (a b : args) (raw1 raw2 : series) :
  simulate_raw pid_sim a = Ok (pid_sim', raw1) ->
  simulate_raw fuzzy_sim b = Ok (fuzzy_sim', raw2) ->
  let pid := pid_controller pid_sim in
  (forall k, (k < length (time raw1))%nat ->
     exists sp T u p i d,
       setpoint raw1 !! k = Some sp
       /\ temperature raw1 !! k = Some T
       /\ control raw1 !! k = Some u
       /\ p_term raw1 !! k = Some p
       /\ i_term raw1 !! k = Some i
       /\ d_term raw1 !! k = Some d
       /\ p = sp - T
       /\ (u = PIDController.clamp_output pid
                 (PIDController.kp pid * (p + i + d))
           \/ (0 < PIDController.ti pid /\ PIDController.kp pid <> 0
               /\ (u = PIDController.output_min pid
                   \/ u = PIDController.output_max pid)
               /\ i = u / PIDController.kp pid - p - d)))
  /\ (forall k, (k < length (time raw2))%nat ->
        p_term raw2 !! k = Some 0
        /\ i_term raw2 !! k = Some 0
        /\ d_term raw2 !! k = Some 0).
Proof.
  intros E1 E2 pid. split.
  - pose proof (simulate_raw_samples
      (fun c => PIDController.kp c = PIDController.kp pid
                /\ PIDController.ti c = PIDController.ti pid
                /\ PIDController.output_min c = PIDController.output_min pid
                /\ PIDController.output_max c = PIDController.output_max pid)
      (fun sp T u c =>
         c.1.1 = sp - T
         /\ (u = PIDController.clamp_output pid
                   (PIDController.kp pid * (c.1.1 + c.1.2 + c.2))
             \/ (0 < PIDController.ti pid /\ PIDController.kp pid <> 0
                 /\ (u = PIDController.output_min pid
                     \/ u = PIDController.output_max pid)
                 /\ c.1.2 = u / PIDController.kp pid - c.1.1 - c.2))))
      as Hok.
    intros k Hk. eapply Hok in Hk; [| |split; [|split; [|split]];
      reflexivity|exact E1].
    + destruct Hk as (sp & T & u & p & i & d & H1 & H2 & H3 & H4 & H5
                      & H6 & Hp & Hu).
      exists sp, T, u, p, i, d. cbn [fst snd] in Hp, Hu. auto 12.
    + clear. intros c sp m d c' u (Hkp & Hti & Hmin & Hmax) Eu.
      destruct (PIDFacts.update_config _ _ _ _ _ _ Eu)
        as (Hkp' & Hti' & _ & Hmin' & Hmax').
      split; [repeat split; congruence|].
      destruct (PIDExtras.update_components _ _ _ _ _ _ Eu)
        as (Hp & Hu).
      cbn [get_components PID_Controller fst snd].
      unfold PIDController.get_components. cbn [fst snd].
      split; [exact Hp|].
      destruct Hu as [Hu|(Ht & Hk & Hlim & Hi)]; [left|right].
      * rewrite Hu. unfold PIDController.clamp_output.
        rewrite Hkp, Hmin, Hmax. reflexivity.
      * rewrite <- Hkp, <- Hti, <- Hmin, <- Hmax. auto.
  - pose proof (simulate_raw_samples
      (fun _ : FuzzyController.t => True)
      (fun _ _ _ c => c = (0, 0, 0))) as Hok.
    intros k Hk. eapply Hok in Hk; [| |exact I|exact E2].
    + destruct Hk as (sp & T & u & p & i & d & _ & _ & _ & H4 & H5
                      & H6 & Hc).
      injection Hc as -> -> ->. auto.
    + clear. intros c sp m d c' u _ _. split; [exact I|]. reflexivity.
Qed.

Lemma component_series_witness :
  exists pid_sim' fuzzy_sim' raw1 raw2,
    simulate_raw Runs.default_sim Runs.default_args = Ok (pid_sim', raw1)
    /\ simulate_raw Cases.fuzzy_sim Runs.default_args
       = Ok (fuzzy_sim', raw2)
    /\ (forall k, (k < length (time raw2))%nat ->
          p_term raw2 !! k = Some 0).
Proof.
  destruct (simulate_total Runs.default_sim Runs.default_args
              (fun c => PIDController.kp c <> 0))
    as (pid_sim' & raw1 & _ & E1 & _);
    [vm_decide | vm_decide | exact PIDFacts.update_good | vm_decide
    |vm_decide |].
  destruct (simulate_total Cases.fuzzy_sim Runs.default_args
              (fun _ => True))
    as (fuzzy_sim' & raw2 & _ & E2 & _);
    [vm_decide | vm_decide | exact fuzzy_update_good | exact I
    |vm_decide |].
  exists pid_sim', fuzzy_sim', raw1, raw2.
  split; [exact E1|]. split; [exact E2|].
  destruct (component_series _ _ _ _ _ _ _ _ E1 E2) as [_ Hz].
  intros k Hk. apply (Hz k Hk).
Defined.

Section Power.

Context {C : Type} `{Controller C}.

(** The plant step between two consecutive samples of a run. *)
Lemma raw_step (self self' : t C) (a : args) (raw : series) (k : nat)
    (T u T' : Qc) :
  simulate_raw self a = Ok (self', raw) ->
  temperature raw !! k = Some T ->
  control raw !! k = Some u ->
  temperature raw !! S k = Some T' ->
  let plant0 := ThermalModel.reset (thermal_model self) None in
  ThermalModel.update (ThermalModel.set_temperature plant0 T) u
                      (time_step self)
  = Ok (ThermalModel.set_temperature plant0 T', T').
Proof.
  intros E HT Hu HT' plant0.
  destruct (SimulatorFacts.raw_inv _ _ _ _ E) as (N & st & Inv & _ & ->).
  pose proof (SimulatorFacts.trim_length _ _ _ _ Temperature Inv) as HL.
  cbn [get] in HL.
  assert (Hk : (S k < step st)%nat).
  { apply lookup_lt_Some in HT'. lia. }
  pose proof (SimulatorFacts.trim_lookup st Temperature k ltac:(lia)) as L1.
  pose proof (SimulatorFacts.trim_lookup st Control k ltac:(lia)) as L2.
  pose proof (SimulatorFacts.trim_lookup st Temperature (S k) Hk) as L3.
  cbn [get] in L1, L2, L3. rewrite L1 in HT. rewrite L2 in Hu.
  rewrite L3 in HT'.
  destruct (inv_chain _ _ _ _ Inv k ltac:(lia))
    as (T0 & u0 & T1 & HT0 & Hu0 & Hupd & Hnext).
  destruct (decide (S k < step st)%nat); [|contradiction].
  rewrite HT in HT0. injection HT0 as <-.
  rewrite Hu in Hu0. injection Hu0 as <-.
  rewrite HT' in Hnext. injection Hnext as <-.
  exact Hupd.
Qed.

(** When the controller never asks for more than the plant can
    give, the plant applies what the controller asks for. *)
Lemma raw_step_unclipped (self self' : t C) (a : args) (raw : series)
    (good : C -> Prop) (lo hi : Qc) :
  let plant := thermal_model self in
  0 <= ThermalModel.heating_power plant ->
  0 <= ThermalModel.cooling_power plant ->
  - ThermalModel.cooling_power plant <= lo ->
  hi <= ThermalModel.heating_power plant ->
  (forall c sp m d c' u,
     good c -> update c sp m d = Ok (c', u) -> good c' /\ lo <= u <= hi) ->
  good (reset (pid_controller self)) ->
  simulate_raw self a = Ok (self', raw) ->
  forall k T u T',
    temperature raw !! k = Some T ->
    control raw !! k = Some u ->
    temperature raw !! S k = Some T' ->
    T' = T + ((u - ThermalModel.heat_loss_coef plant
                   * (T - ThermalModel.ambient_temp plant))
              / ThermalModel.total_heat_capacity plant)
             * time_step self.
Proof.
  intros plant Hh Hc Hlo Hhi Hstep Hgood E k T u T' HT Hu HT'.
  pose proof (raw_step _ _ _ _ _ _ _ _ E HT Hu HT') as Hupd.
  pose proof (simulate_raw_samples good (fun _ _ u _ => lo <= u <= hi)
                Hstep _ _ _ _ Hgood E) as Hok.
  destruct (Hok k) as (_ & _ & u' & _ & _ & _ & _ & _ & Hu' & _ & _ & _ & Hb).
  { apply lookup_lt_Some in Hu.
    rewrite <- (SimulatorFacts.raw_lengths _ _ _ _ Control E). exact Hu. }
  rewrite Hu in Hu'. injection Hu' as <-. destruct Hb as [Hb1 Hb2].
  unfold ThermalModel.update, ThermalModel.get_derivative,
    ThermalModel.calculate_heat_flow in Hupd.
  cbn [ThermalModel.reset ThermalModel.set_temperature
       ThermalModel.heating_power ThermalModel.cooling_power
       ThermalModel.heat_loss_coef ThermalModel.temperature
       ThermalModel.ambient_temp ThermalModel.total_heat_capacity]
    in Hupd.
  fold plant in Hupd.
  rewrite ThermalModelFacts.applied_power_clamp in Hupd by assumption.
  unfold Py.clamp in Hupd.
  rewrite PIDFacts.clamp_id in Hupd
    by (eapply Qcle_trans; eassumption).
  destruct (Py.div _ _) as [q| |] eqn:Eq; cbn [Py.bind] in Hupd;
    try discriminate.
  unfold Py.div in Eq.
  destruct (decide (ThermalModel.total_heat_capacity plant = 0));
    [discriminate|]. injection Eq as <-.
  injection Hupd as Hupd. symmetry. exact Hupd.
Qed.

End Power.

(** X26.  When the controller's limits lie within the plant's power
    limits (as with the default objects, and as the application wires
    them: [output_min = -cooling_power], [output_max = heating_power]),
    the plant never clips: between two consecutive raw samples the
    temperature moves by
    [((control - heat_loss_coef * (T - ambient)) / C) * dt] with the
    recorded control output itself as the applied power, for a PID run
    and for a fuzzy run. *)
Theorem control_is_applied_power
    (pid_sim pid_sim' : t PIDController.t)
    (fuzzy_sim fuzzy_sim' : t FuzzyController.t)
    (a b : args) (raw1 raw2 : series) :
  let pid := pid_controller pid_sim in
  let fuzzy := pid_controller fuzzy_sim in
  let step (plant : ThermalModel.t) (dt T u : Qc) :=
    T + ((u - ThermalModel.heat_loss_coef plant
              * (T - ThermalModel.ambient_temp plant))
         / ThermalModel.total_heat_capacity plant) * dt in
  0 <= ThermalModel.heating_power (thermal_model pid_sim) ->
  0 <= ThermalModel.cooling_power (thermal_model pid_sim) ->
  - ThermalModel.cooling_power (thermal_model pid_sim)
    <= PIDController.output_min pid ->
  PIDController.output_min pid <= PIDController.output_max pid ->
  PIDController.output_max pid
    <= ThermalModel.heating_power (thermal_model pid_sim) ->
  0 <= ThermalModel.heating_power (thermal_model fuzzy_sim) ->
  0 <= ThermalModel.cooling_power (thermal_model fuzzy_sim) ->
  - ThermalModel.cooling_power (thermal_model fuzzy_sim)
    <= FuzzyController.output_min fuzzy ->
  FuzzyController.output_min fuzzy <= FuzzyController.output_max fuzzy ->
  FuzzyController.output_max fuzzy
    <= ThermalModel.heating_power (thermal_model fuzzy_sim) ->
  simulate_raw pid_sim a = Ok (pid_sim', raw1) ->
  simulate_raw fuzzy_sim b = Ok (fuzzy_sim', raw2) ->
  (forall k T u T',
     temperature raw1 !! k = Some T ->
     control raw1 !! k = Some u ->
     temperature raw1 !! S k = Some T' ->
     T' = step (thermal_model pid_sim) (time_step pid_sim) T u)
  /\ (forall k T u T',
        temperature raw2 !! k = Some T ->
        control raw2 !! k = Some u ->
        temperature raw2 !! S k = Some T' ->
        T' = step (thermal_model fuzzy_sim) (time_step fuzzy_sim) T u).
Proof.
  intros pid fuzzy step Hh1 Hc1 Hlo1 Hle1 Hhi1 Hh2 Hc2 Hlo2 Hle2 Hhi2
    E1 E2.
  split.
  - intros k T u T'. unfold step.
    apply (raw_step_unclipped pid_sim pid_sim' a raw1
             (fun c => PIDController.output_min c
                       = PIDController.output_min pid
                       /\ PIDController.output_max c
                          = PIDController.output_max pid)
             (PIDController.output_min pid) (PIDController.output_max pid)
             Hh1 Hc1 Hlo1 Hhi1);
      [|split; reflexivity | exact E1].
    intros c sp m d c' v. apply pid_step_limits, Hle1.
  - intros k T u T'. unfold step.
    apply (raw_step_unclipped fuzzy_sim fuzzy_sim' b raw2
             (fun c => FuzzyController.output_min c
                       = FuzzyController.output_min fuzzy
                       /\ FuzzyController.output_max c
                          = FuzzyController.output_max fuzzy)
             (FuzzyController.output_min fuzzy)
             (FuzzyController.output_max fuzzy)
             Hh2 Hc2 Hlo2 Hhi2);
      [|split; reflexivity | exact E2].
    intros c sp m d c' v. apply fuzzy_step_limits, Hle2.
Qed.

Lemma control_is_applied_power_witness :
  exists pid_sim' raw1,
    simulate_raw Runs.default_sim Runs.default_args = Ok (pid_sim', raw1)
    /\ forall T u T',
         temperature raw1 !! 0%nat = Some T ->
         control raw1 !! 0%nat = Some u ->
         temperature raw1 !! 1%nat = Some T' ->
         T' = T + ((u - real 1.5 * (T - real 22)) / real 500) * real 0.1.
Proof.
  destruct (simulate_total Runs.default_sim Runs.default_args
              (fun c => PIDController.kp c <> 0))
    as (pid_sim' & raw1 & _ & E1 & _);
    [vm_decide | vm_decide | exact PIDFacts.update_good | vm_decide
    |vm_decide |].
  destruct (simulate_total Cases.fuzzy_sim Runs.default_args
              (fun _ => True))
    as (fuzzy_sim' & raw2 & _ & E2 & _);
    [vm_decide | vm_decide | exact fuzzy_update_good | exact I
    |vm_decide |].
  exists pid_sim', raw1. split; [exact E1|].
  destruct (control_is_applied_power Runs.default_sim pid_sim'
              Cases.fuzzy_sim fuzzy_sim' Runs.default_args
              Runs.default_args raw1 raw2) as [Hpid _];
    [vm_decide | vm_decide | vm_decide | vm_decide | vm_decide
    |vm_decide | vm_decide | vm_decide | vm_decide | vm_decide
    |exact E1 | exact E2 |].
  intros T u T'. exact (Hpid O T u T').
Defined.

End SeriesFacts.
